(** * HCP network mapping: the aggregation-and-summary engine of detailed.py

    A shallow embedding of the four data-transform functions of
    [detailed.py] that the dashboard is built on:

    - [get_all_hcps_details]            (the node aggregator),
    - [get_filtered_nodes]              (the node filter),
    - [get_filtered_edges_for_display]  (the edge selector),
    - [generate_hcp_summary_data]       (the provider summary generator),

    together with the properties that the specification states about them.

    Modelling conventions.

    - A pandas DataFrame is the list of its rows, in index order; a row is
      a record with one field per column.
    - Provider identifiers (NPI) are integers, [Z].
    - Counts (number of connections, papers, panels, trials) are integers.
    - Influence scores and connection strengths are floating-point numbers
      in the program; they are idealised as exact rationals [Q], so that
      sums, means, percentiles and the composite ranking score are exact.
      The base-2 logarithm of the entropy score has no rational model:
      [collaboration_diversity] is the exact real value, in [R], of the
      formula that the program evaluates in binary floating point.  The
      rounding of the program is not modelled, so that the lemmas on this
      score speak of the exact value only; the one value that is the same
      in both readings is the constant 0.0 of the degenerate cases.
    - A cell that the program itself treats as possibly missing (dropna,
      fillna, an optional column) is an [option]: names, cities, states,
      papers, panels, trials and the metric label of an edge.  The
      identifier, connection-count, influence and strength columns are
      required columns and are always populated.
    - Text that is produced with a floating-point format (the percentages
      of the metrics breakdown, the rank text) is kept as structured data
      carrying the number; text that only embeds fixed words or integers
      is an actual string. *)

From Stdlib Require Import ZArith QArith Qround Qminmax List String Bool Arith Lia.
From Stdlib Require Import Permutation Sorted DecimalString.
From Stdlib Require Import Reals Psatz.
Import ListNotations.

Local Open Scope string_scope.
Local Open Scope list_scope.
Local Open Scope Z_scope.

(** ** 1. Data model *)

(** One row of the input table (the edge store). *)
Record EdgeRecord := mkEdge {
  NPI_1 : Z;
  HCP_1 : option string;
  Connections_HCP_1 : Z;
  Influence_score_1 : Q;
  City1 : option string;
  State1 : option string;
  NPI_2 : Z;
  HCP_2 : option string;
  Connections_HCP_2 : Z;
  Influence_score_2 : Q;
  City2 : option string;
  State2 : option string;
  Papers : option Z;
  Panels : option Z;
  Trials : option Z;
  Overall_Connection_Strength : Q;
  Metrics : option string
}.

(** The input DataFrame.  The [Metrics] column is optional in the input
    file and the summary generator asks whether it is there; when it is
    not, the [Metrics] field of the rows is never read. *)
Record DataFrame := mkDF {
  has_Metrics_column : bool;
  rows : list EdgeRecord
}.

(** One side of an edge record under the common column names. *)
Record SideView := mkSide {
  sv_NPI : Z;
  sv_hcp_name : option string;
  sv_connections : Z;
  sv_influence : Q;
  sv_city : option string;
  sv_state : option string;
  sv_papers : option Z;
  sv_panels : option Z;
  sv_trials : option Z
}.

(** One row of the aggregated node table. *)
Record HcpDetails := mkHcp {
  NPI : Z;
  hcp_name : string;
  connections : Z;
  influence : Q;
  city : option string;
  state : option string;
  papers : Z;
  panels : Z;
  trials : Z
}.

(** ** 2. Generic helpers: pandas reductions on a column *)

(** [x.dropna()] *)
Fixpoint dropna {A : Type} (l : list (option A)) : list A :=
  match l with
  | [] => []
  | Some a :: r => a :: dropna r
  | None :: r => dropna r
  end.

(** The [first] reduction of a group: the first entry that is not missing. *)
Definition agg_first {A : Type} (l : list (option A)) : option A :=
  match dropna l with
  | [] => None
  | a :: _ => Some a
  end.

(** [x.fillna(0)] *)
Definition fillna0 (l : list (option Z)) : list Z :=
  map (fun o => match o with Some z => z | None => 0 end) l.

(** The [max] reduction on a group, which is never empty. *)
Definition agg_max (l : list Z) : Z :=
  match l with
  | [] => 0
  | x :: r => fold_left Z.max r x
  end.

(** ** 3. Node aggregator *)

Definition hcp1_renamed (e : EdgeRecord) : SideView :=
  mkSide (NPI_1 e) (HCP_1 e) (Connections_HCP_1 e) (Influence_score_1 e)
         (City1 e) (State1 e) (Papers e) (Panels e) (Trials e).

Definition hcp2_renamed (e : EdgeRecord) : SideView :=
  mkSide (NPI_2 e) (HCP_2 e) (Connections_HCP_2 e) (Influence_score_2 e)
         (City2 e) (State2 e) (Papers e) (Panels e) (Trials e).

(** [pd.concat([hcp1_renamed, hcp2_renamed])] *)
Definition concat_sides (df : DataFrame) : list SideView :=
  map hcp1_renamed (rows df) ++ map hcp2_renamed (rows df).

(** The keys of [groupby('NPI')]: the distinct identifiers, ascending. *)
Fixpoint insert_key (k : Z) (ks : list Z) : list Z :=
  match ks with
  | [] => [k]
  | k' :: r =>
      if k <? k' then k :: ks
      else if k =? k' then ks
      else k' :: insert_key k r
  end.

Definition group_keys (obs : list SideView) : list Z :=
  fold_right (fun o acc => insert_key (sv_NPI o) acc) [] obs.

(** The rows of one group, in the order of the concatenated table. *)
Definition group_of (k : Z) (obs : list SideView) : list SideView :=
  filter (fun o => sv_NPI o =? k) obs.

(** The named aggregation of one group. *)
Definition aggregate (k : Z) (g : list SideView) : HcpDetails :=
  {| NPI := k;
     hcp_name := match dropna (map sv_hcp_name g) with
                 | n :: _ => n
                 | [] => "N/A"
                 end;
     connections := agg_max (map sv_connections g);
     influence := hd 0%Q (map sv_influence g);
     city := agg_first (map sv_city g);
     state := agg_first (map sv_state g);
     papers := agg_max (fillna0 (map sv_papers g));
     panels := agg_max (fillna0 (map sv_panels g));
     trials := agg_max (fillna0 (map sv_trials g)) |}.

Definition get_all_hcps_details (df : DataFrame) : list HcpDetails :=
  let obs := concat_sides df in
  map (fun k => aggregate k (group_of k obs)) (group_keys obs).

(** ** 4. Sorting by a key, descending

    [nlargest], [list.sort(key=..., reverse=True)] and
    [sorted(..., reverse=True)] all order by a numeric key, largest first,
    and leave rows with equal keys in their original relative order. *)

Section SortDesc.
Context {A : Type} (key : A -> Q).

(** [x] is put in front of the first row whose key does not exceed its own. *)
Fixpoint insert_desc (x : A) (l : list A) : list A :=
  match l with
  | [] => [x]
  | y :: r =>
      if Qle_bool (key y) (key x) then x :: y :: r
      else y :: insert_desc x r
  end.

Definition sort_desc (l : list A) : list A :=
  fold_right insert_desc [] l.
End SortDesc.

(** ** 5. Node filter *)

Inductive SortKey := by_connections | by_influence.

Definition sort_column (s : SortKey) (r : HcpDetails) : Q :=
  match s with
  | by_connections => inject_Z (connections r)
  | by_influence => influence r
  end.

(** Truth value of an optional list argument: [None] and [[]] are false. *)
Definition truthy {A : Type} (o : option (list A)) : bool :=
  match o with
  | Some (_ :: _) => true
  | _ => false
  end.

Definition values_of {A : Type} (o : option (list A)) : list A :=
  match o with
  | Some l => l
  | None => []
  end.

(** [column.isin(values)] on a column of optional strings; a missing cell
    is in no list of names. *)
Definition isin_str (v : option string) (values : list string) : bool :=
  match v with
  | Some s => existsb (String.eqb s) values
  | None => false
  end.

(** [column.isin(values)] on the identifier column. *)
Definition isin_Z (v : Z) (values : list Z) : bool :=
  existsb (Z.eqb v) values.

(** The boolean mask of the five lower bounds. *)
Definition thresholds_mask (min_connections : Z) (min_influence : Q)
    (min_papers min_panels min_trials : Z) (r : HcpDetails) : bool :=
  (min_connections <=? connections r) &&
  Qle_bool min_influence (influence r) &&
  (min_papers <=? papers r) &&
  (min_panels <=? panels r) &&
  (min_trials <=? trials r).

(** [df.nlargest(n, column)] *)
Definition nlargest (n : nat) (s : SortKey) (l : list HcpDetails) : list HcpDetails :=
  firstn n (sort_desc (sort_column s) l).

(** The rows that survive the predicates, before the top-n selection.
    [top_n] is the number of rows asked for, a natural number (the
    dashboard passes a count of at least 1). *)
Definition surviving_rows (all_hcps_details : list HcpDetails)
    (selected_states selected_cities : option (list string))
    (min_connections : Z) (min_influence : Q)
    (min_papers min_panels min_trials : Z) : list HcpDetails :=
  let df0 := all_hcps_details in
  let df1 := if truthy selected_states
             then filter (fun r => isin_str (state r) (values_of selected_states)) df0
             else df0 in
  let df2 := if truthy selected_cities
             then filter (fun r => isin_str (city r) (values_of selected_cities)) df1
             else df1 in
  filter (thresholds_mask min_connections min_influence
                          min_papers min_panels min_trials) df2.

Definition get_filtered_nodes (all_hcps_details : list HcpDetails) (top_n : nat)
    (selected_states selected_cities : option (list string))
    (min_connections : Z) (min_influence : Q)
    (min_papers min_panels min_trials : Z) (sort_by : SortKey)
    : list HcpDetails :=
  let filtered_nodes_df :=
    surviving_rows all_hcps_details selected_states selected_cities
                   min_connections min_influence min_papers min_panels min_trials in
  match filtered_nodes_df with
  | _ :: _ =>
      nlargest (Nat.min top_n (List.length filtered_nodes_df)) sort_by filtered_nodes_df
  | [] => []
  end.

(** ** 6. Edge selector *)

Definition edge_mask (filtered_node_npis : list Z) (min_strength max_strength : Q)
    (e : EdgeRecord) : bool :=
  isin_Z (NPI_1 e) filtered_node_npis &&
  isin_Z (NPI_2 e) filtered_node_npis &&
  Qle_bool min_strength (Overall_Connection_Strength e) &&
  Qle_bool (Overall_Connection_Strength e) max_strength.

Definition get_filtered_edges_for_display (original_df : DataFrame)
    (filtered_node_npis : list Z) (min_strength max_strength : Q)
    : list EdgeRecord :=
  match filtered_node_npis with
  | [] => []
  | _ :: _ =>
      filter (edge_mask filtered_node_npis min_strength max_strength)
             (rows original_df)
  end.

(** ** 7. Provider summary generator: the parts *)

Definition Q_of_nat (n : nat) : Q := inject_Z (Z.of_nat n).

(** [a < b] on the idealised floats. *)
Definition Qlt_bool (a b : Q) : bool := negb (Qle_bool b a).

(** [column.sum()] and [column.mean()] *)
Definition col_sum (l : list Q) : Q := fold_right Qplus 0%Q l.

Definition col_mean (l : list Q) : Q :=
  (col_sum l / Q_of_nat (List.length l))%Q.

(** [column.min()] of a column that is not empty. *)
Definition col_min (l : list Q) : Q :=
  match l with
  | [] => 0%Q
  | x :: r => fold_left Qmin r x
  end.

(** *** Influence rank *)

(** [(column < score).sum()] *)
Definition count_lower (score : Q) (col : list Q) : nat :=
  List.length (filter (fun y => Qlt_bool y score) col).

Inductive RankText :=
| only_HCP_in_the_network
| placing_them_in_the_top (percent : Q).

Definition influence_rank (influence_score : Q) (all_hcps : list HcpDetails)
    : Q * RankText :=
  let col := map influence all_hcps in
  if (1 <? List.length all_hcps)%nat then
    let influence_percentile :=
      if negb (Qeq_bool influence_score (col_min col))
      then (Q_of_nat (count_lower influence_score col)
            / Q_of_nat (List.length all_hcps - 1) * 100)%Q
      else 0%Q in
    (influence_percentile, placing_them_in_the_top (100 - influence_percentile)%Q)
  else (0%Q, only_HCP_in_the_network).

(** *** Direct connections *)

Definition direct_connections (selected_npi : Z) (original_df : DataFrame)
    : list EdgeRecord :=
  filter (fun e => (NPI_1 e =? selected_npi) || (NPI_2 e =? selected_npi))
         (rows original_df).

Definition avg_strength (direct : list EdgeRecord) : Q :=
  match direct with
  | [] => 0%Q
  | _ :: _ => col_mean (map Overall_Connection_Strength direct)
  end.

(** *** Network diversity *)

(** [column.unique()], first occurrences kept. *)
Fixpoint unique (l : list string) : list string :=
  match l with
  | [] => []
  | x :: r => x :: filter (fun y => negb (String.eqb x y)) (unique r)
  end.

(** The set of the endpoints of the direct connections, with the selected
    identifier discarded; only membership of this set is ever used. *)
Definition connected_npis_temp (selected_npi : Z) (direct : list EdgeRecord) : list Z :=
  filter (fun k => negb (k =? selected_npi))
         (map NPI_1 direct ++ map NPI_2 direct).

Definition connected_hcps_details (selected_npi : Z) (all_hcps : list HcpDetails)
    (direct : list EdgeRecord) : list HcpDetails :=
  filter (fun r => isin_Z (NPI r) (connected_npis_temp selected_npi direct)) all_hcps.

Definition unique_states (selected_npi : Z) (all_hcps : list HcpDetails)
    (direct : list EdgeRecord) : nat :=
  List.length (unique (dropna (map state
     (connected_hcps_details selected_npi all_hcps direct)))).

Definition unique_cities (selected_npi : Z) (all_hcps : list HcpDetails)
    (direct : list EdgeRecord) : nat :=
  List.length (unique (dropna (map city
     (connected_hcps_details selected_npi all_hcps direct)))).

(** *** Dominant metrics *)

(** The metric labels of the direct connections that are not missing. *)
Definition all_direct_metrics (original_df : DataFrame) (direct : list EdgeRecord)
    : list string :=
  if has_Metrics_column original_df then dropna (map Metrics direct) else [].

(** Counting the occurrences of each label, labels in order of first
    appearance. *)
Fixpoint tally_add (m : string) (t : list (string * nat)) : list (string * nat) :=
  match t with
  | [] => [(m, 1%nat)]
  | (k, c) :: r =>
      if String.eqb k m then (k, S c) :: r else (k, c) :: tally_add m r
  end.

Definition tally (l : list string) : list (string * nat) :=
  fold_left (fun t m => tally_add m t) l [].

(** [pd.Series(l).value_counts()]: most frequent label first. *)
Definition value_counts (l : list string) : list (string * nat) :=
  sort_desc (fun kc => Q_of_nat (snd kc)) (tally l).

Fixpoint join (sep : string) (l : list string) : string :=
  match l with
  | [] => EmptyString
  | [x] => x
  | x :: r => (x ++ sep ++ join sep r)%string
  end.

Definition dominant_metrics (metric_counts : list (string * nat)) : list string :=
  map fst (firstn 2 metric_counts).

Definition dominant_text (metric_counts : list (string * nat)) : string :=
  match dominant_metrics metric_counts with
  | [] => "no specific dominant metric identified"
  | d => join " and " d
  end.

(** *** Collaboration diversity score

    The exact value of the formula of lines 241 to 248.  The program
    evaluates it in binary floating point, where the quotient of the
    rounded entropy by the rounded logarithm can exceed 1 by one unit in
    the last place (13 labels, once each); nothing below bounds the
    floating-point value. *)

Definition log2 (x : R) : R := (ln x / ln 2)%R.

Definition counts_total (metric_counts : list (string * nat)) : nat :=
  fold_right Nat.add 0%nat (map snd metric_counts).

Definition probabilities (metric_counts : list (string * nat)) : list R :=
  map (fun kc => (INR (snd kc) / INR (counts_total metric_counts))%R) metric_counts.

(** [-sum(p * math.log2(p) for p in probabilities if p > 0)] *)
Definition entropy (probs : list R) : R :=
  (- fold_left (fun acc p => if Rlt_dec 0 p then acc + p * log2 p else acc)
               probs 0)%R.

Definition max_entropy (metric_counts : list (string * nat)) : R :=
  match List.length metric_counts with
  | O => 1%R
  | n => log2 (INR n)
  end.

Definition collaboration_diversity (metric_counts : list (string * nat)) : R :=
  match metric_counts with
  | [] => 0%R
  | _ :: _ =>
      if Rlt_dec 0 (max_entropy metric_counts)
      then (entropy (probabilities metric_counts) / max_entropy metric_counts)%R
      else 0%R
  end.

(** *** KOL status *)

Fixpoint insert_asc (x : Q) (l : list Q) : list Q :=
  match l with
  | [] => [x]
  | y :: r => if Qle_bool x y then x :: l else y :: insert_asc x r
  end.

Definition sort_asc (l : list Q) : list Q := fold_right insert_asc [] l.

(** [column.quantile(q)] with the default linear interpolation: the value
    at the fractional position [q * (n - 1)] of the sorted column.  An
    empty column has no quantile. *)
Definition quantile (q : Q) (col : list Q) : option Q :=
  match sort_asc col with
  | [] => None
  | (x0 :: _) as s =>
      let position := (q * (Q_of_nat (List.length s) - 1))%Q in
      let below := Z.to_nat (Qfloor position) in
      let above := Nat.min (below + 1) (List.length s - 1) in
      let gamma := (position - Q_of_nat below)%Q in
      let a := nth below s x0 in
      let b := nth above s x0 in
      Some (a + (b - a) * gamma)%Q
  end.

(** [x >= threshold]; a comparison with a missing threshold is false. *)
Definition at_least (x : Q) (threshold : option Q) : bool :=
  match threshold with
  | Some t => Qle_bool t x
  | None => false
  end.

Definition activity (r : HcpDetails) : Z := papers r + panels r + trials r.

Record Thresholds := mkThresholds {
  th_influence : option Q;
  th_connections : option Q;
  th_activity : option Q
}.

Definition kol_thresholds (all_hcps : list HcpDetails) : Thresholds :=
  {| th_influence := quantile (9 # 10) (map influence all_hcps);
     th_connections :=
       quantile (9 # 10) (map (fun r => inject_Z (connections r)) all_hcps);
     th_activity :=
       quantile (9 # 10) (map (fun r => inject_Z (activity r)) all_hcps) |}.

Definition is_kol (hcp_data : HcpDetails) (all_hcps : list HcpDetails) : bool :=
  let t := kol_thresholds all_hcps in
  at_least (influence hcp_data) (th_influence t) &&
  at_least (inject_Z (connections hcp_data)) (th_connections t) &&
  at_least (inject_Z (papers hcp_data + panels hcp_data + trials hcp_data))
           (th_activity t).

(** *** Top connections *)

Record TopConnection := mkTop {
  tc_name : string;
  tc_npi : Z;
  tc_strength : Q;
  tc_influence : Q;
  tc_metric_type : option string;
  tc_impact_statement : string
}.

(** [str(int(x))] *)
Definition str_of_int (z : Z) : string := NilZero.string_of_int (Z.to_int z).

(** [row.get('Metrics', 'General Collaboration')] *)
Definition connection_metric_type (original_df : DataFrame) (row : EdgeRecord)
    : option string :=
  if has_Metrics_column original_df then Metrics row
  else Some "General Collaboration".

(** [value == label]; a missing value equals no label. *)
Definition metric_is (value : option string) (label : string) : bool :=
  match value with
  | Some m => String.eqb m label
  | None => false
  end.

Definition impact_statement (metric_type : option string)
    (connected_hcp_row : HcpDetails) : string :=
  if metric_is metric_type "Publishers" then "Co-authored on publications."
  else if metric_is metric_type "Affiliations" then "Shared professional affiliations."
  else if metric_is metric_type "Promotional Events" then "Collaborated on promotional events."
  else if metric_is metric_type "Clinical Trials" then "Participated in clinical trials."
  else if metric_is metric_type "Panels" then "Contributed to advisory panels."
  else if 0 <? papers connected_hcp_row
       then ("Collaborated on " ++ str_of_int (papers connected_hcp_row) ++ " papers.")%string
  else if 0 <? panels connected_hcp_row
       then ("Contributed to " ++ str_of_int (panels connected_hcp_row) ++ " panels.")%string
  else if 0 <? trials connected_hcp_row
       then ("Engaged in " ++ str_of_int (trials connected_hcp_row) ++ " trials.")%string
  else "Engaged in a key professional collaboration.".

(** The other endpoint of a direct connection. *)
Definition connected_npi (selected_npi : Z) (row : EdgeRecord) : Z :=
  if NPI_1 row =? selected_npi then NPI_2 row else NPI_1 row.

(** [df[df['NPI'] == npi]] followed by [.iloc[0]] when it is not empty. *)
Definition lookup_hcp (npi : Z) (all_hcps : list HcpDetails) : option HcpDetails :=
  find (fun r => NPI r =? npi) all_hcps.

(** The body of the loop over the direct connections: the entry that the
    row appends, if any. *)
Definition top_connection_entry (selected_npi : Z) (all_hcps : list HcpDetails)
    (original_df : DataFrame) (row : EdgeRecord) : list TopConnection :=
  let c := connected_npi selected_npi row in
  match lookup_hcp c all_hcps with
  | Some connected_hcp_row =>
      let t := connection_metric_type original_df row in
      [ {| tc_name := hcp_name connected_hcp_row;
           tc_npi := c;
           tc_strength := Overall_Connection_Strength row;
           tc_influence := influence connected_hcp_row;
           tc_metric_type := t;
           tc_impact_statement := impact_statement t connected_hcp_row |} ]
  | None => []
  end.

(** The sort key [0.6 * influence + 0.4 * strength]. *)
Definition composite_score (x : TopConnection) : Q :=
  ((6 # 10) * tc_influence x + (4 # 10) * tc_strength x)%Q.

Definition top_connections (selected_npi : Z) (all_hcps : list HcpDetails)
    (original_df : DataFrame) (direct : list EdgeRecord) : list TopConnection :=
  sort_desc composite_score
    (flat_map (top_connection_entry selected_npi all_hcps original_df) direct).

(** *** Metrics breakdown *)

Definition defined_metrics : list string :=
  ["Publishers"; "Affiliations"; "Promotional Events"; "Clinical Trials"; "Panels"].

(** The dictionary [connection_metrics_counts], in insertion order. *)
Definition Counts := list (string * nat).

Definition initial_counts : Counts := map (fun m => (m, 0%nat)) defined_metrics.

Fixpoint dict_mem (k : string) (d : Counts) : bool :=
  match d with
  | [] => false
  | (k', _) :: r => String.eqb k' k || dict_mem k r
  end.

Fixpoint dict_incr (k : string) (d : Counts) : Counts :=
  match d with
  | [] => []
  | (k', c) :: r =>
      if String.eqb k' k then (k', S c) :: r else (k', c) :: dict_incr k r
  end.

(** One turn of the counting loop on the state
    [(connection_metrics_counts, other_metrics_count)]. *)
Definition count_step (st : Counts * nat) (metric_value : string) : Counts * nat :=
  if dict_mem metric_value (fst st)
  then (dict_incr metric_value (fst st), snd st)
  else (fst st, S (snd st)).

Definition count_metrics (values : list string) : Counts * nat :=
  fold_left count_step values (initial_counts, 0%nat).

Definition total_metric_instances (st : Counts * nat) : nat :=
  (fold_right Nat.add 0 (map snd (fst st)) + snd st)%nat.

Inductive BreakdownLine :=
| metric_line (label : string) (count : nat) (percentage : Q)
| no_metrics_line.

Definition percentage_of (count total : nat) : Q :=
  (Q_of_nat count / Q_of_nat total * 100)%Q.

Definition metrics_breakdown_lines (st : Counts * nat) : list BreakdownLine :=
  let total := total_metric_instances st in
  if (0 <? total)%nat then
    flat_map (fun mc : string * nat =>
                if (0 <? snd mc)%nat
                then [metric_line (fst mc) (snd mc) (percentage_of (snd mc) total)]
                else [])
             (fst st)
    ++ (if (0 <? snd st)%nat
        then [metric_line "Other/Undefined" (snd st) (percentage_of (snd st) total)]
        else [])
  else [no_metrics_line].

Definition not_categorized_message : string :=
  "This HCP's connection dynamics are not clearly categorized by the standard metrics.".

Definition two_focus_message (dominant secondary : string) : string :=
  ("This highlights a strong focus on **" ++ dominant ++
   "** connections, with notable engagement in **" ++ secondary ++ "**.")%string.

Definition one_focus_message (dominant : string) : string :=
  ("This HCP's network shows a strong focus on **" ++ dominant ++ "** connections.")%string.

(** The interpretation sentence.  The dictionary always holds the five
    defined metrics, so the sorted items are never empty. *)
Definition interpretation (metric_counts : list (string * nat)) (st : Counts * nat)
    : string :=
  if (0 <? total_metric_instances st)%nat then
    match metric_counts with
    | [] => not_categorized_message
    | _ :: _ =>
        let sorted_metric_items :=
          sort_desc (fun mc : string * nat => Q_of_nat (snd mc)) (fst st) in
        match sorted_metric_items with
        | [] => EmptyString
        | (m0, c0) :: rest =>
            let dominant_category_val :=
              if (0 <? c0)%nat then m0 else "diverse engagement" in
            match rest with
            | (m1, c1) :: _ =>
                if (0 <? c1)%nat
                then two_focus_message dominant_category_val m1
                else one_focus_message dominant_category_val
            | [] => one_focus_message dominant_category_val
            end
        end
    end
  else EmptyString.

(** ** 8. Provider summary generator *)

Record Summary := mkSummary {
  s_hcp_data : HcpDetails;
  s_total_connections : Z;
  s_influence_score : Q;
  s_influence_rank_text : RankText;
  s_influence_percentile : Q;
  s_avg_connection_strength : Q;
  s_unique_states_connected : nat;
  s_unique_cities_connected : nat;
  s_dominant_metrics_text : string;
  s_top_connections_list : list TopConnection;
  s_metrics_breakdown : list BreakdownLine;
  s_metrics_interpretation : string;
  s_papers : Z;
  s_panels : Z;
  s_trials : Z;
  s_collaboration_diversity_score : R;
  s_kol_status : string
}.

(** The summary of a provider whose row [hcp_data] was found. *)
Definition summary_of (selected_npi : Z) (hcp_data : HcpDetails)
    (all_hcps : list HcpDetails) (original_df : DataFrame) : Summary :=
  let rank := influence_rank (influence hcp_data) all_hcps in
  let direct := direct_connections selected_npi original_df in
  let metric_counts := value_counts (all_direct_metrics original_df direct) in
  let st := count_metrics (all_direct_metrics original_df direct) in
  {| s_hcp_data := hcp_data;
     s_total_connections := connections hcp_data;
     s_influence_score := influence hcp_data;
     s_influence_rank_text := snd rank;
     s_influence_percentile := fst rank;
     s_avg_connection_strength := avg_strength direct;
     s_unique_states_connected := unique_states selected_npi all_hcps direct;
     s_unique_cities_connected := unique_cities selected_npi all_hcps direct;
     s_dominant_metrics_text := dominant_text metric_counts;
     s_top_connections_list :=
       top_connections selected_npi all_hcps original_df direct;
     s_metrics_breakdown := metrics_breakdown_lines st;
     s_metrics_interpretation := interpretation metric_counts st;
     s_papers := papers hcp_data;
     s_panels := panels hcp_data;
     s_trials := trials hcp_data;
     s_collaboration_diversity_score := collaboration_diversity metric_counts;
     s_kol_status :=
       if is_kol hcp_data all_hcps then "Key Opinion Leader" else "Standard HCP" |}.

(** [None] is the null result of the program. *)
Definition generate_hcp_summary_data (selected_npi : option Z)
    (all_hcps_details_df : list HcpDetails) (original_df : DataFrame)
    : option Summary :=
  match selected_npi, all_hcps_details_df with
  | None, _ => None
  | Some _, [] => None
  | Some npi, _ :: _ =>
      match filter (fun r => NPI r =? npi) all_hcps_details_df with
      | [] => None
      | hcp_data :: _ => Some (summary_of npi hcp_data all_hcps_details_df original_df)
      end
  end.

(** ** 9. Vocabulary of the properties *)

(** [r] is the first entry of [l] that is not missing, if there is one. *)
Definition is_first_non_missing {A : Type} (l : list (option A)) (r : option A)
    : Prop :=
  match r with
  | Some a =>
      exists before after,
        l = before ++ Some a :: after /\ Forall (fun x => x = None) before
  | None => Forall (fun x => x = None) l
  end.

(** [m] is the largest element of [l]. *)
Definition is_maximum (l : list Z) (m : Z) : Prop :=
  In m l /\ Forall (fun x => x <= m) l.

(** What the records report for the identifier [k] in a column that has a
    side-1 and a side-2 version: the side-1 cells of the records that
    have [k] on side 1, in record order, followed by the side-2 cells of
    the records that have [k] on side 2. *)
Definition reported {A : Type} (k : Z) (df : DataFrame)
    (side1 side2 : EdgeRecord -> A) : list A :=
  map side1 (filter (fun e => NPI_1 e =? k) (rows df)) ++
  map side2 (filter (fun e => NPI_2 e =? k) (rows df)).

(** The column [l] with every missing cell counted as 0. *)
Definition missing_as_zero (l : list (option Z)) : list Z :=
  map (fun cell => match cell with Some z => z | None => 0 end) l.

(** A row meets the filter criteria: the state and city memberships when
    a selection is given, and the five inclusive lower bounds. *)
Definition meets_criteria (selected_states selected_cities : option (list string))
    (min_connections : Z) (min_influence : Q)
    (min_papers min_panels min_trials : Z) (r : HcpDetails) : Prop :=
  (truthy selected_states = true ->
     exists s, state r = Some s /\ In s (values_of selected_states)) /\
  (truthy selected_cities = true ->
     exists c, city r = Some c /\ In c (values_of selected_cities)) /\
  min_connections <= connections r /\
  (min_influence <= influence r)%Q /\
  min_papers <= papers r /\
  min_panels <= panels r /\
  min_trials <= trials r.

(** An edge record joins two selected identifiers with a strength in range. *)
Definition edge_selected (npis : list Z) (min_strength max_strength : Q)
    (e : EdgeRecord) : Prop :=
  In (NPI_1 e) npis /\ In (NPI_2 e) npis /\
  (min_strength <= Overall_Connection_Strength e)%Q /\
  (Overall_Connection_Strength e <= max_strength)%Q.

(** Largest key first. *)
Definition descending {A : Type} (key : A -> Q) : list A -> Prop :=
  StronglySorted (fun a b => (key b <= key a)%Q).

(** [x] meets or exceeds the 90th percentile of the column [col]. *)
Definition at_or_above_p90 (col : list Q) (x : Q) : Prop :=
  exists t, quantile (9 # 10) col = Some t /\ (t <= x)%Q.

(** The sum of a list of reals, and one term of the entropy sum. *)
Definition Rsum (l : list R) : R := fold_right Rplus 0%R l.

Definition plogp (p : R) : R :=
  if Rlt_dec 0 p then (p * log2 p)%R else 0%R.

(** The number of occurrences of a label in a list of labels. *)
Definition occurrences (m : string) (l : list string) : nat :=
  List.length (filter (String.eqb m) l).

(** The count that a table of counts holds for a label (0 when absent). *)
Fixpoint count_of (k : string) (t : list (string * nat)) : nat :=
  match t with
  | [] => 0%nat
  | (k', c) :: r => if String.eqb k' k then c else count_of k r
  end.

(** The relative frequency of a label among the labels, and the Shannon
    entropy (in bits) of the frequency distribution of the labels: the
    sum of [- f * log2 f] over the distinct labels. *)
Definition frequency (m : string) (labels : list string) : R :=
  (INR (occurrences m labels) / INR (List.length labels))%R.

Definition shannon_entropy (labels : list string) : R :=
  Rsum (map (fun m => (- (frequency m labels * log2 (frequency m labels)))%R)
            (unique labels)).

(** The priority rule of the impact statement: the fixed wording of the
    metric type when it is one of the five defined metrics; otherwise the
    first positive count among papers, panels and trials of the connected
    provider, in that order; otherwise the generic statement. *)
Definition impact_statement_rule (metric_type : option string)
    (c : HcpDetails) (statement : string) : Prop :=
  (metric_type = Some "Publishers" ->
     statement = "Co-authored on publications.") /\
  (metric_type = Some "Affiliations" ->
     statement = "Shared professional affiliations.") /\
  (metric_type = Some "Promotional Events" ->
     statement = "Collaborated on promotional events.") /\
  (metric_type = Some "Clinical Trials" ->
     statement = "Participated in clinical trials.") /\
  (metric_type = Some "Panels" ->
     statement = "Contributed to advisory panels.") /\
  ((forall m, In m defined_metrics -> metric_type <> Some m) ->
     (0 < papers c ->
        statement =
        ("Collaborated on " ++ str_of_int (papers c) ++ " papers.")%string) /\
     (papers c <= 0 -> 0 < panels c ->
        statement =
        ("Contributed to " ++ str_of_int (panels c) ++ " panels.")%string) /\
     (papers c <= 0 -> panels c <= 0 -> 0 < trials c ->
        statement =
        ("Engaged in " ++ str_of_int (trials c) ++ " trials.")%string) /\
     (papers c <= 0 -> panels c <= 0 -> trials c <= 0 ->
        statement = "Engaged in a key professional collaboration.")).

(** The record [r] of the edge store has the provider [npi] on one of its
    two sides. *)
Definition is_direct_connection (npi : Z) (df : DataFrame) (r : EdgeRecord)
    : Prop :=
  In r (rows df) /\ (NPI_1 r = npi \/ NPI_2 r = npi).

(** [c] is the first row of the node table whose id is [k]. *)
Definition first_row_with_id (k : Z) (nodes : list HcpDetails) (c : HcpDetails)
    : Prop :=
  exists before after,
    nodes = before ++ c :: after /\ NPI c = k /\ ~ In k (map NPI before).

(** The record [r] has the provider [npi] on one of its sides and the id
    on the other side (side 2 when side 1 is [npi], else side 1) has a row
    in the node table. *)
Definition has_entry (npi : Z) (nodes : list HcpDetails) (r : EdgeRecord)
    : bool :=
  ((NPI_1 r =? npi) || (NPI_2 r =? npi)) &&
  existsb (Z.eqb (if NPI_1 r =? npi then NPI_2 r else NPI_1 r)) (map NPI nodes).

(** The entry [x] of the top-connections list describes the direct
    connection [r] of the provider [npi]: its id is the other endpoint of
    [r], [c] is the first row of the node table with that id, the name and
    the influence are those of [c], the strength is that of [r], the
    metric type is the Metrics cell of [r] (General Collaboration when the
    edge store has no such column), and the impact statement follows the
    priority rule. *)
Definition describes (npi : Z) (df : DataFrame) (nodes : list HcpDetails)
    (r : EdgeRecord) (c : HcpDetails) (x : TopConnection) : Prop :=
  tc_npi x = (if NPI_1 r =? npi then NPI_2 r else NPI_1 r) /\
  first_row_with_id (tc_npi x) nodes c /\
  tc_name x = hcp_name c /\
  tc_strength x = Overall_Connection_Strength r /\
  tc_influence x = influence c /\
  (has_Metrics_column df = true -> tc_metric_type x = Metrics r) /\
  (has_Metrics_column df = false ->
     tc_metric_type x = Some "General Collaboration") /\
  impact_statement_rule (tc_metric_type x) c (tc_impact_statement x).

(** The number of labels that are none of the five defined metrics. *)
Definition other_count (labels : list string) : nat :=
  List.length
    (filter (fun v => negb (existsb (String.eqb v) defined_metrics)) labels).

(** The line of the breakdown for a bucket, when the bucket is not empty. *)
Definition bucket_line (label : string) (count total : nat) : list BreakdownLine :=
  if (0 <? count)%nat
  then [metric_line label count (Q_of_nat count / Q_of_nat total * 100)%Q]
  else [].

(** The interpretation names the top one or two defined metrics that have
    connections: [d] has the most connections, and either it is the only
    one with any, or [s] has the most among the others. *)
Definition names_top_categories (labels : list string) (text : string) : Prop :=
  exists d,
    In d defined_metrics /\
    (0 < occurrences d labels)%nat /\
    (forall m, In m defined_metrics ->
               (occurrences m labels <= occurrences d labels)%nat) /\
    ((text = one_focus_message d /\
      forall m, In m defined_metrics -> m <> d -> occurrences m labels = 0%nat)
     \/
     (exists s,
        In s defined_metrics /\ s <> d /\
        (0 < occurrences s labels)%nat /\
        (forall m, In m defined_metrics -> m <> d ->
                   (occurrences m labels <= occurrences s labels)%nat) /\
        text = two_focus_message d s)).

(** A message that names no focus. *)
Definition neutral_message (text : string) : Prop :=
  text = not_categorized_message \/ text = EmptyString.

(** The interpretation as the specification words it: the top one or two
    non-zero categories are named, or, when no connection is in a
    category, the message is neutral. *)
Definition interpretation_as_specified (labels : list string) (text : string)
    : Prop :=
  names_top_categories labels text \/
  ((forall m, In m defined_metrics -> occurrences m labels = 0%nat) /\
   neutral_message text).

(** ** 10. A small network for the examples

    Provider A is connected to B (strength 0.8, Publishers) and to C
    (strength 0.3, Panels); A is reported with 10 connections in the
    first record and with 15 in the second. *)

Definition edge_ab : EdgeRecord :=
  mkEdge 1 (Some "A") 10 5%Q (Some "Boston") (Some "MA")
         2 (Some "B") 3 7%Q (Some "Austin") (Some "TX")
         (Some 2) None (Some 1) (8 # 10) (Some "Publishers").

Definition edge_ac : EdgeRecord :=
  mkEdge 1 None 15 5%Q (Some "Boston") (Some "MA")
         3 (Some "C") 4 2%Q None (Some "NY")
         None (Some 4) None (3 # 10) (Some "Panels").

(** A record that connects A to itself. *)
Definition edge_aa : EdgeRecord :=
  mkEdge 1 (Some "A") 15 5%Q (Some "Boston") (Some "MA")
         1 (Some "A") 15 5%Q (Some "Boston") (Some "MA")
         None None None (5 # 10) (Some "Affiliations").

(** A record whose metric label is none of the five defined metrics. *)
Definition edge_research : EdgeRecord :=
  mkEdge 1 (Some "A") 10 5%Q (Some "Boston") (Some "MA")
         2 (Some "B") 3 7%Q (Some "Austin") (Some "TX")
         None None None (8 # 10) (Some "Research").

Definition scenario_df : DataFrame := mkDF true [edge_ab; edge_ac].

Definition research_df : DataFrame := mkDF true [edge_research].

Definition node_a : HcpDetails :=
  mkHcp 1 "A" 15 5%Q (Some "Boston") (Some "MA") 2 4 1.

Definition node_b : HcpDetails :=
  mkHcp 2 "B" 3 7%Q (Some "Austin") (Some "TX") 2 0 1.

Definition node_c : HcpDetails :=
  mkHcp 3 "C" 4 2%Q None (Some "NY") 0 4 0.

Definition scenario_nodes : list HcpDetails := [node_a; node_b; node_c].

(** ** 11. Network rendering: the attributes that create_pyvis_network computes *)

(** [max(0, min(1, x))] *)
Definition clamp01 (x : Q) : Q := Qmax 0 (Qmin 1 x).

(** The connection count of a node, normalised over the global range. *)
Definition norm_connections (connections global_min_connections
    global_max_connections : Z) : Q :=
  if global_max_connections - global_min_connections =? 0 then (1 # 2)
  else clamp01 (inject_Z (connections - global_min_connections)
                / inject_Z (global_max_connections - global_min_connections)).

(** [size = 15 + norm_connections * (70 - 15)] *)
Definition node_size (connections global_min_connections
    global_max_connections : Z) : Q :=
  (15 + norm_connections connections global_min_connections
                         global_max_connections * (70 - 15))%Q.

(** [mass = max(1, connections / 50)] *)
Definition node_mass (connections : Z) : Q :=
  Qmax 1 (inject_Z connections / 50).

(** The strength of an edge, normalised over the global range. *)
Definition norm_weight (weight global_min_edge_strength
    global_max_edge_strength : Q) : Q :=
  if Qeq_bool (global_max_edge_strength - global_min_edge_strength) 0
  then (1 # 2)
  else clamp01 ((weight - global_min_edge_strength)
                / (global_max_edge_strength - global_min_edge_strength)).

(** [width = 1 + norm_weight * (10 - 1)] *)
Definition edge_width (weight global_min_edge_strength
    global_max_edge_strength : Q) : Q :=
  (1 + norm_weight weight global_min_edge_strength
                   global_max_edge_strength * (10 - 1))%Q.

(** The opacity in the colour of an edge, [0.4 + norm_weight * 0.5]. *)
Definition edge_opacity (weight global_min_edge_strength
    global_max_edge_strength : Q) : Q :=
  ((4 # 10) + norm_weight weight global_min_edge_strength
                          global_max_edge_strength * (5 # 10))%Q.

(** [infl_u]: the influence of the first row of the node, 0 when the node
    has no row. *)
Definition node_influence (nodes_df : list HcpDetails) (u : Z) : Q :=
  match filter (fun r => NPI r =? u) nodes_df with
  | r :: _ => influence r
  | [] => 0%Q
  end.

(** What the loop over the edge records does with one record: it adds an
    arrow from [source_node] to [target_node], or the lookup
    [net.get_node] of an endpoint that was not added as a node raises
    [KeyError]. *)
Inductive EdgeOutcome : Type :=
| arrow (source_node target_node : Z)
| KeyError.

(** [net.get_node(n)] finds a node: the nodes of the network are the ids
    of the rows of the node table. *)
Definition has_node (nodes_df : list HcpDetails) (n : Z) : bool :=
  isin_Z n (map NPI nodes_df).

(** The body of the loop over the edge records:
    [if net.get_node(u) and net.get_node(v)], then the direction of the
    arrow. *)
Definition draw_edge (nodes_df : list HcpDetails) (e : EdgeRecord)
    : EdgeOutcome :=
  let u := NPI_1 e in
  let v := NPI_2 e in
  if has_node nodes_df u then
    if has_node nodes_df v then
      if Qle_bool (node_influence nodes_df v) (node_influence nodes_df u)
      then arrow u v else arrow v u
    else KeyError
  else KeyError.

(** ** 12. Summary page: render_hcp_summary *)

(** The entries shown in the table of top connections. *)
Definition top_connections_display (top_n_connections : nat)
    (top_connections_list : list TopConnection) : list TopConnection :=
  firstn (Nat.min top_n_connections (List.length top_connections_list))
         top_connections_list.

(** ** 13. The main page: selection of a provider, displayed network,
    network summary *)

Definition placeholder_name : string := "Select an HCP for Summary".

(** The pair [(selected_hcp_npi, summary_data)] that the session holds after
    a name was chosen in the selector: the identifier of the first row
    with that name and its summary; both null for the placeholder entry
    and when no row has the name (the IndexError branch). *)
Definition select_hcp (selected_hcp_name_for_summary : string)
    (all_hcps_details : list HcpDetails) (df : DataFrame)
    : option Z * option Summary :=
  if negb (String.eqb selected_hcp_name_for_summary placeholder_name) then
    match filter (fun r => String.eqb (hcp_name r) selected_hcp_name_for_summary)
                 all_hcps_details with
    | r :: _ =>
        (Some (NPI r), generate_hcp_summary_data (Some (NPI r)) all_hcps_details df)
    | [] => (None, None)
    end
  else (None, None).

(** The nodes and edges handed to the renderer; when no node passes the
    filter the page shows an empty network and stops. *)
Definition displayed_network (all_hcps_details : list HcpDetails)
    (df : DataFrame) (top_n : nat)
    (selected_states selected_cities : option (list string))
    (min_connections : Z) (min_influence : Q)
    (min_papers min_panels min_trials : Z) (sort_by : SortKey)
    (min_strength max_strength : Q) : list HcpDetails * list EdgeRecord :=
  let filtered_nodes_for_display :=
    get_filtered_nodes all_hcps_details top_n selected_states selected_cities
      min_connections min_influence min_papers min_panels min_trials sort_by in
  match filtered_nodes_for_display with
  | [] => ([], [])
  | _ :: _ =>
      let filtered_node_npis := map NPI filtered_nodes_for_display in
      (filtered_nodes_for_display,
       get_filtered_edges_for_display df filtered_node_npis
                                      min_strength max_strength)
  end.

(** The most frequent label with its count and a unit, [N/A] when there
    is no label. *)
Definition most_common (labels : list string) (unit : string) : string :=
  match value_counts labels with
  | [] => "N/A"
  | (m, c) :: _ => (m ++ " (" ++ str_of_int (Z.of_nat c) ++ " " ++ unit ++ ")")%string
  end.

Definition most_common_metric (df : DataFrame)
    (filtered_edges_for_display : list EdgeRecord) : string :=
  if has_Metrics_column df then
    match dropna (map Metrics filtered_edges_for_display) with
    | [] => "N/A"
    | _ :: _ =>
        most_common (dropna (map Metrics filtered_edges_for_display)) "connections"
    end
  else "N/A".

Definition most_common_state (filtered_nodes_for_display : list HcpDetails)
    : string :=
  most_common (dropna (map state filtered_nodes_for_display)) "HCPs".

Definition most_common_city (filtered_nodes_for_display : list HcpDetails)
    : string :=
  most_common (dropna (map city filtered_nodes_for_display)) "HCPs".

(** ** 14. More example data *)

(** A record in which provider A, with influence 9, is on side 2. *)
Definition edge_ba : EdgeRecord :=
  mkEdge 2 (Some "B") 3 7%Q (Some "Austin") (Some "TX")
         1 (Some "A") 12 9%Q (Some "Boston") (Some "MA")
         (Some 3) None None (6 # 10) (Some "Affiliations").

(** The count that a line of the breakdown reports. *)
Definition line_count (l : BreakdownLine) : nat :=
  match l with
  | metric_line _ c _ => c
  | no_metrics_line => 0%nat
  end.

(** ** 15. Percentiles, stated on the column itself *)

(** The number of entries of the column that are not above [v]. *)
Definition count_at_most (v : Q) (col : list Q) : nat :=
  List.length (filter (fun y => Qle_bool y v) col).

(** [v] stands at position [k] (counted from 0) when the column is put in
    ascending order: it is an entry of the column, at most [k] entries
    are strictly below it and more than [k] entries are not above it. *)
Definition is_order_statistic (col : list Q) (k : nat) (v : Q) : Prop :=
  In v col /\
  (count_lower v col <= k)%nat /\
  (k < count_at_most v col)%nat.

(** [t] is the [q]-quantile of the column by linear interpolation: with
    [h = q * (n - 1)] the fractional position in the ascending order of
    the [n] entries, [t] is the entry at position [floor h] plus the
    fraction [h - floor h] of the step to the next entry (the last entry
    has no next one and stands for it). *)
Definition is_percentile (q : Q) (col : list Q) (t : Q) : Prop :=
  let n := List.length col in
  let h := (q * (Q_of_nat n - 1))%Q in
  let lo := Z.to_nat (Qfloor h) in
  let hi := Nat.min (lo + 1) (n - 1) in
  exists a b,
    is_order_statistic col lo a /\
    is_order_statistic col hi b /\
    (t == a + (b - a) * (h - Q_of_nat lo))%Q.

(** [x] meets or exceeds the [q]-quantile of the column. *)
Definition meets_percentile (q : Q) (col : list Q) (x : Q) : Prop :=
  exists t, is_percentile q col t /\ (t <= x)%Q.

(** * Properties *)

(** ** Node aggregator *)

Lemma insert_key_In (k x : Z) (ks : list Z) :
  In x (insert_key k ks) <-> x = k \/ In x ks.
Proof.
  induction ks as [|k' r IH]; simpl.
  - intuition.
  - destruct (k <? k') eqn:Hlt; [simpl; intuition|].
    destruct (k =? k') eqn:Heq.
    + apply Z.eqb_eq in Heq; subst k'. simpl; intuition.
    + simpl. rewrite IH. intuition.
Qed.

Lemma insert_key_sorted (k : Z) (ks : list Z) :
  StronglySorted Z.lt ks -> StronglySorted Z.lt (insert_key k ks).
Proof.
  induction ks as [|k' r IH]; simpl; intros Hs.
  - repeat constructor.
  - inversion Hs as [|? ? Hr Hall]; subst.
    destruct (k <? k') eqn:Hlt.
    + apply Z.ltb_lt in Hlt. constructor; [assumption|].
      constructor; [assumption|].
      eapply Forall_impl; [|exact Hall]. intros; lia.
    + destruct (k =? k') eqn:Heq; [assumption|].
      apply Z.ltb_ge in Hlt. apply Z.eqb_neq in Heq.
      constructor; [auto|].
      apply Forall_forall. intros x Hx.
      apply insert_key_In in Hx. destruct Hx as [->|Hx]; [lia|].
      rewrite Forall_forall in Hall. auto.
Qed.

Lemma group_keys_In (k : Z) (obs : list SideView) :
  In k (group_keys obs) <-> In k (map sv_NPI obs).
Proof.
  induction obs as [|o r IH]; simpl; [tauto|].
  rewrite insert_key_In, IH. intuition.
Qed.

Lemma group_keys_sorted (obs : list SideView) :
  StronglySorted Z.lt (group_keys obs).
Proof.
  induction obs; simpl; [constructor | now apply insert_key_sorted].
Qed.

Lemma lt_sorted_NoDup (l : list Z) : StronglySorted Z.lt l -> NoDup l.
Proof.
  induction 1 as [|x l Hs IH Hall]; constructor; auto.
  intros Hin. rewrite Forall_forall in Hall. specialize (Hall _ Hin). lia.
Qed.

Lemma details_keys (df : DataFrame) :
  map NPI (get_all_hcps_details df) = group_keys (concat_sides df).
Proof.
  unfold get_all_hcps_details. rewrite map_map. simpl. apply map_id.
Qed.

Lemma concat_sides_ids (k : Z) (df : DataFrame) :
  In k (map sv_NPI (concat_sides df)) <->
  exists e, In e (rows df) /\ (NPI_1 e = k \/ NPI_2 e = k).
Proof.
  unfold concat_sides. rewrite map_app, in_app_iff, !map_map. simpl.
  rewrite !in_map_iff. split.
  - intros [[e [He Hin]]|[e [He Hin]]]; exists e; auto.
  - intros [e [Hin [He|He]]]; [left|right]; exists e; auto.
Qed.

Lemma agg_first_spec {A : Type} (l : list (option A)) :
  is_first_non_missing l (agg_first l).
Proof.
  unfold agg_first.
  induction l as [|[a|] r IH]; simpl.
  - constructor.
  - exists [], r. split; [reflexivity | constructor].
  - destruct (dropna r) as [|a d]; simpl in *.
    + constructor; auto.
    + destruct IH as (b & c & -> & Hb).
      exists (None :: b), c. split; [reflexivity | constructor; auto].
Qed.

Lemma fold_max_spec (r : list Z) (x : Z) :
  is_maximum (x :: r) (fold_left Z.max r x).
Proof.
  revert x. induction r as [|y r IH]; intros x; simpl.
  - split; [now left | repeat constructor; lia].
  - destruct (IH (Z.max x y)) as [Hin Hall]. split.
    + destruct Hin as [Hin|Hin]; [|now right; right].
      rewrite <- Hin.
      destruct (Z.max_spec x y) as [[_ ->]|[_ ->]]; [right; left|left]; reflexivity.
    + inversion Hall as [|? ? Hm Hr]; subst.
      constructor; [lia|]. constructor; [lia | assumption].
Qed.

Lemma agg_max_spec (l : list Z) : l <> [] -> is_maximum l (agg_max l).
Proof.
  destruct l as [|x r]; [congruence | intros _; apply fold_max_spec].
Qed.

Lemma group_of_nonempty (k : Z) (obs : list SideView) :
  In k (map sv_NPI obs) -> exists o rest, group_of k obs = o :: rest.
Proof.
  intros Hin. apply in_map_iff in Hin. destruct Hin as [o [Hk Ho]].
  assert (Hg : In o (group_of k obs)).
  { apply filter_In. split; [assumption | now apply Z.eqb_eq]. }
  destruct (group_of k obs) as [|o' rest]; [contradiction | eauto].
Qed.

Lemma filter_map_side {B : Type} (f : SideView -> B) (k : Z)
    (side : EdgeRecord -> SideView) (key : EdgeRecord -> Z)
    (l : list EdgeRecord) :
  (forall e, sv_NPI (side e) = key e) ->
  map f (filter (fun o => sv_NPI o =? k) (map side l)) =
  map (fun e => f (side e)) (filter (fun e => key e =? k) l).
Proof.
  intros Hkey. induction l as [|e l IH]; simpl; [reflexivity|].
  rewrite Hkey. destruct (key e =? k); simpl; now rewrite IH.
Qed.

(** A column of the group of [k] holds what the records report for [k]. *)
Lemma group_reported {B : Type} (f : SideView -> B) (k : Z) (df : DataFrame) :
  map f (group_of k (concat_sides df)) =
  reported k df (fun e => f (hcp1_renamed e)) (fun e => f (hcp2_renamed e)).
Proof.
  unfold group_of, concat_sides, reported.
  rewrite filter_app, map_app. f_equal; now apply filter_map_side.
Qed.

(** C1.  The node aggregator returns exactly one row per distinct provider
    identifier that appears on either side of an edge record (no
    duplicate, no omission, nothing else; the rows come in ascending
    order of the identifier).  The row of an identifier is read from the
    cells of the records: for each column, the side-1 cells of the
    records that have the identifier on side 1, in record order, followed
    by the side-2 cells of the records that have it on side 2.  The name
    is the first name that is not missing, or N/A when all are missing;
    connections is the maximum; influence is the first score; city and
    state are the first ones that are not missing; papers, panels and
    trials are the maximum with a missing value counted as 0. *)
Theorem get_all_hcps_details_one_row_per_id (df : DataFrame) :
  let nodes := get_all_hcps_details df in
  NoDup (map NPI nodes) /\
  StronglySorted Z.lt (map NPI nodes) /\
  (forall k : Z,
      In k (map NPI nodes) <->
      exists e, In e (rows df) /\ (NPI_1 e = k \/ NPI_2 e = k)) /\
  (forall row : HcpDetails,
      In row nodes ->
      let k := NPI row in
      (exists name,
          is_first_non_missing (reported k df HCP_1 HCP_2) name /\
          hcp_name row = match name with Some n => n | None => "N/A" end) /\
      is_maximum (reported k df Connections_HCP_1 Connections_HCP_2)
                 (connections row) /\
      (exists first others,
          reported k df Influence_score_1 Influence_score_2 = first :: others /\
          influence row = first) /\
      is_first_non_missing (reported k df City1 City2) (city row) /\
      is_first_non_missing (reported k df State1 State2) (state row) /\
      is_maximum (missing_as_zero (reported k df Papers Papers)) (papers row) /\
      is_maximum (missing_as_zero (reported k df Panels Panels)) (panels row) /\
      is_maximum (missing_as_zero (reported k df Trials Trials)) (trials row)).
Proof.
  intros nodes. subst nodes.
  pose proof (group_keys_sorted (concat_sides df)) as Hsorted.
  rewrite details_keys.
  split; [now apply lt_sorted_NoDup|].
  split; [assumption|].
  split.
  { intros k. rewrite group_keys_In. apply concat_sides_ids. }
  intros row Hrow.
  unfold get_all_hcps_details in Hrow. simpl in Hrow.
  apply in_map_iff in Hrow. destruct Hrow as [k [<- Hk]].
  apply group_keys_In in Hk.
  destruct (group_of_nonempty _ _ Hk) as (o & rest & Hg).
  cbn [NPI aggregate hcp_name connections influence city state papers panels trials].
  cbv zeta.
  set (g := group_of k (concat_sides df)) in *.
  assert (Hname : reported k df HCP_1 HCP_2 = map sv_hcp_name g)
    by (symmetry; apply (group_reported sv_hcp_name)).
  assert (Hconn : reported k df Connections_HCP_1 Connections_HCP_2
                  = map sv_connections g)
    by (symmetry; apply (group_reported sv_connections)).
  assert (Hinfl : reported k df Influence_score_1 Influence_score_2
                  = map sv_influence g)
    by (symmetry; apply (group_reported sv_influence)).
  assert (Hcity : reported k df City1 City2 = map sv_city g)
    by (symmetry; apply (group_reported sv_city)).
  assert (Hstate : reported k df State1 State2 = map sv_state g)
    by (symmetry; apply (group_reported sv_state)).
  assert (Hpapers : reported k df Papers Papers = map sv_papers g)
    by (symmetry; apply (group_reported sv_papers)).
  assert (Hpanels : reported k df Panels Panels = map sv_panels g)
    by (symmetry; apply (group_reported sv_panels)).
  assert (Htrials : reported k df Trials Trials = map sv_trials g)
    by (symmetry; apply (group_reported sv_trials)).
  change missing_as_zero with fillna0.
  rewrite Hname, Hconn, Hinfl, Hcity, Hstate, Hpapers, Hpanels, Htrials.
  assert (Hne : forall (B : Type) (f : SideView -> B), map f g <> []).
  { intros B f. rewrite Hg. discriminate. }
  assert (Hfill : forall f : SideView -> option Z, fillna0 (map f g) <> []).
  { intros f. unfold fillna0. rewrite Hg. discriminate. }
  split.
  { exists (agg_first (map sv_hcp_name g)).
    split; [apply agg_first_spec|].
    unfold agg_first. now destruct (dropna _). }
  split; [apply agg_max_spec, Hne|].
  split; [exists (sv_influence o), (map sv_influence rest); now rewrite Hg|].
  split; [apply agg_first_spec|].
  split; [apply agg_first_spec|].
  split; [apply agg_max_spec, Hfill|].
  split; apply agg_max_spec, Hfill.
Qed.

(** In the example, provider B is only ever on side 2 and provider A is
    reported with 10 and then 15 connections: the row of B carries its
    side-2 name, influence and connections, the row of A the maximum. *)
Lemma get_all_hcps_details_scenario :
  (exists row,
      In row (get_all_hcps_details scenario_df) /\ NPI row = 2 /\
      hcp_name row = "B" /\ influence row = 7%Q /\ connections row = 3) /\
  (exists row,
      In row (get_all_hcps_details scenario_df) /\ NPI row = 1 /\
      connections row = 15).
Proof.
  destruct (get_all_hcps_details_one_row_per_id scenario_df)
    as (_ & _ & Hids & Hrows).
  assert (Hcell : forall l m, is_maximum l m -> forall b, Forall (fun x => x <= b) l ->
                    In b l -> m = b).
  { intros l m [Hin Hall] b Hb Hbin. rewrite Forall_forall in Hall, Hb.
    specialize (Hall b Hbin). specialize (Hb m Hin). lia. }
  split.
  - assert (Hin : In 2 (map NPI (get_all_hcps_details scenario_df))).
    { apply Hids. exists edge_ab. split; [now left | now right]. }
    apply in_map_iff in Hin. destruct Hin as [row [Hk Hrow]].
    destruct (Hrows row Hrow) as (Hname & Hconn & Hinfl & _).
    rewrite Hk in Hname, Hconn, Hinfl.
    exists row. split; [assumption|]. split; [assumption|]. split; [|split].
    + destruct Hname as [[n|] [Hfirst ->]].
      * destruct Hfirst as (before & after & Heq & Hbefore).
        cbv in Heq. destruct before as [|b before'].
        -- now inversion Heq.
        -- inversion Heq as [[Hb Hrest]]. destruct before'; discriminate Hrest.
      * cbv in Hfirst. inversion Hfirst as [|? ? Hx _]. discriminate Hx.
    + destruct Hinfl as (first & others & Heq & ->).
      cbv in Heq. now inversion Heq.
    + apply (Hcell _ _ Hconn); cbv; [repeat constructor; discriminate | auto].
  - assert (Hin : In 1 (map NPI (get_all_hcps_details scenario_df))).
    { apply Hids. exists edge_ab. split; [now left | now left]. }
    apply in_map_iff in Hin. destruct Hin as [row [Hk Hrow]].
    destruct (Hrows row Hrow) as (_ & Hconn & _).
    rewrite Hk in Hconn.
    exists row. split; [assumption|]. split; [assumption|].
    apply (Hcell _ _ Hconn); cbv; [repeat constructor; discriminate | auto].
Defined.

(** ** Sorting *)

Section SortDescFacts.
Context {A : Type} (key : A -> Q).

Lemma insert_desc_perm (x : A) (l : list A) :
  Permutation (insert_desc key x l) (x :: l).
Proof.
  induction l as [|y r IH]; simpl; [reflexivity|].
  destruct (Qle_bool (key y) (key x)); [reflexivity|].
  rewrite IH. apply perm_swap.
Qed.

Lemma sort_desc_perm (l : list A) : Permutation (sort_desc key l) l.
Proof.
  induction l as [|x r IH]; simpl; [reflexivity|].
  rewrite insert_desc_perm. now constructor.
Qed.

Lemma sort_desc_In (x : A) (l : list A) : In x (sort_desc key l) <-> In x l.
Proof.
  split; apply Permutation_in;
    [apply sort_desc_perm | apply Permutation_sym, sort_desc_perm].
Qed.

Lemma sort_desc_length (l : list A) :
  List.length (sort_desc key l) = List.length l.
Proof. apply Permutation_length, sort_desc_perm. Qed.

Lemma insert_desc_sorted (x : A) (l : list A) :
  descending key l -> descending key (insert_desc key x l).
Proof.
  unfold descending.
  induction l as [|y r IH]; simpl; intros Hs.
  - repeat constructor.
  - inversion Hs as [|? ? Hr Hall]; subst.
    destruct (Qle_bool (key y) (key x)) eqn:Hle.
    + apply Qle_bool_iff in Hle.
      constructor; [assumption|]. constructor; [assumption|].
      eapply Forall_impl; [|exact Hall].
      intros a Ha. simpl in Ha. now apply Qle_trans with (key y).
    + assert (Hlt : (key x < key y)%Q).
      { apply Qnot_le_lt. intros H. apply Qle_bool_iff in H. congruence. }
      constructor; [auto|].
      apply Forall_forall. intros a Ha.
      apply (Permutation_in _ (insert_desc_perm x r)) in Ha.
      destruct Ha as [<-|Ha]; [now apply Qlt_le_weak|].
      rewrite Forall_forall in Hall. auto.
Qed.

Lemma sort_desc_sorted (l : list A) : descending key (sort_desc key l).
Proof.
  induction l; simpl; [constructor | now apply insert_desc_sorted].
Qed.
End SortDescFacts.

(** ** Node filter *)

Lemma firstn_In_inv {A : Type} (n : nat) (l : list A) (x : A) :
  In x (firstn n l) -> In x l.
Proof.
  intros H. rewrite <- (firstn_skipn n l). apply in_or_app. now left.
Qed.

Lemma isin_Z_In (v : Z) (values : list Z) :
  isin_Z v values = true <-> In v values.
Proof.
  unfold isin_Z. rewrite existsb_exists. split.
  - intros [x [Hin Heq]]. apply Z.eqb_eq in Heq. now subst.
  - intros Hin. exists v. split; [assumption | apply Z.eqb_refl].
Qed.

Lemma isin_str_In (v : option string) (values : list string) :
  isin_str v values = true <-> exists s, v = Some s /\ In s values.
Proof.
  destruct v as [s|]; simpl.
  - rewrite existsb_exists. split.
    + intros [x [Hin Heq]]. apply String.eqb_eq in Heq. subst. eauto.
    + intros [x [[= <-] Hin]]. exists s. split; [assumption | apply String.eqb_refl].
  - split; [discriminate | intros [s [[=] _]]].
Qed.

Lemma thresholds_mask_iff mc mi mp mpa mt (r : HcpDetails) :
  thresholds_mask mc mi mp mpa mt r = true <->
  mc <= connections r /\ (mi <= influence r)%Q /\
  mp <= papers r /\ mpa <= panels r /\ mt <= trials r.
Proof.
  unfold thresholds_mask.
  rewrite !andb_true_iff, !Z.leb_le, Qle_bool_iff. tauto.
Qed.

Lemma surviving_rows_iff nodes ss sc mc mi mp mpa mt (r : HcpDetails) :
  In r (surviving_rows nodes ss sc mc mi mp mpa mt) <->
  In r nodes /\ meets_criteria ss sc mc mi mp mpa mt r.
Proof.
  unfold surviving_rows, meets_criteria.
  rewrite filter_In, thresholds_mask_iff.
  destruct (truthy ss) eqn:Hs; destruct (truthy sc) eqn:Hc;
    rewrite ?filter_In, ?isin_str_In; intuition congruence.
Qed.

(** C6.  The node filter returns at most min(top_n, number of surviving
    rows) rows (in fact exactly that many); a row survives exactly when it
    is a row of the table that meets all the criteria, and every returned
    row is such a row; when no row survives, and in particular when the
    table is empty, the result is the empty table. *)
Theorem get_filtered_nodes_bounded_and_sound
    (nodes : list HcpDetails) (top_n : nat)
    (selected_states selected_cities : option (list string))
    (min_connections : Z) (min_influence : Q)
    (min_papers min_panels min_trials : Z) (sort_by : SortKey) :
  let result :=
    get_filtered_nodes nodes top_n selected_states selected_cities
      min_connections min_influence min_papers min_panels min_trials sort_by in
  let surviving :=
    surviving_rows nodes selected_states selected_cities
      min_connections min_influence min_papers min_panels min_trials in
  (forall r, In r surviving <->
             In r nodes /\
             meets_criteria selected_states selected_cities min_connections
               min_influence min_papers min_panels min_trials r) /\
  (List.length result <= Nat.min top_n (List.length surviving))%nat /\
  List.length result = Nat.min top_n (List.length surviving) /\
  (forall r, In r result ->
             In r nodes /\
             meets_criteria selected_states selected_cities min_connections
               min_influence min_papers min_panels min_trials r) /\
  (surviving = [] -> result = []) /\
  (nodes = [] -> result = []).
Proof.
  intros result surviving.
  assert (Hlen : List.length result = Nat.min top_n (List.length surviving)).
  { subst result. unfold get_filtered_nodes. fold surviving.
    destruct surviving as [|x l] eqn:Hs.
    - simpl. now rewrite Nat.min_0_r.
    - unfold nlargest. rewrite length_firstn, sort_desc_length. lia. }
  split; [intros r; apply surviving_rows_iff|].
  split; [lia|]. split; [assumption|].
  split; [|split].
  - intros r Hr. apply surviving_rows_iff. fold surviving.
    subst result. unfold get_filtered_nodes in Hr. fold surviving in Hr.
    destruct surviving as [|x l] eqn:Hs; [contradiction|].
    unfold nlargest in Hr. apply firstn_In_inv in Hr.
    now apply sort_desc_In in Hr.
  - intros Hs. subst result. unfold get_filtered_nodes. fold surviving.
    now rewrite Hs.
  - intros Hn. subst result surviving. unfold get_filtered_nodes, surviving_rows.
    rewrite Hn. simpl. now destruct (truthy selected_states), (truthy selected_cities).
Qed.

(** ** Edge selector *)

Lemma edge_mask_iff (npis : list Z) (lo hi : Q) (e : EdgeRecord) :
  edge_mask npis lo hi e = true <-> edge_selected npis lo hi e.
Proof.
  unfold edge_mask, edge_selected.
  rewrite !andb_true_iff, !isin_Z_In, !Qle_bool_iff. tauto.
Qed.

(** C7.  The edge selector returns exactly the edge records whose two
    identifiers are both in the given identifier list and whose strength
    lies in the inclusive range: a record is returned if and only if it
    is such a record of the edge store, the records keep their order and
    multiplicity, and an empty identifier list gives the empty result. *)
Theorem get_filtered_edges_for_display_exact
    (original_df : DataFrame) (filtered_node_npis : list Z)
    (min_strength max_strength : Q) :
  let result :=
    get_filtered_edges_for_display original_df filtered_node_npis
      min_strength max_strength in
  (forall e, In e result <->
             In e (rows original_df) /\
             edge_selected filtered_node_npis min_strength max_strength e) /\
  (exists keep : EdgeRecord -> bool,
      result = filter keep (rows original_df) /\
      forall e, keep e = true <->
                edge_selected filtered_node_npis min_strength max_strength e) /\
  (filtered_node_npis = [] -> result = []).
Proof.
  intros result. subst result. unfold get_filtered_edges_for_display.
  destruct filtered_node_npis as [|k ks] eqn:Hk.
  - split; [|split].
    + intros e. simpl. unfold edge_selected. simpl. tauto.
    + exists (fun _ => false). split.
      * induction (rows original_df); simpl; auto.
      * intros e. unfold edge_selected. simpl. intuition discriminate.
    + reflexivity.
  - split; [|split].
    + intros e. rewrite filter_In, edge_mask_iff. tauto.
    + exists (edge_mask (k :: ks) min_strength max_strength).
      split; [reflexivity | intros e; apply edge_mask_iff].
    + discriminate.
Qed.

(** ** Provider summary generator: lookup of the target *)

Lemma filter_first_match (npi : Z) (nodes : list HcpDetails) :
  In npi (map NPI nodes) ->
  exists pre row post,
    nodes = pre ++ row :: post /\ NPI row = npi /\ ~ In npi (map NPI pre) /\
    exists others, filter (fun r => NPI r =? npi) nodes = row :: others.
Proof.
  induction nodes as [|r l IH]; simpl; [contradiction|].
  intros Hin. destruct (NPI r =? npi) eqn:Heq.
  - apply Z.eqb_eq in Heq. exists [], r, l. simpl. eauto 6.
  - apply Z.eqb_neq in Heq. destruct Hin as [Hin|Hin]; [contradiction|].
    destruct (IH Hin) as (pre & row & post & -> & Hrow & Hpre & others & Hf).
    exists (r :: pre), row, post. simpl.
    repeat split; auto; [intuition | eauto].
Qed.

Lemma filter_no_match (npi : Z) (nodes : list HcpDetails) :
  ~ In npi (map NPI nodes) -> filter (fun r => NPI r =? npi) nodes = [].
Proof.
  induction nodes as [|r l IH]; simpl; [reflexivity|].
  intros Hn. destruct (NPI r =? npi) eqn:Heq.
  - apply Z.eqb_eq in Heq. tauto.
  - apply IH. tauto.
Qed.

Lemma filter_split_first (npi : Z) (pre post : list HcpDetails) (row : HcpDetails) :
  ~ In (NPI row) (map NPI pre) -> npi = NPI row ->
  filter (fun r => NPI r =? npi) (pre ++ row :: post) =
  row :: filter (fun r => NPI r =? npi) post.
Proof.
  intros Hpre ->. rewrite filter_app, (filter_no_match _ _ Hpre). simpl.
  now rewrite Z.eqb_refl.
Qed.

Lemma lookup_split_first (pre post : list HcpDetails) (row : HcpDetails) :
  ~ In (NPI row) (map NPI pre) ->
  lookup_hcp (NPI row) (pre ++ row :: post) = Some row.
Proof.
  unfold lookup_hcp. induction pre as [|r l IH]; simpl; intros Hn.
  - now rewrite Z.eqb_refl.
  - destruct (NPI r =? NPI row) eqn:Heq.
    + apply Z.eqb_eq in Heq. tauto.
    + apply IH. tauto.
Qed.

(** The summary of a provider that is in the table is the summary of its
    first row. *)
Lemma generate_present (pre post : list HcpDetails) (row : HcpDetails)
    (df : DataFrame) :
  ~ In (NPI row) (map NPI pre) ->
  generate_hcp_summary_data (Some (NPI row)) (pre ++ row :: post) df =
  Some (summary_of (NPI row) row (pre ++ row :: post) df).
Proof.
  intros Hpre. unfold generate_hcp_summary_data.
  rewrite (filter_split_first (NPI row) pre post row Hpre eq_refl).
  now destruct pre.
Qed.

(** C8.  The summary generator returns the null result when the selected
    identifier is null, when the node table is empty, and when the
    identifier is not in the node table.  (The model has no exceptional
    outcome on these paths: every operation before the early returns is
    total.) *)
Theorem generate_hcp_summary_data_null
    (nodes : list HcpDetails) (df : DataFrame) :
  generate_hcp_summary_data None nodes df = None /\
  (forall selected, generate_hcp_summary_data selected [] df = None) /\
  (forall npi, ~ In npi (map NPI nodes) ->
               generate_hcp_summary_data (Some npi) nodes df = None) /\
  (forall npi, In npi (map NPI nodes) ->
               generate_hcp_summary_data (Some npi) nodes df <> None).
Proof.
  repeat split.
  - now intros [npi|].
  - intros npi Hn. unfold generate_hcp_summary_data.
    destruct nodes; [reflexivity|]. now rewrite (filter_no_match _ _ Hn).
  - intros npi Hin.
    destruct (filter_first_match _ _ Hin) as (pre & row & post & -> & <- & Hpre & _).
    now rewrite generate_present.
Qed.

(** ** KOL status *)

(** The quantile is an interpolation between two values of the column. *)

Lemma insert_asc_perm (x : Q) (l : list Q) : Permutation (insert_asc x l) (x :: l).
Proof.
  induction l as [|y r IH]; simpl; [reflexivity|].
  destruct (Qle_bool x y); [reflexivity|].
  rewrite IH. apply perm_swap.
Qed.

Lemma sort_asc_perm (l : list Q) : Permutation (sort_asc l) l.
Proof.
  induction l as [|x r IH]; simpl; [reflexivity|].
  rewrite insert_asc_perm. now constructor.
Qed.

Lemma insert_asc_sorted (x : Q) (l : list Q) :
  StronglySorted Qle l -> StronglySorted Qle (insert_asc x l).
Proof.
  induction l as [|y r IH]; simpl; intros Hs.
  - repeat constructor.
  - inversion Hs as [|? ? Hr Hall]; subst.
    destruct (Qle_bool x y) eqn:Hle.
    + apply Qle_bool_iff in Hle.
      constructor; [assumption|]. constructor; [assumption|].
      eapply Forall_impl; [|exact Hall].
      intros a Ha. now apply Qle_trans with y.
    + assert (Hlt : (y < x)%Q).
      { apply Qnot_le_lt. intros H. apply Qle_bool_iff in H. congruence. }
      constructor; [auto|].
      apply Forall_forall. intros a Ha.
      apply (Permutation_in _ (insert_asc_perm x r)) in Ha.
      destruct Ha as [<-|Ha]; [now apply Qlt_le_weak|].
      rewrite Forall_forall in Hall. auto.
Qed.

Lemma sort_asc_sorted (l : list Q) : StronglySorted Qle (sort_asc l).
Proof.
  induction l; simpl; [constructor | now apply insert_asc_sorted].
Qed.

Lemma sorted_nth_le (s : list Q) (d : Q) (i j : nat) :
  StronglySorted Qle s -> (i <= j)%nat -> (j < List.length s)%nat ->
  (nth i s d <= nth j s d)%Q.
Proof.
  intros Hs. revert i j. induction Hs as [|x s Hs IH Hall]; intros i j Hij Hj.
  - simpl in Hj. lia.
  - destruct i as [|i], j as [|j]; simpl in *.
    + apply Qle_refl.
    + rewrite Forall_forall in Hall. apply Hall. apply nth_In. lia.
    + lia.
    + apply IH; lia.
Qed.

Lemma quantile_between (q : Q) (col : list Q) :
  (0 <= q)%Q -> (q <= 1)%Q -> col <> [] ->
  exists t a b,
    quantile q col = Some t /\ In a col /\ In b col /\ (a <= t)%Q /\ (t <= b)%Q.
Proof.
  intros Hq0 Hq1 Hne. unfold quantile.
  pose proof (sort_asc_perm col) as Hperm.
  pose proof (sort_asc_sorted col) as Hsorted.
  destruct (sort_asc col) as [|x0 s'] eqn:Hs.
  - apply Permutation_nil in Hperm. contradiction.
  - set (s := x0 :: s') in *.
    set (n := List.length s).
    assert (Hn : (1 <= n)%nat) by (unfold n, s; simpl; lia).
    set (position := (q * (Q_of_nat n - 1))%Q).
    assert (Hn1 : (0 <= Q_of_nat n - 1)%Q).
    { unfold Q_of_nat. assert (H : (1 <= inject_Z (Z.of_nat n))%Q).
      { change 1%Q with (inject_Z 1). rewrite <- Zle_Qle. lia. }
      lra. }
    assert (Hp0 : (0 <= position)%Q) by (unfold position; nra).
    assert (Hp1 : (position <= Q_of_nat n - 1)%Q) by (unfold position; nra).
    assert (Hf0 : 0 <= Qfloor position).
    { change 0 with (Qfloor 0). now apply Qfloor_resp_le. }
    assert (Hf1 : Qfloor position <= Z.of_nat n - 1).
    { rewrite <- (Qfloor_Z (Z.of_nat n - 1)). apply Qfloor_resp_le.
      unfold Z.sub. rewrite inject_Z_plus, inject_Z_opp.
      change (inject_Z 1) with 1%Q. exact Hp1. }
    set (below := Z.to_nat (Qfloor position)).
    set (above := Nat.min (below + 1) (n - 1)).
    assert (Hb : (below <= n - 1)%nat) by (unfold below; lia).
    assert (Hba : (below <= above)%nat) by (unfold above; lia).
    assert (Ha : (above < n)%nat) by (unfold above; lia).
    assert (Hbelow : Q_of_nat below = inject_Z (Qfloor position)).
    { unfold Q_of_nat, below. now rewrite Z2Nat.id. }
    set (gamma := (position - Q_of_nat below)%Q).
    assert (Hg0 : (0 <= gamma)%Q).
    { unfold gamma. rewrite Hbelow. pose proof (Qfloor_le position). lra. }
    assert (Hg1 : (gamma <= 1)%Q).
    { unfold gamma. rewrite Hbelow. pose proof (Qlt_floor position) as H.
      rewrite inject_Z_plus in H. change (inject_Z 1) with 1%Q in H. lra. }
    pose proof (sorted_nth_le s x0 below above Hsorted Hba Ha) as Hab.
    exists (nth below s x0 + (nth above s x0 - nth below s x0) * gamma)%Q,
           (nth below s x0), (nth above s x0).
    split; [reflexivity|].
    split; [apply (Permutation_in _ Hperm), nth_In; fold n; lia|].
    split; [apply (Permutation_in _ Hperm), nth_In; fold n; lia|].
    split; nra.
Qed.


Lemma at_least_iff (x : Q) (threshold : option Q) :
  at_least x threshold = true <-> exists t, threshold = Some t /\ (t <= x)%Q.
Proof.
  destruct threshold as [t|]; simpl.
  - rewrite Qle_bool_iff. split; [eauto|]. now intros [t' [[= <-] H]].
  - split; [discriminate | intros [t [[=] _]]].
Qed.

Lemma is_kol_iff (row : HcpDetails) (nodes : list HcpDetails) :
  is_kol row nodes = true <->
  at_or_above_p90 (map influence nodes) (influence row) /\
  at_or_above_p90 (map (fun r => inject_Z (connections r)) nodes)
                  (inject_Z (connections row)) /\
  at_or_above_p90 (map (fun r => inject_Z (activity r)) nodes)
                  (inject_Z (activity row)).
Proof.
  unfold is_kol, at_or_above_p90, kol_thresholds, activity. simpl.
  rewrite !andb_true_iff, !at_least_iff. tauto.
Qed.

(** ** The 90th percentile, on the column itself *)

Lemma filter_none {A : Type} (p : A -> bool) (l : list A) :
  (forall x, In x l -> p x = false) -> filter p l = [].
Proof.
  induction l as [|x l IH]; simpl; intros H; [reflexivity|].
  rewrite (H x) by now left. apply IH. intros y Hy. apply H. now right.
Qed.

Lemma filter_length_perm {A : Type} (p : A -> bool) (l l' : list A) :
  Permutation l l' -> List.length (filter p l) = List.length (filter p l').
Proof.
  induction 1 as [|x l l' _ IH|x y l|l l' l'' _ IH1 _ IH2]; simpl.
  - reflexivity.
  - destruct (p x); simpl; now rewrite IH.
  - destruct (p x), (p y); reflexivity.
  - now rewrite IH1.
Qed.

Lemma filter_length_implies {A : Type} (p p' : A -> bool) (l : list A) :
  (forall x, p x = true -> p' x = true) ->
  (List.length (filter p l) <= List.length (filter p' l))%nat.
Proof.
  intros H. induction l as [|x l IH]; simpl; [lia|].
  destruct (p x) eqn:Hp.
  - rewrite (H x Hp). simpl. lia.
  - destruct (p' x); simpl; lia.
Qed.

(** In an ascending list the entry at position [k] has at most [k]
    entries strictly below it and more than [k] entries not above it. *)
Lemma sorted_position (s : list Q) (d : Q) (k : nat) :
  StronglySorted Qle s -> (k < List.length s)%nat ->
  (count_lower (nth k s d) s <= k)%nat /\
  (k < count_at_most (nth k s d) s)%nat.
Proof.
  intros Hs. revert k. induction Hs as [|x s Hs IH Hall]; intros k Hk.
  - simpl in Hk. lia.
  - rewrite Forall_forall in Hall.
    unfold count_lower, count_at_most, Qlt_bool in *.
    destruct k as [|k]; cbn [nth filter].
    + assert (Hxx : Qle_bool x x = true) by (apply Qle_bool_iff, Qle_refl).
      rewrite Hxx. cbn [negb List.length]. split; [|lia].
      rewrite filter_none; [simpl; lia|].
      intros y Hy. apply negb_false_iff, Qle_bool_iff. now apply Hall.
    + assert (Hk' : (k < List.length s)%nat) by (simpl in Hk; lia).
      destruct (IH k Hk') as [IH1 IH2].
      assert (Hx : Qle_bool x (nth k s d) = true).
      { apply Qle_bool_iff, Hall, nth_In, Hk'. }
      rewrite Hx. cbn [List.length].
      destruct (negb (Qle_bool (nth k s d) x)); cbn [List.length]; lia.
Qed.

Lemma order_statistic_of_sorted (col : list Q) (d : Q) (k : nat) :
  (k < List.length col)%nat ->
  is_order_statistic col k (nth k (sort_asc col) d).
Proof.
  intros Hk.
  pose proof (sort_asc_perm col) as Hperm.
  pose proof (sort_asc_sorted col) as Hsorted.
  assert (Hk' : (k < List.length (sort_asc col))%nat)
    by now rewrite (Permutation_length Hperm).
  destruct (sorted_position _ d k Hsorted Hk') as [H1 H2].
  unfold is_order_statistic. split; [|split].
  - apply (Permutation_in _ Hperm), nth_In, Hk'.
  - unfold count_lower in *.
    now rewrite <- (filter_length_perm _ _ _ Hperm).
  - unfold count_at_most in *.
    now rewrite <- (filter_length_perm _ _ _ Hperm).
Qed.

Lemma order_statistic_unique (col : list Q) (k : nat) (v v' : Q) :
  is_order_statistic col k v -> is_order_statistic col k v' -> (v == v')%Q.
Proof.
  assert (Hlt : forall a b, is_order_statistic col k a ->
                  is_order_statistic col k b -> ~ (a < b)%Q).
  { intros a b (_ & _ & Ha) (_ & Hb & _) Hab.
    assert (Hle : (count_at_most a col <= count_lower b col)%nat).
    { unfold count_at_most, count_lower. apply filter_length_implies.
      intros y Hy. apply Qle_bool_iff in Hy. unfold Qlt_bool.
      apply negb_true_iff. destruct (Qle_bool b y) eqn:Hby; [|reflexivity].
      apply Qle_bool_iff in Hby. exfalso.
      apply (Qlt_not_le _ _ Hab). now apply Qle_trans with y. }
    lia. }
  intros Hv Hv'.
  destruct (Q_dec v v') as [[H|H]|H]; [| |assumption].
  - exfalso. now apply (Hlt v v').
  - exfalso. now apply (Hlt v' v).
Qed.

Lemma percentile_unique (q : Q) (col : list Q) (t t' : Q) :
  is_percentile q col t -> is_percentile q col t' -> (t == t')%Q.
Proof.
  unfold is_percentile. cbv zeta.
  intros (a & b & Ha & Hb & Ht) (a' & b' & Ha' & Hb' & Ht').
  rewrite Ht, Ht'.
  rewrite (order_statistic_unique _ _ _ _ Ha Ha').
  rewrite (order_statistic_unique _ _ _ _ Hb Hb').
  reflexivity.
Qed.

Lemma quantile_is_percentile (q : Q) (col : list Q) :
  (0 <= q)%Q -> (q <= 1)%Q -> col <> [] ->
  exists t, quantile q col = Some t /\ is_percentile q col t.
Proof.
  intros Hq0 Hq1 Hne. unfold quantile.
  pose proof (sort_asc_perm col) as Hperm.
  pose proof (Permutation_length Hperm) as Hlen.
  destruct (sort_asc col) as [|x0 s'] eqn:Hs.
  - apply Permutation_nil in Hperm. contradiction.
  - rewrite <- Hs in *. rewrite Hlen.
    set (n := List.length col) in *.
    assert (Hn : (1 <= n)%nat).
    { unfold n. destruct col; [congruence | simpl; lia]. }
    set (h := (q * (Q_of_nat n - 1))%Q).
    assert (Hn1 : (0 <= Q_of_nat n - 1)%Q).
    { unfold Q_of_nat. assert (H : (1 <= inject_Z (Z.of_nat n))%Q).
      { change 1%Q with (inject_Z 1). rewrite <- Zle_Qle. lia. }
      lra. }
    assert (Hp0 : (0 <= h)%Q) by (unfold h; nra).
    assert (Hp1 : (h <= Q_of_nat n - 1)%Q) by (unfold h; nra).
    assert (Hf0 : 0 <= Qfloor h).
    { change 0 with (Qfloor 0). now apply Qfloor_resp_le. }
    assert (Hf1 : Qfloor h <= Z.of_nat n - 1).
    { rewrite <- (Qfloor_Z (Z.of_nat n - 1)). apply Qfloor_resp_le.
      unfold Z.sub. rewrite inject_Z_plus, inject_Z_opp.
      change (inject_Z 1) with 1%Q. exact Hp1. }
    set (lo := Z.to_nat (Qfloor h)).
    set (hi := Nat.min (lo + 1) (n - 1)).
    assert (Hlo : (lo < n)%nat) by (unfold lo; lia).
    assert (Hhi : (hi < n)%nat) by (unfold hi; lia).
    eexists. split; [reflexivity|].
    unfold is_percentile. cbv zeta. fold n. fold h. fold lo. fold hi.
    exists (nth lo (sort_asc col) x0), (nth hi (sort_asc col) x0).
    split; [now apply order_statistic_of_sorted|].
    split; [now apply order_statistic_of_sorted|].
    reflexivity.
Qed.

Lemma Qeq_dec_leibniz (a b : Q) : {a = b} + {a <> b}.
Proof. decide equality; [apply Pos.eq_dec | apply Z.eq_dec]. Qed.

Lemma at_least_quantile_iff (q : Q) (col : list Q) (x : Q) :
  (0 <= q)%Q -> (q <= 1)%Q ->
  at_least x (quantile q col) = true <-> meets_percentile q col x.
Proof.
  intros Hq0 Hq1. rewrite at_least_iff. unfold meets_percentile.
  destruct (list_eq_dec Qeq_dec_leibniz col []) as [->|Hne].
  - split.
    + intros [t [Hq _]]. discriminate Hq.
    + intros [t [(a & b & (Hin & _) & _) _]]. contradiction.
  - destruct (quantile_is_percentile q col Hq0 Hq1 Hne) as [t0 [Hq Hp]].
    split.
    + intros [t [Ht Hle]]. exists t. split; [|assumption]. congruence.
    + intros [t [Ht Hle]]. exists t0. split; [assumption|].
      now rewrite (percentile_unique _ _ _ _ Hp Ht).
Qed.

(** C2.  For a target that is in the node table, the summary says Key
    Opinion Leader if and only if the influence, the connections and the
    combined activity (papers + panels + trials) of the target each meet
    or exceed the 90th percentile of that metric over the whole node
    table, all three at once; otherwise it says Standard HCP.  The 90th
    percentile of a column of n values is the linear-interpolation
    quantile: the value at the fractional position 0.9 * (n - 1) of the
    column in ascending order. *)
Theorem kol_status_iff_all_three_at_p90
    (pre post : list HcpDetails) (row : HcpDetails) (df : DataFrame)
    (Hfirst : ~ In (NPI row) (map NPI pre)) :
  let nodes := pre ++ row :: post in
  exists s,
    generate_hcp_summary_data (Some (NPI row)) nodes df = Some s /\
    let all_three :=
      meets_percentile (9 # 10) (map influence nodes) (influence row) /\
      meets_percentile (9 # 10)
        (map (fun r => inject_Z (connections r)) nodes)
        (inject_Z (connections row)) /\
      meets_percentile (9 # 10)
        (map (fun r => inject_Z (papers r + panels r + trials r)) nodes)
        (inject_Z (papers row + panels row + trials row)) in
    (s_kol_status s = "Key Opinion Leader" <-> all_three) /\
    (s_kol_status s = "Standard HCP" <-> ~ all_three).
Proof.
  intros nodes. exists (summary_of (NPI row) row nodes df).
  split; [now apply generate_present|].
  cbv zeta. cbn [s_kol_status summary_of].
  assert (Hk : is_kol row nodes = true <->
               meets_percentile (9 # 10) (map influence nodes) (influence row) /\
               meets_percentile (9 # 10)
                 (map (fun r => inject_Z (connections r)) nodes)
                 (inject_Z (connections row)) /\
               meets_percentile (9 # 10)
                 (map (fun r => inject_Z (papers r + panels r + trials r)) nodes)
                 (inject_Z (papers row + panels row + trials row))).
  { unfold is_kol, kol_thresholds, activity.
    cbn [th_influence th_connections th_activity].
    rewrite !andb_true_iff.
    rewrite !at_least_quantile_iff by discriminate. tauto. }
  destruct (is_kol row nodes).
  - assert (Hall : true = true) by reflexivity. apply Hk in Hall.
    split; split.
    + intros _. exact Hall.
    + reflexivity.
    + discriminate.
    + intros Hn. contradiction.
  - split; split.
    + discriminate.
    + intros H. apply Hk in H. discriminate.
    + intros _ H. apply Hk in H. discriminate.
    + reflexivity.
Qed.

(** ** Influence rank *)

Lemma fold_min_le_init (r : list Q) (x : Q) : (fold_left Qmin r x <= x)%Q.
Proof.
  revert x. induction r as [|y r IH]; intros x; simpl.
  - apply Qle_refl.
  - eapply Qle_trans; [apply IH | apply Q.le_min_l].
Qed.

Lemma fold_min_le (r : list Q) (x y : Q) :
  In y (x :: r) -> (fold_left Qmin r x <= y)%Q.
Proof.
  revert x. induction r as [|z r IH]; intros x; simpl.
  - intros [<-|[]]. apply Qle_refl.
  - intros [<-|[<-|Hin]].
    + eapply Qle_trans; [apply fold_min_le_init | apply Q.le_min_l].
    + eapply Qle_trans; [apply fold_min_le_init | apply Q.le_min_r].
    + apply IH. now right.
Qed.

Lemma col_min_le (col : list Q) (y : Q) : In y col -> (col_min col <= y)%Q.
Proof.
  destruct col as [|x r]; [contradiction | apply fold_min_le].
Qed.

Lemma count_lower_app (score : Q) (a b : list Q) :
  count_lower score (a ++ b) = (count_lower score a + count_lower score b)%nat.
Proof.
  unfold count_lower. now rewrite filter_app, length_app.
Qed.

Lemma count_lower_self (score : Q) (l : list Q) :
  count_lower score (score :: l) = count_lower score l.
Proof.
  unfold count_lower, Qlt_bool. simpl.
  assert (H : Qle_bool score score = true) by (apply Qle_bool_iff, Qle_refl).
  now rewrite H.
Qed.

Lemma count_lower_none (score : Q) (l : list Q) :
  (forall y, In y l -> (score <= y)%Q) -> count_lower score l = 0%nat.
Proof.
  unfold count_lower, Qlt_bool.
  induction l as [|y r IH]; simpl; intros H; [reflexivity|].
  assert (Hy : Qle_bool score y = true) by (apply Qle_bool_iff, H; now left).
  rewrite Hy. simpl. apply IH. intros z Hz. apply H. now right.
Qed.

(** The number of the other rows of the table whose influence is
    strictly lower than that of [row]. *)
Lemma count_lower_others (pre post : list HcpDetails) (row : HcpDetails) :
  count_lower (influence row) (map influence (pre ++ row :: post)) =
  count_lower (influence row) (map influence (pre ++ post)).
Proof.
  rewrite !map_app, !count_lower_app. simpl map.
  now rewrite count_lower_self.
Qed.

(** C4.  In a node table with more than one row, the influence percentile
    of a target of the table is the number of the other rows whose
    influence is strictly lower than the target's, divided by the number
    of the other rows, times 100, and the rank text places the target in
    the top (100 - percentile) percent; the percentile is 0 when the
    target holds the minimum influence of the table.  In a table of
    exactly one row the summary reports the target as the only HCP in the
    network, with percentile 0. *)
Theorem influence_percentile_among_others
    (pre post : list HcpDetails) (row : HcpDetails) (df : DataFrame)
    (Hfirst : ~ In (NPI row) (map NPI pre)) :
  let nodes := pre ++ row :: post in
  let others := pre ++ post in
  exists s,
    generate_hcp_summary_data (Some (NPI row)) nodes df = Some s /\
    ((1 < List.length nodes)%nat ->
       (s_influence_percentile s ==
          Q_of_nat (count_lower (influence row) (map influence others))
          / Q_of_nat (List.length others) * 100)%Q /\
       s_influence_rank_text s =
         placing_them_in_the_top (100 - s_influence_percentile s)%Q /\
       ((forall r, In r nodes -> (influence row <= influence r)%Q) ->
          (s_influence_percentile s == 0)%Q)) /\
    (List.length nodes = 1%nat ->
       s_influence_percentile s = 0%Q /\
       s_influence_rank_text s = only_HCP_in_the_network).
Proof.
  intros nodes others. exists (summary_of (NPI row) row nodes df).
  split; [now apply generate_present|].
  cbn [s_influence_percentile s_influence_rank_text summary_of].
  unfold influence_rank.
  assert (Hlen : List.length nodes = S (List.length others)).
  { subst nodes others. rewrite !length_app. simpl. lia. }
  assert (Hzero : forall d : Q, (Q_of_nat 0 / d * 100 == 0)%Q).
  { intros d. unfold Qdiv. change (Q_of_nat 0) with 0%Q. ring. }
  split.
  - intros Hgt. apply Nat.ltb_lt in Hgt. rewrite Hgt. cbn [fst snd].
    assert (Hmin : forall y, In y (map influence nodes) ->
                             (col_min (map influence nodes) <= y)%Q)
      by (intros y; apply col_min_le).
    destruct (Qeq_bool (influence row) (col_min (map influence nodes))) eqn:Heq;
      cbn [negb].
    + apply Qeq_bool_iff in Heq.
      assert (Hnone : count_lower (influence row) (map influence others) = 0%nat).
      { unfold others. rewrite <- (count_lower_others pre post row).
        fold nodes. apply count_lower_none.
        intros y Hy. rewrite Heq. now apply Hmin. }
      split; [|split].
      * rewrite Hnone. symmetry. apply Hzero.
      * reflexivity.
      * intros _. reflexivity.
    + assert (Hform :
        (Q_of_nat (count_lower (influence row) (map influence nodes))
         / Q_of_nat (List.length nodes - 1) * 100 ==
         Q_of_nat (count_lower (influence row) (map influence others))
         / Q_of_nat (List.length others) * 100)%Q).
      { rewrite Hlen. unfold nodes. rewrite count_lower_others. fold others.
        replace (S (List.length others) - 1)%nat with (List.length others) by lia.
        reflexivity. }
      split; [|split].
      * exact Hform.
      * reflexivity.
      * intros Hall. rewrite Hform.
        rewrite (count_lower_none (influence row) (map influence others)).
        { apply Hzero. }
        intros y Hy. apply in_map_iff in Hy. destruct Hy as [r [<- Hr]].
        apply Hall. subst nodes others.
        apply in_app_or in Hr. apply in_or_app.
        destruct Hr; [now left | now right; right].
  - intros Hone.
    assert (Hle : (1 <? List.length nodes)%nat = false)
      by (apply Nat.ltb_ge; lia).
    rewrite Hle. split; reflexivity.
Qed.

(** ** Collaboration diversity score *)

Section Entropy.
Local Open Scope R_scope.

Lemma ln_le_minus_1 (x : R) : 0 < x -> ln x <= x - 1.
Proof.
  intros Hx. pose proof (exp_ineq1_le (ln x)) as H.
  rewrite exp_ln in H by assumption. lra.
Qed.

Lemma ln2_pos : 0 < ln 2.
Proof. pose proof ln_lt_2. lra. Qed.

Lemma entropy_fold (ps : list R) (a : R) :
  fold_left (fun acc p => if Rlt_dec 0 p then acc + p * log2 p else acc) ps a
  = a + Rsum (map plogp ps).
Proof.
  revert a. induction ps as [|p ps IH]; intros a; simpl.
  - lra.
  - rewrite IH. unfold plogp. destruct (Rlt_dec 0 p); lra.
Qed.

Lemma entropy_sum (ps : list R) : entropy ps = - Rsum (map plogp ps).
Proof. unfold entropy. rewrite entropy_fold. lra. Qed.

Lemma plogp_nonpos (p : R) : 0 < p <= 1 -> plogp p <= 0.
Proof.
  intros [Hp H1]. unfold plogp. destruct (Rlt_dec 0 p); [|lra].
  unfold log2. pose proof (ln_le_minus_1 p Hp) as Hln.
  pose proof ln2_pos as H2.
  assert (Hi : 0 < / ln 2) by now apply Rinv_0_lt_compat.
  assert (Hq : ln p * / ln 2 <= 0) by nra.
  unfold Rdiv. nra.
Qed.

(** One term of the entropy against one term of the uniform bound. *)
Lemma plogp_upper (p N : R) :
  0 < p -> 0 < N -> - plogp p * ln 2 <= p * ln N + (/ N - p).
Proof.
  intros Hp HN. unfold plogp. destruct (Rlt_dec 0 p); [|lra].
  pose proof ln2_pos as H2.
  assert (HNp : 0 < N * p) by now apply Rmult_lt_0_compat.
  assert (Hinv : 0 < / (N * p)) by now apply Rinv_0_lt_compat.
  pose proof (ln_le_minus_1 _ Hinv) as Hln.
  rewrite ln_Rinv, ln_mult in Hln by assumption.
  assert (Hmul : p * (- (ln N + ln p)) <= p * (/ (N * p) - 1)) by nra.
  replace (p * (/ (N * p) - 1)) with (/ N - p) in Hmul by (field; lra).
  unfold log2. replace (- (p * (ln p / ln 2)) * ln 2) with (- (p * ln p))
    by (field; lra).
  lra.
Qed.

Lemma entropy_sum_upper (ps : list R) (N : R) :
  0 < N -> Forall (fun p => 0 < p) ps ->
  - Rsum (map plogp ps) * ln 2 <=
  Rsum ps * ln N + (INR (List.length ps) * / N - Rsum ps).
Proof.
  intros HN. induction 1 as [|p ps Hp Hps IH].
  - simpl. lra.
  - change (List.length (p :: ps)) with (S (List.length ps)).
    rewrite S_INR. simpl Rsum.
    pose proof (plogp_upper p N Hp HN). lra.
Qed.

Lemma entropy_sum_nonneg (ps : list R) :
  Forall (fun p => 0 < p <= 1) ps -> 0 <= - Rsum (map plogp ps).
Proof.
  induction 1 as [|p ps Hp Hps IH]; simpl; [lra|].
  pose proof (plogp_nonpos p Hp). lra.
Qed.

Lemma Rsum_scaled (t : R) (mc : list (string * nat)) :
  Rsum (map (fun kc => INR (snd kc) / t) mc) = INR (counts_total mc) / t.
Proof.
  unfold counts_total. induction mc as [|kc mc IH]; simpl.
  - lra.
  - rewrite IH, plus_INR. lra.
Qed.

Lemma counts_total_ge (mc : list (string * nat)) (kc : string * nat) :
  In kc mc -> (snd kc <= counts_total mc)%nat.
Proof.
  unfold counts_total. induction mc as [|x mc IH]; simpl; [contradiction|].
  intros [->|Hin]; [lia|]. specialize (IH Hin). lia.
Qed.

(** The frequencies of a table of positive counts form a probability
    distribution. *)
Lemma probabilities_distribution (mc : list (string * nat)) :
  mc <> [] -> (forall kc, In kc mc -> (1 <= snd kc)%nat) ->
  Forall (fun p => 0 < p <= 1) (probabilities mc) /\
  Rsum (probabilities mc) = 1.
Proof.
  intros Hne Hpos.
  assert (HT : 0 < INR (counts_total mc)).
  { destruct mc as [|kc mc']; [congruence|].
    apply lt_0_INR.
    pose proof (counts_total_ge (kc :: mc') kc (or_introl eq_refl)).
    specialize (Hpos kc (or_introl eq_refl)). lia. }
  split.
  - unfold probabilities. apply Forall_forall. intros p Hp.
    apply in_map_iff in Hp. destruct Hp as [kc [<- Hin]].
    assert (H1 : 1 <= INR (snd kc)).
    { change 1 with (INR 1). apply le_INR. auto. }
    assert (H2 : INR (snd kc) <= INR (counts_total mc))
      by (apply le_INR; now apply counts_total_ge).
    split.
    + apply Rdiv_lt_0_compat; lra.
    + apply Rmult_le_reg_r with (INR (counts_total mc)); [assumption|].
      unfold Rdiv. rewrite Rmult_assoc, Rinv_l by lra. lra.
  - unfold probabilities. rewrite Rsum_scaled. field. lra.
Qed.

Lemma entropy_bounds (mc : list (string * nat)) :
  mc <> [] -> (forall kc, In kc mc -> (1 <= snd kc)%nat) ->
  0 <= entropy (probabilities mc) <= log2 (INR (List.length mc)).
Proof.
  intros Hne Hpos.
  destruct (probabilities_distribution mc Hne Hpos) as [Hall Hsum].
  rewrite entropy_sum. split; [now apply entropy_sum_nonneg|].
  assert (Hlen : 0 < INR (List.length mc)).
  { apply lt_0_INR. destruct mc; [congruence | simpl; lia]. }
  assert (Hp : Forall (fun p => 0 < p) (probabilities mc)).
  { eapply Forall_impl; [|exact Hall]. simpl. intros; lra. }
  pose proof (entropy_sum_upper _ _ Hlen Hp) as Hup.
  rewrite Hsum in Hup.
  assert (Hl : List.length (probabilities mc) = List.length mc)
    by (unfold probabilities; apply length_map).
  rewrite Hl, Rinv_r in Hup by lra.
  pose proof ln2_pos as H2. unfold log2.
  apply Rmult_le_reg_r with (ln 2); [assumption|].
  unfold Rdiv at 1. rewrite Rmult_assoc, Rinv_l by lra. lra.
Qed.

Lemma max_entropy_pos (mc : list (string * nat)) :
  (2 <= List.length mc)%nat ->
  max_entropy mc = log2 (INR (List.length mc)) /\ 0 < max_entropy mc.
Proof.
  intros Hn. unfold max_entropy.
  destruct (List.length mc) as [|n] eqn:Hlen; [lia|].
  split; [reflexivity|].
  unfold log2. apply Rdiv_lt_0_compat; [|apply ln2_pos].
  rewrite <- ln_1. apply ln_increasing; [lra|].
  apply lt_1_INR. lia.
Qed.

Lemma diversity_formula (mc : list (string * nat)) :
  (2 <= List.length mc)%nat ->
  collaboration_diversity mc =
  entropy (probabilities mc) / log2 (INR (List.length mc)).
Proof.
  intros Hn. destruct (max_entropy_pos mc Hn) as [Heq Hpos].
  unfold collaboration_diversity.
  destruct mc as [|kc mc']; [simpl in Hn; lia|].
  destruct (Rlt_dec 0 (max_entropy (kc :: mc'))); [|contradiction].
  now rewrite Heq.
Qed.

Lemma diversity_degenerate (mc : list (string * nat)) :
  (List.length mc <= 1)%nat -> collaboration_diversity mc = 0.
Proof.
  intros Hn. destruct mc as [|kc [|kc' mc']]; [reflexivity| |simpl in Hn; lia].
  unfold collaboration_diversity, max_entropy, log2. simpl List.length.
  cbv iota beta. change (INR 1) with 1. rewrite ln_1.
  destruct (Rlt_dec 0 (0 / ln 2)) as [H|H]; [|reflexivity].
  unfold Rdiv in H. rewrite Rmult_0_l in H. lra.
Qed.

Lemma diversity_bounds (mc : list (string * nat)) :
  (forall kc, In kc mc -> (1 <= snd kc)%nat) ->
  0 <= collaboration_diversity mc <= 1.
Proof.
  intros Hpos.
  destruct (le_lt_dec (List.length mc) 1) as [Hn|Hn].
  - rewrite diversity_degenerate by assumption. lra.
  - assert (Hne : mc <> []) by (intros ->; simpl in Hn; lia).
    destruct (max_entropy_pos mc Hn) as [Heq Hmax].
    destruct (entropy_bounds mc Hne Hpos) as [H0 H1].
    rewrite diversity_formula by assumption. rewrite <- Heq in *.
    split.
    + apply Rmult_le_reg_r with (max_entropy mc); [assumption|].
      unfold Rdiv. rewrite Rmult_assoc, Rinv_l by lra. lra.
    + apply Rmult_le_reg_r with (max_entropy mc); [assumption|].
      unfold Rdiv. rewrite Rmult_assoc, Rinv_l by lra. lra.
Qed.
End Entropy.

(** ** Counting labels: [unique], [tally] and [value_counts] *)

Lemma existsb_eqb_In (x : string) (l : list string) :
  existsb (String.eqb x) l = true <-> In x l.
Proof.
  rewrite existsb_exists. split.
  - intros [y [Hin Heq]]. apply String.eqb_eq in Heq. now subst.
  - intros Hin. exists x. split; [assumption | apply String.eqb_refl].
Qed.

Lemma unique_In (x : string) (l : list string) : In x (unique l) <-> In x l.
Proof.
  induction l as [|a l IH]; simpl; [tauto|].
  rewrite filter_In, IH, negb_true_iff, String.eqb_neq.
  destruct (String.eqb_spec a x); intuition.
Qed.

Lemma unique_NoDup (l : list string) : NoDup (unique l).
Proof.
  induction l as [|a l IH]; simpl; constructor.
  - rewrite filter_In, negb_true_iff, String.eqb_neq. tauto.
  - now apply NoDup_filter.
Qed.

Lemma unique_snoc (l : list string) (x : string) :
  unique (l ++ [x]) =
  if existsb (String.eqb x) l then unique l else unique l ++ [x].
Proof.
  induction l as [|a l IH]; simpl; [reflexivity|].
  rewrite IH. destruct (existsb (String.eqb x) l) eqn:Hex.
  - now rewrite orb_true_r.
  - rewrite orb_false_r, filter_app. simpl.
    rewrite (String.eqb_sym x a).
    destruct (String.eqb a x); simpl; [now rewrite app_nil_r | reflexivity].
Qed.

Lemma occurrences_snoc (k x : string) (l : list string) :
  occurrences k (l ++ [x]) =
  (occurrences k l + if String.eqb k x then 1 else 0)%nat.
Proof.
  unfold occurrences. rewrite filter_app, length_app. simpl.
  now destruct (String.eqb k x).
Qed.

Lemma occurrences_pos (k : string) (l : list string) :
  In k l -> (1 <= occurrences k l)%nat.
Proof.
  unfold occurrences. induction l as [|a l IH]; simpl; [contradiction|].
  intros [->|Hin].
  - rewrite String.eqb_refl. simpl. lia.
  - specialize (IH Hin). destruct (String.eqb k a); simpl; lia.
Qed.

Lemma count_of_tally_add (k m : string) (t : list (string * nat)) :
  count_of k (tally_add m t) =
  if String.eqb m k then S (count_of k t) else count_of k t.
Proof.
  induction t as [|[k' c] r IH]; simpl.
  - rewrite (String.eqb_sym m k). now destruct (String.eqb k m).
  - destruct (String.eqb_spec k' m) as [->|Hne]; simpl.
    + now destruct (String.eqb m k).
    + rewrite IH. destruct (String.eqb_spec k' k) as [->|Hne']; [|reflexivity].
      destruct (String.eqb_spec m k); [congruence | reflexivity].
Qed.

Lemma keys_tally_add (m : string) (t : list (string * nat)) :
  map fst (tally_add m t) =
  if existsb (String.eqb m) (map fst t) then map fst t else map fst t ++ [m].
Proof.
  induction t as [|[k' c] r IH]; simpl; [reflexivity|].
  rewrite (String.eqb_sym m k').
  destruct (String.eqb k' m); simpl; [reflexivity|].
  rewrite IH. now destruct (existsb (String.eqb m) (map fst r)).
Qed.

Lemma total_tally_add (m : string) (t : list (string * nat)) :
  counts_total (tally_add m t) = S (counts_total t).
Proof.
  unfold counts_total.
  induction t as [|[k' c] r IH]; simpl; [reflexivity|].
  destruct (String.eqb k' m); simpl; [reflexivity | rewrite IH; lia].
Qed.

Lemma tally_snoc (l : list string) (m : string) :
  tally (l ++ [m]) = tally_add m (tally l).
Proof. unfold tally. now rewrite fold_left_app. Qed.

Lemma tally_count (k : string) (l : list string) :
  count_of k (tally l) = occurrences k l.
Proof.
  induction l as [|m l IH] using rev_ind; [reflexivity|].
  rewrite tally_snoc, count_of_tally_add, occurrences_snoc, IH.
  rewrite (String.eqb_sym m k). destruct (String.eqb k m); lia.
Qed.

Lemma tally_keys (l : list string) : map fst (tally l) = unique l.
Proof.
  induction l as [|m l IH] using rev_ind; [reflexivity|].
  rewrite tally_snoc, keys_tally_add, unique_snoc, IH.
  assert (H : existsb (String.eqb m) (unique l) = existsb (String.eqb m) l).
  { apply eq_true_iff_eq. rewrite !existsb_eqb_In. apply unique_In. }
  now rewrite H.
Qed.

Lemma tally_total (l : list string) : counts_total (tally l) = List.length l.
Proof.
  induction l as [|m l IH] using rev_ind; [reflexivity|].
  rewrite tally_snoc, total_tally_add, IH, length_app. simpl. lia.
Qed.

(** A table with distinct keys lists each key with its count. *)
Lemma table_canonical (t : list (string * nat)) :
  NoDup (map fst t) -> t = map (fun k => (k, count_of k t)) (map fst t).
Proof.
  induction t as [|[k c] r IH]; simpl; intros Hnd; [reflexivity|].
  inversion Hnd as [|? ? Hk Hr]; subst.
  rewrite String.eqb_refl. f_equal.
  rewrite (IH Hr) at 1. apply map_ext_in. intros k' Hk'.
  destruct (String.eqb_spec k k') as [->|_]; [contradiction | reflexivity].
Qed.

(** The tally of the labels is the list of the distinct labels, in order
    of first appearance, each with its number of occurrences. *)
Lemma tally_spec (l : list string) :
  tally l = map (fun m => (m, occurrences m l)) (unique l).
Proof.
  rewrite (table_canonical (tally l)), tally_keys.
  - apply map_ext. intros m. now rewrite tally_count.
  - rewrite tally_keys. apply unique_NoDup.
Qed.

Lemma value_counts_perm (l : list string) :
  Permutation (value_counts l) (map (fun m => (m, occurrences m l)) (unique l)).
Proof. unfold value_counts. rewrite <- tally_spec. apply sort_desc_perm. Qed.

Lemma value_counts_In (l : list string) (m : string) (c : nat) :
  In (m, c) (value_counts l) <-> In m l /\ c = occurrences m l.
Proof.
  pose proof (value_counts_perm l) as Hp. split.
  - intros Hin. apply (Permutation_in _ Hp) in Hin.
    apply in_map_iff in Hin. destruct Hin as [m' [Heq Hin]].
    inversion Heq; subst. split; [now apply unique_In | reflexivity].
  - intros [Hin ->]. apply (Permutation_in _ (Permutation_sym Hp)).
    apply in_map_iff. exists m. split; [reflexivity | now apply unique_In].
Qed.

Lemma value_counts_total (l : list string) :
  counts_total (value_counts l) = List.length l.
Proof.
  rewrite <- tally_total. unfold value_counts, counts_total.
  assert (Hp : Permutation (map snd (sort_desc (fun kc => Q_of_nat (snd kc)) (tally l)))
                           (map snd (tally l)))
    by apply Permutation_map, sort_desc_perm.
  induction Hp; simpl; lia.
Qed.

Lemma value_counts_length (l : list string) :
  List.length (value_counts l) = List.length (unique l).
Proof.
  rewrite (Permutation_length (value_counts_perm l)). apply length_map.
Qed.

Lemma value_counts_keys (l : list string) :
  Permutation (map fst (value_counts l)) (unique l).
Proof.
  rewrite (Permutation_map fst (value_counts_perm l)), map_map. simpl.
  now rewrite map_id.
Qed.

Lemma value_counts_positive (l : list string) (kc : string * nat) :
  In kc (value_counts l) -> (1 <= snd kc)%nat.
Proof.
  destruct kc as [m c]. intros Hin. apply value_counts_In in Hin.
  destruct Hin as [Hin ->]. now apply occurrences_pos.
Qed.

Section EntropyOfLabels.
Local Open Scope R_scope.

Lemma Rsum_perm (a b : list R) : Permutation a b -> Rsum a = Rsum b.
Proof. induction 1; simpl; lra. Qed.

Lemma Rsum_opp {A : Type} (f : A -> R) (l : list A) :
  - Rsum (map f l) = Rsum (map (fun x => - f x) l).
Proof. induction l as [|x l IH]; simpl; lra. Qed.

Lemma frequency_pos (m : string) (labels : list string) :
  In m labels -> 0 < frequency m labels.
Proof.
  intros Hin. unfold frequency. apply Rdiv_lt_0_compat.
  - apply lt_0_INR. pose proof (occurrences_pos m labels Hin). lia.
  - apply lt_0_INR. destruct labels; [contradiction | simpl; lia].
Qed.

(** The entropy that the program computes from the table of counts is
    the Shannon entropy of the frequency distribution of the labels. *)
Lemma entropy_is_shannon (labels : list string) :
  entropy (probabilities (value_counts labels)) = shannon_entropy labels.
Proof.
  rewrite entropy_sum. unfold probabilities, shannon_entropy.
  rewrite value_counts_total, map_map.
  rewrite (Rsum_perm _ _
    (Permutation_map
       (fun kc : string * nat =>
          plogp (INR (snd kc) / INR (List.length labels)))
       (value_counts_perm labels))).
  rewrite map_map. cbn [snd]. rewrite Rsum_opp. f_equal.
  apply map_ext_in. intros m Hm. apply (proj1 (unique_In m labels)) in Hm.
  fold (frequency m labels). unfold plogp.
  pose proof (frequency_pos m labels Hm).
  destruct (Rlt_dec 0 (frequency m labels)); [reflexivity | contradiction].
Qed.
End EntropyOfLabels.

(** ** Top connections *)

Lemma metric_is_iff (value : option string) (label : string) :
  metric_is value label = true <-> value = Some label.
Proof.
  destruct value as [m|]; simpl.
  - rewrite String.eqb_eq. split; congruence.
  - split; discriminate.
Qed.

Lemma metric_is_not_defined (value : option string) (label : string) :
  (forall m, In m defined_metrics -> value <> Some m) ->
  In label defined_metrics -> metric_is value label = false.
Proof.
  intros Hnot Hin. destruct (metric_is value label) eqn:H; [|reflexivity].
  apply metric_is_iff in H. now apply Hnot in Hin.
Qed.

Lemma impact_statement_follows_rule (t : option string) (c : HcpDetails) :
  impact_statement_rule t c (impact_statement t c).
Proof.
  unfold impact_statement_rule.
  repeat match goal with
         | |- (_ = Some _ -> _) /\ _ => split; [intros ->; reflexivity|]
         end.
  intros Hnot. unfold impact_statement.
  rewrite !(metric_is_not_defined t) by (assumption || (simpl; tauto)).
  destruct (0 <? papers c) eqn:Hp;
    [apply Z.ltb_lt in Hp | apply Z.ltb_ge in Hp];
    [repeat split; (reflexivity || lia)|].
  destruct (0 <? panels c) eqn:Hn;
    [apply Z.ltb_lt in Hn | apply Z.ltb_ge in Hn];
    [repeat split; (reflexivity || lia)|].
  destruct (0 <? trials c) eqn:Ht;
    [apply Z.ltb_lt in Ht | apply Z.ltb_ge in Ht];
    repeat split; (reflexivity || lia).
Qed.

Lemma lookup_hcp_present (npi : Z) (nodes : list HcpDetails) :
  isin_Z npi (map NPI nodes) = true <-> exists c, lookup_hcp npi nodes = Some c.
Proof.
  rewrite isin_Z_In. unfold lookup_hcp. split.
  - intros Hin. apply in_map_iff in Hin. destruct Hin as [c [Hc Hin]].
    destruct (find (fun r => NPI r =? npi) nodes) as [c'|] eqn:Hf; [eauto|].
    apply (find_none _ _ Hf) in Hin. apply Z.eqb_neq in Hin. contradiction.
  - intros [c Hf]. apply find_some in Hf. destruct Hf as [Hin Heq].
    apply Z.eqb_eq in Heq. apply in_map_iff. eauto.
Qed.

Lemma entry_describes (npi : Z) (nodes : list HcpDetails) (df : DataFrame)
    (r : EdgeRecord) (x : TopConnection) :
  In x (top_connection_entry npi nodes df r) <->
  exists c, lookup_hcp (connected_npi npi r) nodes = Some c /\
            x = mkTop (hcp_name c) (connected_npi npi r)
                      (Overall_Connection_Strength r) (influence c)
                      (connection_metric_type df r)
                      (impact_statement (connection_metric_type df r) c).
Proof.
  unfold top_connection_entry.
  destruct (lookup_hcp (connected_npi npi r) nodes) as [c|]; simpl.
  - split.
    + intros [<-|[]]. eauto.
    + intros [c' [[= <-] ->]]. now left.
  - split; [contradiction | intros [c [[=] _]]].
Qed.

Lemma entries_length (npi : Z) (nodes : list HcpDetails) (df : DataFrame)
    (direct : list EdgeRecord) :
  List.length (flat_map (top_connection_entry npi nodes df) direct) =
  List.length (filter (fun r => isin_Z (connected_npi npi r) (map NPI nodes)) direct).
Proof.
  induction direct as [|r l IH]; simpl; [reflexivity|].
  rewrite length_app, IH. unfold top_connection_entry at 1.
  destruct (isin_Z (connected_npi npi r) (map NPI nodes)) eqn:Hin.
  - apply lookup_hcp_present in Hin. destruct Hin as [c ->]. reflexivity.
  - destruct (lookup_hcp (connected_npi npi r) nodes) as [c|] eqn:Hl; [|reflexivity].
    assert (H : isin_Z (connected_npi npi r) (map NPI nodes) = true)
      by (apply lookup_hcp_present; eauto).
    congruence.
Qed.

Lemma direct_connection_sides (k : Z) (df : DataFrame) (r : EdgeRecord) :
  In r (direct_connections k df) <->
  In r (rows df) /\ (NPI_1 r = k \/ NPI_2 r = k).
Proof.
  unfold direct_connections. rewrite filter_In, orb_true_iff, !Z.eqb_eq.
  tauto.
Qed.

Lemma lookup_hcp_first (k : Z) (nodes : list HcpDetails) (c : HcpDetails) :
  lookup_hcp k nodes = Some c <-> first_row_with_id k nodes c.
Proof.
  unfold lookup_hcp, first_row_with_id. split.
  - revert c. induction nodes as [|a l IH]; simpl; intros c Hf; [discriminate|].
    destruct (NPI a =? k) eqn:Ha.
    + injection Hf as <-. apply Z.eqb_eq in Ha.
      exists [], l. split; [reflexivity|]. split; [exact Ha|]. intros [].
    + apply Z.eqb_neq in Ha.
      destruct (IH c Hf) as [before [after [-> [Hk Hn]]]].
      exists (a :: before), after. split; [reflexivity|]. split; [exact Hk|].
      simpl. intros [H|H]; [contradiction | now apply Hn].
  - intros [before [after [-> [Hk Hn]]]].
    induction before as [|a l IH]; simpl.
    + apply Z.eqb_eq in Hk. now rewrite Hk.
    + simpl in Hn.
      destruct (NPI a =? k) eqn:Ha.
      * apply Z.eqb_eq in Ha. exfalso. apply Hn. now left.
      * apply IH. intros H. apply Hn. now right.
Qed.

Lemma filter_filter {A : Type} (f g : A -> bool) (l : list A) :
  filter g (filter f l) = filter (fun a => f a && g a) l.
Proof.
  induction l as [|a l IH]; simpl; [reflexivity|].
  destruct (f a); simpl; [destruct (g a)|]; now rewrite IH.
Qed.

(** C5.  For a target that is in the node table: every entry of the
    top-connections list describes a record of the edge store that has the
    target on one of its sides and whose other endpoint has a row in the
    node table, and every such record has its entry; the entry carries
    the impact statement that the priority rule gives on the Metrics cell
    of the record (fixed wording of one of the five defined metric types,
    else the first positive of papers, panels, trials of the connected
    provider, else the generic statement); records whose other endpoint
    is not in the node table contribute no entry, so that the list has as
    many entries as there are records with a row for the other endpoint;
    and the list is in descending order of
    0.6 * influence + 0.4 * strength. *)
Theorem top_connections_rule_and_order
    (pre post : list HcpDetails) (row : HcpDetails) (df : DataFrame)
    (Hfirst : ~ In (NPI row) (map NPI pre)) :
  let nodes := pre ++ row :: post in
  let npi := NPI row in
  exists s,
    generate_hcp_summary_data (Some npi) nodes df = Some s /\
    (forall x, In x (s_top_connections_list s) ->
       exists r c, is_direct_connection npi df r /\ describes npi df nodes r c x) /\
    (forall r c, is_direct_connection npi df r ->
       first_row_with_id (if NPI_1 r =? npi then NPI_2 r else NPI_1 r) nodes c ->
       exists x, In x (s_top_connections_list s) /\ describes npi df nodes r c x) /\
    List.length (s_top_connections_list s) =
      List.length (filter (has_entry npi nodes) (rows df)) /\
    StronglySorted
      (fun a b => ((6 # 10) * tc_influence b + (4 # 10) * tc_strength b <=
                   (6 # 10) * tc_influence a + (4 # 10) * tc_strength a)%Q)
      (s_top_connections_list s).
Proof.
  intros nodes npi.
  exists (summary_of npi row nodes df).
  split; [now apply generate_present|].
  cbn [s_top_connections_list summary_of].
  unfold top_connections.
  assert (Hdesc : forall r c,
            lookup_hcp (connected_npi npi r) nodes = Some c ->
            describes npi df nodes r c
              (mkTop (hcp_name c) (connected_npi npi r)
                     (Overall_Connection_Strength r) (influence c)
                     (connection_metric_type df r)
                     (impact_statement (connection_metric_type df r) c))).
  { intros r c Hc. unfold describes.
    cbn [tc_name tc_npi tc_strength tc_influence tc_metric_type
         tc_impact_statement].
    split; [reflexivity|].
    split; [now apply lookup_hcp_first|].
    do 3 (split; [reflexivity|]).
    unfold connection_metric_type at 1 2.
    split; [now intros ->|]. split; [now intros ->|].
    apply impact_statement_follows_rule. }
  split; [|split; [|split]].
  - intros x Hx. apply sort_desc_In in Hx. apply in_flat_map in Hx.
    destruct Hx as [r [Hr Hx]]. apply entry_describes in Hx.
    destruct Hx as [c [Hc ->]]. exists r, c.
    split; [now apply direct_connection_sides | now apply Hdesc].
  - intros r c Hr Hc.
    assert (Hl : lookup_hcp (connected_npi npi r) nodes = Some c)
      by now apply lookup_hcp_first.
    eexists. split; [|apply (Hdesc r c Hl)].
    apply sort_desc_In. apply in_flat_map. exists r.
    split; [now apply direct_connection_sides|].
    apply entry_describes. eauto.
  - rewrite sort_desc_length, entries_length.
    unfold direct_connections. rewrite filter_filter. reflexivity.
  - apply (sort_desc_sorted composite_score).
Qed.

(** ** Metrics breakdown *)

Lemma defined_metrics_NoDup : NoDup defined_metrics.
Proof.
  unfold defined_metrics.
  repeat (constructor; [simpl; intuition discriminate|]). constructor.
Qed.

Lemma dict_mem_table (D : list string) (f : string -> nat) (k : string) :
  dict_mem k (map (fun m => (m, f m)) D) = existsb (String.eqb k) D.
Proof.
  induction D as [|m D IH]; simpl; [reflexivity|].
  now rewrite IH, (String.eqb_sym m k).
Qed.

Lemma dict_incr_table (D : list string) (f : string -> nat) (k : string) :
  NoDup D ->
  dict_incr k (map (fun m => (m, f m)) D) =
  map (fun m => (m, if String.eqb m k then S (f m) else f m)) D.
Proof.
  induction 1 as [|m D Hm HD IH]; simpl; [reflexivity|].
  destruct (String.eqb_spec m k) as [->|Hne].
  - f_equal. apply map_ext_in. intros m' Hm'.
    destruct (String.eqb_spec m' k) as [->|_]; [contradiction | reflexivity].
  - now rewrite IH.
Qed.

Lemma other_count_snoc (l : list string) (v : string) :
  other_count (l ++ [v]) =
  (other_count l + if existsb (String.eqb v) defined_metrics then 0 else 1)%nat.
Proof.
  unfold other_count. rewrite filter_app, length_app. cbn [filter].
  now destruct (existsb (String.eqb v) defined_metrics).
Qed.

(** The counting loop leaves, for each defined metric, the number of its
    occurrences among the labels, and the number of all other labels. *)
Lemma count_metrics_spec (labels : list string) :
  count_metrics labels =
  (map (fun m => (m, occurrences m labels)) defined_metrics, other_count labels).
Proof.
  induction labels as [|v l IH] using rev_ind; [reflexivity|].
  unfold count_metrics in *. rewrite fold_left_app. cbn [fold_left].
  rewrite IH. unfold count_step. cbn [fst snd].
  rewrite dict_mem_table, other_count_snoc.
  destruct (existsb (String.eqb v) defined_metrics) eqn:Hex.
  - rewrite dict_incr_table by apply defined_metrics_NoDup.
    f_equal; [|lia].
    apply map_ext. intros m. rewrite occurrences_snoc.
    destruct (String.eqb m v); f_equal; lia.
  - f_equal; [|lia].
    apply map_ext_in. intros m Hm. rewrite occurrences_snoc.
    destruct (String.eqb_spec m v) as [->|_]; [|f_equal; lia].
    apply existsb_eqb_In in Hm. congruence.
Qed.

Lemma sum_indicator (D : list string) (v : string) :
  NoDup D ->
  fold_right Nat.add 0%nat (map (fun m => if String.eqb m v then 1 else 0)%nat D) =
  (if existsb (String.eqb v) D then 1 else 0)%nat.
Proof.
  induction 1 as [|m D Hm HD IH]; simpl; [reflexivity|].
  rewrite IH, (String.eqb_sym v m).
  destruct (String.eqb_spec m v) as [->|_]; simpl; [|reflexivity].
  destruct (existsb (String.eqb v) D) eqn:Hex; [|reflexivity].
  apply existsb_eqb_In in Hex. contradiction.
Qed.

Lemma occurrences_cons (m v : string) (l : list string) :
  occurrences m (v :: l) =
  ((if String.eqb m v then 1 else 0) + occurrences m l)%nat.
Proof. unfold occurrences. simpl. now destruct (String.eqb m v). Qed.

Lemma sum_occurrences_cons (D : list string) (v : string) (l : list string) :
  fold_right Nat.add 0%nat (map (fun m => occurrences m (v :: l)) D) =
  (fold_right Nat.add 0 (map (fun m => if String.eqb m v then 1 else 0) D) +
   fold_right Nat.add 0 (map (fun m => occurrences m l) D))%nat.
Proof.
  induction D as [|m D IH]; cbn [map fold_right]; [reflexivity|].
  rewrite IH, occurrences_cons. lia.
Qed.

(** Every label is counted in exactly one bucket. *)
Lemma buckets_total (labels : list string) :
  total_metric_instances (count_metrics labels) = List.length labels.
Proof.
  rewrite count_metrics_spec. unfold total_metric_instances. cbn [fst snd].
  rewrite map_map. cbn [snd].
  induction labels as [|v l IH]; [reflexivity|].
  rewrite sum_occurrences_cons, sum_indicator by apply defined_metrics_NoDup.
  unfold other_count in *. cbn [filter List.length].
  destruct (existsb (String.eqb v) defined_metrics); simpl in *; lia.
Qed.

Lemma breakdown_lines_spec (labels : list string) :
  metrics_breakdown_lines (count_metrics labels) =
  match labels with
  | [] => [no_metrics_line]
  | _ :: _ =>
      flat_map (fun m => bucket_line m (occurrences m labels) (List.length labels))
               defined_metrics
      ++ bucket_line "Other/Undefined" (other_count labels) (List.length labels)
  end.
Proof.
  unfold metrics_breakdown_lines. rewrite buckets_total, count_metrics_spec.
  destruct labels as [|v l]; [reflexivity|].
  cbn [List.length Nat.ltb Nat.leb fst snd]. reflexivity.
Qed.

Lemma Q_of_nat_le (a b : nat) : (Q_of_nat a <= Q_of_nat b)%Q -> (a <= b)%nat.
Proof. unfold Q_of_nat. rewrite <- Zle_Qle. lia. Qed.

(** The sorted items of the dictionary start with a defined metric that
    has the most connections, followed by one that has the most among the
    remaining defined metrics. *)
Lemma sorted_items_structure (labels : list string) :
  exists m0 m1 rest,
    sort_desc (fun mc : string * nat => Q_of_nat (snd mc))
              (map (fun m => (m, occurrences m labels)) defined_metrics)
    = (m0, occurrences m0 labels) :: (m1, occurrences m1 labels) :: rest /\
    In m0 defined_metrics /\ In m1 defined_metrics /\ m0 <> m1 /\
    (forall m, In m defined_metrics ->
               (occurrences m labels <= occurrences m0 labels)%nat) /\
    (forall m, In m defined_metrics -> m <> m0 ->
               (occurrences m labels <= occurrences m1 labels)%nat).
Proof.
  set (key := fun mc : string * nat => Q_of_nat (snd mc)).
  set (t := map (fun m => (m, occurrences m labels)) defined_metrics).
  pose proof (sort_desc_perm key t) as Hperm.
  pose proof (sort_desc_sorted key t) as Hsorted.
  pose proof (sort_desc_length key t) as Hlen.
  assert (Hin : forall m c, In (m, c) (sort_desc key t) <->
                            In m defined_metrics /\ c = occurrences m labels).
  { intros m c. rewrite sort_desc_In. unfold t. rewrite in_map_iff. split.
    - intros [m' [Heq Hm']]. inversion Heq; subst. auto.
    - intros [Hm ->]. eauto. }
  assert (Hnd : NoDup (map fst (sort_desc key t))).
  { apply (Permutation_NoDup (l := map fst t)).
    - apply Permutation_sym, Permutation_map, Hperm.
    - unfold t. rewrite map_map. cbn [fst]. rewrite map_id.
      apply defined_metrics_NoDup. }
  destruct (sort_desc key t) as [|[m0 c0] [|[m1 c1] rest]];
    [discriminate Hlen | discriminate Hlen |].
  destruct (proj1 (Hin m0 c0) (or_introl eq_refl)) as [Hm0 ->].
  destruct (proj1 (Hin m1 c1) (or_intror (or_introl eq_refl))) as [Hm1 ->].
  inversion Hsorted as [|? ? Hs1 Hall0]; subst.
  inversion Hs1 as [|? ? Hs2 Hall1]; subst.
  rewrite Forall_forall in Hall0, Hall1.
  inversion Hnd as [|? ? Hnot0 _]; subst.
  exists m0, m1, rest. split; [reflexivity|].
  split; [assumption|]. split; [assumption|].
  split; [intros ->; apply Hnot0; now left|].
  split.
  - intros m Hm.
    destruct (proj2 (Hin m (occurrences m labels)) (conj Hm eq_refl)) as [Heq|Hr].
    + inversion Heq; subst. lia.
    + apply Q_of_nat_le. apply (Hall0 _ Hr).
  - intros m Hm Hne.
    destruct (proj2 (Hin m (occurrences m labels)) (conj Hm eq_refl))
      as [Heq|[Heq|Hr]].
    + inversion Heq; subst. contradiction.
    + inversion Heq; subst. lia.
    + apply Q_of_nat_le. apply (Hall1 _ Hr).
Qed.

Lemma value_counts_nonempty (v : string) (l : list string) :
  value_counts (v :: l) <> [].
Proof.
  intros H. pose proof (value_counts_length (v :: l)) as Hlen.
  rewrite H in Hlen. discriminate Hlen.
Qed.

(** What the interpretation sentence is, case by case. *)
Lemma interpretation_cases (labels : list string) :
  let text := interpretation (value_counts labels) (count_metrics labels) in
  (labels = [] -> text = EmptyString) /\
  (labels <> [] ->
     (forall m, In m defined_metrics -> occurrences m labels = 0%nat) ->
     text = one_focus_message "diverse engagement") /\
  ((exists m, In m defined_metrics /\ (0 < occurrences m labels)%nat) ->
     names_top_categories labels text).
Proof.
  cbv zeta. unfold interpretation. rewrite buckets_total.
  destruct labels as [|v l]; [repeat split; try congruence|].
  - intros [m [_ Hm]]. unfold occurrences in Hm. simpl in Hm. lia.
  - assert (Htotal : (0 <? List.length (v :: l))%nat = true) by reflexivity.
    rewrite Htotal.
    destruct (value_counts (v :: l)) as [|x xs] eqn:Hvc;
      [now apply value_counts_nonempty in Hvc|].
    rewrite count_metrics_spec. cbn [fst].
    destruct (sorted_items_structure (v :: l))
      as (m0 & m1 & rest & -> & Hm0 & Hm1 & Hne & Hmax0 & Hmax1).
    cbv beta iota zeta.
    split; [discriminate|]. split.
    + intros _ Hzero.
      rewrite (Hzero m0 Hm0), (Hzero m1 Hm1). reflexivity.
    + intros [m [Hm Hpos]].
      assert (Hpos0 : (0 < occurrences m0 (v :: l))%nat)
        by (specialize (Hmax0 m Hm); lia).
      apply Nat.ltb_lt in Hpos0. rewrite Hpos0. apply Nat.ltb_lt in Hpos0.
      exists m0. split; [assumption|]. split; [assumption|].
      split; [assumption|].
      destruct (0 <? occurrences m1 (v :: l))%nat eqn:Hpos1.
      * right. apply Nat.ltb_lt in Hpos1. exists m1.
        repeat split; auto.
      * left. apply Nat.ltb_ge in Hpos1. split; [reflexivity|].
        intros m' Hm' Hne'. specialize (Hmax1 m' Hm' Hne'). lia.
Qed.

Lemma one_focus_not_neutral (d : string) :
  one_focus_message d <> not_categorized_message /\
  one_focus_message d <> EmptyString.
Proof. split; discriminate. Qed.

Lemma two_focus_not_neutral (d s : string) :
  two_focus_message d s <> not_categorized_message /\
  two_focus_message d s <> EmptyString.
Proof. split; discriminate. Qed.

Lemma occurrences_of_metrics (m : string) (direct : list EdgeRecord) :
  occurrences m (dropna (map Metrics direct)) =
  List.length (filter (fun e => metric_is (Metrics e) m) direct).
Proof.
  unfold occurrences.
  induction direct as [|e l IH]; simpl; [reflexivity|].
  destruct (Metrics e) as [x|]; simpl; [|assumption].
  rewrite (String.eqb_sym m x). destruct (String.eqb x m); simpl; congruence.
Qed.

Lemma some_category_dec (labels : list string) :
  (exists m, In m defined_metrics /\ (0 < occurrences m labels)%nat) \/
  (forall m, In m defined_metrics -> occurrences m labels = 0%nat).
Proof.
  destruct (existsb (fun m => (0 <? occurrences m labels)%nat) defined_metrics)
    eqn:Hex.
  - left. apply existsb_exists in Hex. destruct Hex as [m [Hm Hpos]].
    apply Nat.ltb_lt in Hpos. eauto.
  - right. intros m Hm.
    destruct (occurrences m labels) eqn:Ho; [reflexivity|].
    assert (Hyes : existsb (fun m => (0 <? occurrences m labels)%nat)
                           defined_metrics = true).
    { apply existsb_exists. exists m. split; [assumption|]. now rewrite Ho. }
    congruence.
Qed.

(** C9 (as amended).  For a target that is in the node table, with
    [labels] the metric labels of its direct connections that are not
    missing (none when the input has no Metrics column): the counting loop
    gives each of the five defined metrics the number of direct
    connections that carry it and the Other/Undefined bucket the number
    of the remaining labels, and the buckets add up to the number of
    labels.  When there are labels the breakdown has one line per
    non-empty bucket, defined metrics first in their fixed order, with
    the percentage count / total * 100; when there are none it is the
    single no-metrics line and the interpretation is empty.  When some
    defined metric has a connection the interpretation names the top one
    or two defined metrics that have connections; when there are labels
    but none is a defined metric it is the one-focus sentence on the
    words diverse engagement; the not-clearly-categorized message is
    never produced. *)
Theorem metrics_breakdown_and_interpretation
    (pre post : list HcpDetails) (row : HcpDetails) (df : DataFrame)
    (Hfirst : ~ In (NPI row) (map NPI pre)) :
  let nodes := pre ++ row :: post in
  let npi := NPI row in
  let direct := direct_connections npi df in
  let labels := all_direct_metrics df direct in
  let total := List.length labels in
  exists s,
    generate_hcp_summary_data (Some npi) nodes df = Some s /\
    (forall m, occurrences m labels =
               if has_Metrics_column df
               then List.length (filter (fun e => metric_is (Metrics e) m) direct)
               else 0%nat) /\
    count_metrics labels =
      (map (fun m => (m, occurrences m labels)) defined_metrics,
       other_count labels) /\
    total_metric_instances (count_metrics labels) = total /\
    (labels <> [] ->
       s_metrics_breakdown s =
       flat_map (fun m => bucket_line m (occurrences m labels) total)
                defined_metrics
       ++ bucket_line "Other/Undefined" (other_count labels) total) /\
    (labels = [] ->
       s_metrics_breakdown s = [no_metrics_line] /\
       s_metrics_interpretation s = EmptyString) /\
    ((exists m, In m defined_metrics /\ (0 < occurrences m labels)%nat) ->
       names_top_categories labels (s_metrics_interpretation s)) /\
    (labels <> [] ->
       (forall m, In m defined_metrics -> occurrences m labels = 0%nat) ->
       s_metrics_interpretation s = one_focus_message "diverse engagement") /\
    s_metrics_interpretation s <> not_categorized_message.
Proof.
  intros nodes npi direct labels total.
  exists (summary_of npi row nodes df).
  split; [now apply generate_present|].
  cbn [s_metrics_breakdown s_metrics_interpretation summary_of].
  fold direct. fold labels.
  destruct (interpretation_cases labels) as (Hempty & Hdiverse & Htop).
  split.
  { intros m. unfold labels, all_direct_metrics.
    destruct (has_Metrics_column df); [apply occurrences_of_metrics | reflexivity]. }
  split; [apply count_metrics_spec|].
  split; [apply buckets_total|].
  split.
  { intros Hne. rewrite breakdown_lines_spec.
    destruct labels; [congruence | reflexivity]. }
  split.
  { intros Hnil. split; [|now apply Hempty].
    rewrite breakdown_lines_spec. now rewrite Hnil. }
  split; [exact Htop|]. split; [exact Hdiverse|].
  destruct labels as [|v l] eqn:Hl.
  - rewrite Hempty by reflexivity. discriminate.
  - destruct (some_category_dec (v :: l)) as [Hsome|Hnone].
    + destruct (Htop Hsome) as (d & _ & _ & _ & [[-> _]|(s & _ & _ & _ & _ & ->)]).
      * apply one_focus_not_neutral.
      * apply two_focus_not_neutral.
    + rewrite Hdiverse by (assumption || discriminate).
      apply one_focus_not_neutral.
Qed.

(** ** Self-loops *)

Lemma col_sum_app (a b : list Q) : (col_sum (a ++ b) == col_sum a + col_sum b)%Q.
Proof.
  unfold col_sum. induction a as [|x a IH]; simpl.
  - ring.
  - rewrite IH. ring.
Qed.

Lemma col_sum_insert (a b : list Q) (x : Q) :
  (col_sum (a ++ x :: b) == col_sum (a ++ b) + x)%Q.
Proof.
  rewrite !col_sum_app. unfold col_sum. simpl. ring.
Qed.

Lemma direct_connections_insert (npi : Z) (hm : bool)
    (before after : list EdgeRecord) (e : EdgeRecord) :
  NPI_1 e = npi ->
  direct_connections npi (mkDF hm (before ++ e :: after)) =
  direct_connections npi (mkDF hm before) ++
  e :: direct_connections npi (mkDF hm after).
Proof.
  intros H1. unfold direct_connections. cbn [rows].
  rewrite filter_app. cbn [filter]. now rewrite H1, Z.eqb_refl.
Qed.

Lemma direct_connections_app (npi : Z) (hm : bool) (a b : list EdgeRecord) :
  direct_connections npi (mkDF hm (a ++ b)) =
  direct_connections npi (mkDF hm a) ++ direct_connections npi (mkDF hm b).
Proof. unfold direct_connections. cbn [rows]. apply filter_app. Qed.

Lemma connected_npis_In (npi k : Z) (direct : list EdgeRecord) :
  In k (connected_npis_temp npi direct) <->
  k <> npi /\ exists r, In r direct /\ (NPI_1 r = k \/ NPI_2 r = k).
Proof.
  unfold connected_npis_temp.
  rewrite filter_In, in_app_iff, !in_map_iff, negb_true_iff, Z.eqb_neq.
  split.
  - intros [[[r [Hr Hin]]|[r [Hr Hin]]] Hne]; split; eauto.
  - intros [Hne [r [Hin [Hr|Hr]]]]; split; eauto.
Qed.

Lemma isin_Z_ext (v : Z) (a b : list Z) :
  (forall k, In k a <-> In k b) -> isin_Z v a = isin_Z v b.
Proof.
  intros H. apply eq_true_iff_eq. rewrite !isin_Z_In. apply H.
Qed.

(** A self-loop on the selected identifier does not change the set of the
    connected identifiers. *)
Lemma connected_npis_self_loop (npi : Z) (d1 d2 : list EdgeRecord) (e : EdgeRecord) :
  NPI_1 e = npi -> NPI_2 e = npi ->
  forall k, In k (connected_npis_temp npi (d1 ++ e :: d2)) <->
            In k (connected_npis_temp npi (d1 ++ d2)).
Proof.
  intros H1 H2 k. rewrite !connected_npis_In.
  split; intros [Hne [r [Hin Hr]]]; split; try assumption; exists r.
  - split; [|assumption].
    apply in_app_or in Hin. apply in_or_app.
    destruct Hin as [Hin|[<-|Hin]]; auto.
    exfalso. destruct Hr; congruence.
  - split; [|assumption].
    apply in_app_or in Hin. apply in_or_app.
    destruct Hin; [left | right; right]; assumption.
Qed.

Lemma occurrences_app (m : string) (a b : list string) :
  occurrences m (a ++ b) = (occurrences m a + occurrences m b)%nat.
Proof. unfold occurrences. now rewrite filter_app, length_app. Qed.

Lemma dropna_app {A : Type} (a b : list (option A)) :
  dropna (a ++ b) = dropna a ++ dropna b.
Proof.
  induction a as [|[x|] a IH]; simpl; [reflexivity | now rewrite IH | assumption].
Qed.

(** C10.  Let the edge store hold a self-loop record on the target (both
    sides equal to the target identifier), the target being in the node
    table.  The record is one of the direct connections, which are one
    more than without it; the average strength is the mean over the
    direct connections including the record; the count of its metric
    label is one more than without it; the top-connections list has an
    entry for the record whose connected provider is the target itself;
    and the target identifier is not in the set of connected identifiers,
    no row of the target is among the rows whose states and cities are
    counted, and the numbers of distinct connected states and cities are
    the same as without the record. *)
Theorem self_loop_is_a_direct_connection
    (pre post : list HcpDetails) (row : HcpDetails) (has_metrics : bool)
    (before after : list EdgeRecord) (e : EdgeRecord)
    (Hfirst : ~ In (NPI row) (map NPI pre))
    (Hside1 : NPI_1 e = NPI row) (Hside2 : NPI_2 e = NPI row) :
  let nodes := pre ++ row :: post in
  let npi := NPI row in
  let df := mkDF has_metrics (before ++ e :: after) in
  let df_without := mkDF has_metrics (before ++ after) in
  let direct := direct_connections npi df in
  let direct_without := direct_connections npi df_without in
  exists s s0,
    generate_hcp_summary_data (Some npi) nodes df = Some s /\
    generate_hcp_summary_data (Some npi) nodes df_without = Some s0 /\
    In e direct /\
    List.length direct = S (List.length direct_without) /\
    (s_avg_connection_strength s ==
       (col_sum (map Overall_Connection_Strength direct_without)
        + Overall_Connection_Strength e)
       / Q_of_nat (S (List.length direct_without)))%Q /\
    (forall m, has_metrics = true -> Metrics e = Some m ->
       occurrences m (all_direct_metrics df direct) =
       S (occurrences m (all_direct_metrics df_without direct_without))) /\
    (exists x, In x (s_top_connections_list s) /\
               tc_npi x = npi /\ tc_name x = hcp_name row /\
               tc_strength x = Overall_Connection_Strength e /\
               tc_influence x = influence row) /\
    ~ In npi (connected_npis_temp npi direct) /\
    (forall r, In r (connected_hcps_details npi nodes direct) -> NPI r <> npi) /\
    s_unique_states_connected s = s_unique_states_connected s0 /\
    s_unique_cities_connected s = s_unique_cities_connected s0.
Proof.
  intros nodes npi df df_without direct direct_without.
  exists (summary_of npi row nodes df), (summary_of npi row nodes df_without).
  split; [now apply generate_present|].
  split; [now apply generate_present|].
  cbn [s_avg_connection_strength s_top_connections_list
       s_unique_states_connected s_unique_cities_connected summary_of].
  fold direct. fold direct_without.
  set (d1 := direct_connections npi (mkDF has_metrics before)).
  set (d2 := direct_connections npi (mkDF has_metrics after)).
  assert (Hd : direct = d1 ++ e :: d2)
    by (apply direct_connections_insert; exact Hside1).
  assert (Hd0 : direct_without = d1 ++ d2) by apply direct_connections_app.
  assert (Hconn : forall k, In k (connected_npis_temp npi direct) <->
                            In k (connected_npis_temp npi direct_without)).
  { rewrite Hd, Hd0. now apply connected_npis_self_loop. }
  assert (Hrows : connected_hcps_details npi nodes direct =
                  connected_hcps_details npi nodes direct_without).
  { unfold connected_hcps_details. apply filter_ext.
    intros r. now apply isin_Z_ext. }
  split; [rewrite Hd; apply in_or_app; right; now left|].
  split; [rewrite Hd, Hd0, !length_app; simpl; lia|].
  split.
  { assert (Havg : avg_strength (d1 ++ e :: d2) =
                   col_mean (map Overall_Connection_Strength (d1 ++ e :: d2)))
      by (now destruct d1).
    rewrite Hd, Havg.
    unfold col_mean. rewrite Hd0.
    assert (Hlen : List.length (map Overall_Connection_Strength (d1 ++ e :: d2))
                   = S (List.length (d1 ++ d2)))
      by (rewrite length_map, !length_app; simpl; lia).
    rewrite Hlen, !map_app. cbn [map]. rewrite col_sum_insert.
    reflexivity. }
  split.
  { intros m Hm He. unfold all_direct_metrics, df, df_without.
    cbn [has_Metrics_column]. rewrite Hm, Hd, Hd0.
    rewrite !map_app, !dropna_app, !occurrences_app. cbn [map dropna].
    rewrite He. cbn [dropna]. rewrite occurrences_cons, String.eqb_refl. lia. }
  split.
  { eexists. split.
    - unfold top_connections. apply sort_desc_In. apply in_flat_map.
      exists e. split; [rewrite Hd; apply in_or_app; right; now left|].
      apply entry_describes. exists row. split; [|reflexivity].
      unfold connected_npi. rewrite Hside1, Z.eqb_refl, Hside2.
      now apply lookup_split_first.
    - cbn [tc_npi tc_name tc_strength tc_influence].
      unfold connected_npi. rewrite Hside1, Z.eqb_refl, Hside2.
      repeat split. }
  split; [rewrite connected_npis_In; tauto|].
  split.
  { intros r Hr. unfold connected_hcps_details in Hr.
    apply filter_In in Hr. destruct Hr as [_ Hr].
    apply isin_Z_In, connected_npis_In in Hr. tauto. }
  unfold unique_states, unique_cities. rewrite Hrows. split; reflexivity.
Qed.

(** ** The example network *)

Example scenario_aggregation :
  get_all_hcps_details scenario_df = scenario_nodes.
Proof. reflexivity. Qed.

Example scenario_quantile :
  quantile (9 # 10) (map influence scenario_nodes) = Some (66 # 10).
Proof. reflexivity. Qed.

Example scenario_summary :
  exists s,
    generate_hcp_summary_data (Some 1) scenario_nodes scenario_df = Some s /\
    List.length (direct_connections 1 scenario_df) = 2%nat /\
    (s_avg_connection_strength s == 55 # 100)%Q /\
    s_dominant_metrics_text s = "Publishers and Panels" /\
    s_kol_status s = "Standard HCP".
Proof.
  eexists. split; [reflexivity|]. repeat split.
Qed.

Example scenario_filter_empty :
  get_filtered_nodes scenario_nodes 50 None None 100 0 0 0 0 by_connections = [].
Proof. reflexivity. Qed.

Example scenario_filter_all :
  get_filtered_nodes scenario_nodes 3 None None 0 0 0 0 0 by_influence
  = [node_b; node_a; node_c].
Proof. reflexivity. Qed.

(** ** The theorems at the example network *)

Lemma not_in_nil (k : Z) : ~ In k (map NPI []).
Proof. intros []. Defined.

(** Beside provider C alone, provider A of the example meets the three
    percentiles (4.7, 13.9 and 6.7) and is a Key Opinion Leader; in the
    whole example table it is below the 90th percentile of influence
    (5 against 6.6) and is a Standard HCP. *)
Lemma kol_status_scenario :
  ~ In (NPI node_a) (map NPI []) /\
  (exists s,
     generate_hcp_summary_data (Some 1) [node_a; node_c] scenario_df = Some s /\
     s_kol_status s = "Key Opinion Leader") /\
  (exists s,
     generate_hcp_summary_data (Some 1) scenario_nodes scenario_df = Some s /\
     s_kol_status s = "Standard HCP").
Proof.
  split; [apply not_in_nil|]. split.
  - destruct (kol_status_iff_all_three_at_p90
                [] [node_c] node_a scenario_df (not_in_nil _))
      as [s [Hs [Hkol _]]].
    exists s. split; [exact Hs|]. apply Hkol.
    repeat split;
      (apply at_least_quantile_iff; [discriminate | discriminate | reflexivity]).
  - destruct (kol_status_iff_all_three_at_p90
                [] [node_b; node_c] node_a scenario_df (not_in_nil _))
      as [s [Hs [_ Hstd]]].
    exists s. split; [exact Hs|]. apply Hstd. intros [H _].
    apply at_least_quantile_iff in H; [discriminate H | discriminate | discriminate].
Defined.

(** One of the two other providers of the example has a lower influence
    than provider A: the percentile is 1 / 2 * 100. *)
Lemma influence_percentile_scenario :
  ~ In (NPI node_a) (map NPI []) /\
  exists s,
    generate_hcp_summary_data (Some 1) scenario_nodes scenario_df = Some s /\
    (s_influence_percentile s == 50)%Q.
Proof.
  split; [apply not_in_nil|].
  destruct (influence_percentile_among_others
              [] [node_b; node_c] node_a scenario_df (not_in_nil _))
    as [s [Hs [Hmany _]]].
  exists s. split; [exact Hs|].
  destruct Hmany as [Hpct _]; [simpl; lia|].
  rewrite Hpct. reflexivity.
Defined.

(** Provider A of the example: the record that connects A to B carries
    the Metrics cell Publishers, so the list has an entry for provider 2,
    named B, with strength 0.8 and the statement of that metric type; and
    the list has two entries. *)
Lemma top_connections_scenario :
  ~ In (NPI node_a) (map NPI []) /\
  exists s,
    generate_hcp_summary_data (Some 1) scenario_nodes scenario_df = Some s /\
    (exists x, In x (s_top_connections_list s) /\
       tc_npi x = 2 /\ tc_name x = "B" /\ (tc_strength x == 8 # 10)%Q /\
       tc_metric_type x = Some "Publishers" /\
       tc_impact_statement x = "Co-authored on publications.") /\
    List.length (s_top_connections_list s) = 2%nat.
Proof.
  split; [apply not_in_nil|].
  destruct (top_connections_rule_and_order
              [] [node_b; node_c] node_a scenario_df (not_in_nil _))
    as [s [Hs [_ [Hall [Hlen _]]]]].
  exists s. split; [exact Hs|]. split; [|rewrite Hlen; reflexivity].
  destruct (Hall edge_ab node_b) as [x [Hx Hd]].
  - split; [simpl; now left | now left].
  - exists [node_a], [node_c]. split; [reflexivity|]. split; [reflexivity|].
    simpl. intros [H|[]]. discriminate H.
  - destruct Hd as [Hn [_ [Hname [Hst [_ [Hm [_ Hrule]]]]]]].
    specialize (Hm eq_refl). cbn in Hm, Hn, Hname, Hst.
    exists x. split; [exact Hx|]. split; [exact Hn|]. split; [exact Hname|].
    split; [rewrite Hst; reflexivity|]. split; [exact Hm|].
    destruct Hrule as [Hp _]. apply Hp. exact Hm.
Defined.

(** The interpretation for provider A of the example names Publishers and
    Panels. *)
Lemma metrics_interpretation_scenario :
  ~ In (NPI node_a) (map NPI []) /\
  exists s,
    generate_hcp_summary_data (Some 1) scenario_nodes scenario_df = Some s /\
    names_top_categories ["Publishers"; "Panels"] (s_metrics_interpretation s).
Proof.
  split; [apply not_in_nil|].
  destruct (metrics_breakdown_and_interpretation
              [] [node_b; node_c] node_a scenario_df (not_in_nil _))
    as [s [Hs [_ [_ [_ [_ [_ [Htop _]]]]]]]].
  exists s. split; [exact Hs|].
  apply Htop. exists "Publishers". split; [simpl; tauto | cbv; lia].
Defined.

(** The self-loop record on provider A, put between the two records of
    the example, is one more direct connection. *)
Lemma self_loop_scenario :
  (~ In (NPI node_a) (map NPI []) /\
   NPI_1 edge_aa = NPI node_a /\ NPI_2 edge_aa = NPI node_a) /\
  List.length
    (direct_connections 1 (mkDF true ([edge_ab] ++ edge_aa :: [edge_ac])))
  = S (List.length (direct_connections 1 (mkDF true ([edge_ab] ++ [edge_ac])))).
Proof.
  split; [split; [apply not_in_nil | split; reflexivity]|].
  destruct (self_loop_is_a_direct_connection
              [] [node_b; node_c] node_a true [edge_ab] [edge_ac] edge_aa
              (not_in_nil _) eq_refl eq_refl)
    as [s [s0 [_ [_ [_ [Hlen _]]]]]].
  exact Hlen.
Defined.

(** C9, as the specification words it, fails for a provider whose only
    direct connection carries a label that is none of the five defined
    metrics: no defined metric has a connection, yet the interpretation
    is neither empty nor the not-clearly-categorized message; it is the
    one-focus sentence on the words diverse engagement. *)
Lemma interpretation_not_as_specified :
  exists s,
    generate_hcp_summary_data (Some 1) [node_a; node_b] research_df = Some s /\
    all_direct_metrics research_df (direct_connections 1 research_df)
      = ["Research"] /\
    s_metrics_breakdown s = [metric_line "Other/Undefined" 1 (100 # 1)%Q] /\
    s_metrics_interpretation s =
      "This HCP's network shows a strong focus on **diverse engagement** connections." /\
    ~ interpretation_as_specified ["Research"] (s_metrics_interpretation s).
Proof.
  eexists. split; [reflexivity|].
  split; [reflexivity|]. split; [reflexivity|]. split; [reflexivity|].
  intros [(d & Hd & Hpos & _)|[_ [Hn|Hn]]].
  - simpl in Hd. cbv in Hpos.
    repeat (destruct Hd as [<-|Hd]; [cbv in Hpos; lia|]). contradiction.
  - discriminate Hn.
  - discriminate Hn.
Qed.

(** * Further properties of the code *)

(** ** Node aggregator: growth of the edge store, order of the views *)

Lemma details_rows (df : DataFrame) (row : HcpDetails) :
  In row (get_all_hcps_details df) <->
  exists k, In k (map sv_NPI (concat_sides df)) /\
            row = aggregate k (group_of k (concat_sides df)).
Proof.
  unfold get_all_hcps_details. cbv zeta. rewrite in_map_iff.
  split; intros [k [H1 H2]]; exists k.
  - apply group_keys_In in H2. auto.
  - split; [auto | now apply group_keys_In].
Qed.

Lemma concat_sides_incl (df df' : DataFrame) (o : SideView) :
  incl (rows df) (rows df') ->
  In o (concat_sides df) -> In o (concat_sides df').
Proof.
  unfold concat_sides. intros Hincl Ho.
  apply in_app_or in Ho. apply in_or_app.
  destruct Ho as [Ho|Ho]; [left|right];
    apply in_map_iff in Ho; destruct Ho as [e [<- He]];
    apply in_map, Hincl, He.
Qed.

Lemma group_of_incl (df df' : DataFrame) (k : Z) :
  incl (rows df) (rows df') ->
  incl (group_of k (concat_sides df)) (group_of k (concat_sides df')).
Proof.
  intros Hincl o Ho. unfold group_of in *.
  apply filter_In in Ho. destruct Ho as [Ho Hk].
  apply filter_In. split; [|assumption].
  now apply (concat_sides_incl df df').
Qed.

Lemma is_maximum_incl (l l' : list Z) (m m' : Z) :
  is_maximum l m -> is_maximum l' m' -> incl l l' -> m <= m'.
Proof.
  intros [Hin _] [_ Hall] Hincl. rewrite Forall_forall in Hall.
  apply Hall, Hincl, Hin.
Qed.

Lemma agg_max_incl (l l' : list Z) :
  l <> [] -> incl l l' -> agg_max l <= agg_max l'.
Proof.
  intros Hne Hincl.
  assert (Hne' : l' <> []).
  { destruct l as [|x r]; [congruence|]. intros ->.
    apply (Hincl x). now left. }
  eapply is_maximum_incl; eauto using agg_max_spec.
Qed.

(** X1.  When the edge store grows (every record of the old store is a
    record of the new one, in any order), every provider of the old node
    table is still in the new one, and its connections, papers, panels and
    trials are at least what they were. *)
Theorem aggregation_monotone (df df' : DataFrame) (row : HcpDetails)
    (Hgrows : incl (rows df) (rows df'))
    (Hrow : In row (get_all_hcps_details df)) :
  exists row',
    In row' (get_all_hcps_details df') /\
    NPI row' = NPI row /\
    connections row <= connections row' /\
    papers row <= papers row' /\
    panels row <= panels row' /\
    trials row <= trials row'.
Proof.
  apply details_rows in Hrow. destruct Hrow as [k [Hk ->]].
  destruct (group_of_nonempty _ _ Hk) as (o & rest & Hg).
  pose proof (group_of_incl df df' k Hgrows) as Hincl.
  exists (aggregate k (group_of k (concat_sides df'))).
  split.
  { apply details_rows. exists k. split; [|reflexivity].
    apply in_map_iff in Hk. destruct Hk as [o' [<- Ho']].
    apply in_map. now apply (concat_sides_incl df df'). }
  split; [reflexivity|].
  cbn [aggregate connections papers panels trials].
  assert (Hmap : forall (B : Type) (f : SideView -> B),
             incl (map f (group_of k (concat_sides df)))
                  (map f (group_of k (concat_sides df')))).
  { intros B f x Hx. apply in_map_iff in Hx. destruct Hx as [y [<- Hy]].
    apply in_map. now apply Hincl. }
  assert (Hne : forall (B : Type) (f : SideView -> B),
             map f (group_of k (concat_sides df)) <> [])
    by (intros B f; rewrite Hg; discriminate).
  assert (Hfill : forall f : SideView -> option Z,
             agg_max (fillna0 (map f (group_of k (concat_sides df)))) <=
             agg_max (fillna0 (map f (group_of k (concat_sides df'))))).
  { intros f. unfold fillna0. rewrite !map_map.
    apply agg_max_incl; [apply Hne | apply Hmap]. }
  repeat split; try apply Hfill.
  apply agg_max_incl; [apply Hne | apply Hmap].
Qed.

Lemma aggregation_monotone_example :
  (incl (rows (mkDF true [edge_ab])) (rows scenario_df) /\
   In (mkHcp 1 "A" 10 5%Q (Some "Boston") (Some "MA") 2 0 1)
      (get_all_hcps_details (mkDF true [edge_ab]))) /\
  exists row',
    In row' (get_all_hcps_details scenario_df) /\ NPI row' = 1 /\
    10 <= connections row'.
Proof.
  assert (H1 : incl (rows (mkDF true [edge_ab])) (rows scenario_df))
    by (intros x [<-|[]]; now left).
  assert (H2 : In (mkHcp 1 "A" 10 5%Q (Some "Boston") (Some "MA") 2 0 1)
                  (get_all_hcps_details (mkDF true [edge_ab])))
    by now left.
  split; [split; assumption|].
  destruct (aggregation_monotone _ _ _ H1 H2) as [row' [Hin [Hk [Hc _]]]].
  exists row'. auto.
Defined.

Lemma group_side1_first (k : Z) (before after : list EdgeRecord) (e : EdgeRecord)
    (tail : list SideView) :
  (forall r, In r before -> NPI_1 r <> k) -> NPI_1 e = k ->
  exists rest,
    group_of k (map hcp1_renamed (before ++ e :: after) ++ tail)
    = hcp1_renamed e :: rest.
Proof.
  intros Hbefore He. unfold group_of.
  rewrite map_app, <- app_assoc, filter_app.
  rewrite (filter_none _ (map hcp1_renamed before)).
  - simpl. rewrite He, Z.eqb_refl. eauto.
  - intros o Ho. apply in_map_iff in Ho. destruct Ho as [r [<- Hr]].
    simpl. apply Z.eqb_neq. now apply Hbefore.
Qed.

Lemma group_side2_first (k : Z) (all before after : list EdgeRecord)
    (e : EdgeRecord) :
  (forall r, In r all -> NPI_1 r <> k) ->
  (forall r, In r before -> NPI_2 r <> k) -> NPI_2 e = k ->
  exists rest,
    group_of k (map hcp1_renamed all ++ map hcp2_renamed (before ++ e :: after))
    = hcp2_renamed e :: rest.
Proof.
  intros Hall Hbefore He. unfold group_of.
  rewrite filter_app, (filter_none _ (map hcp1_renamed all)).
  - rewrite map_app, filter_app, (filter_none _ (map hcp2_renamed before)).
    + simpl. rewrite He, Z.eqb_refl. eauto.
    + intros o Ho. apply in_map_iff in Ho. destruct Ho as [r [<- Hr]].
      simpl. apply Z.eqb_neq. now apply Hbefore.
  - intros o Ho. apply in_map_iff in Ho. destruct Ho as [r [<- Hr]].
    simpl. apply Z.eqb_neq. now apply Hall.
Qed.

(** X2.  The influence of a provider is read from its side-1 appearances
    before its side-2 appearances, whatever the order of the records: if
    the provider is on side 1 of some record, its influence is the side-1
    score of the first such record (even when an earlier record has it on
    side 2); only when it is on side 1 of no record is its influence the
    side-2 score of the first record that has it on side 2. *)
Theorem influence_side1_before_side2
    (df : DataFrame) (before after : list EdgeRecord) (e : EdgeRecord) (k : Z)
    (Hrows : rows df = before ++ e :: after) :
  ((forall r, In r before -> NPI_1 r <> k) -> NPI_1 e = k ->
     exists row, In row (get_all_hcps_details df) /\ NPI row = k /\
                 influence row = Influence_score_1 e) /\
  ((forall r, In r (rows df) -> NPI_1 r <> k) ->
   (forall r, In r before -> NPI_2 r <> k) -> NPI_2 e = k ->
     exists row, In row (get_all_hcps_details df) /\ NPI row = k /\
                 influence row = Influence_score_2 e).
Proof.
  assert (Hin : In e (rows df)) by (rewrite Hrows; apply in_or_app; right; now left).
  split.
  - intros Hbefore He.
    exists (aggregate k (group_of k (concat_sides df))).
    split; [|split; [reflexivity|]].
    + apply details_rows. exists k. split; [|reflexivity].
      apply concat_sides_ids. exists e. auto.
    + unfold concat_sides. rewrite Hrows at 1.
      destruct (group_side1_first k before after e
                  (map hcp2_renamed (rows df)) Hbefore He) as [rest ->].
      reflexivity.
  - intros Hall Hbefore He.
    exists (aggregate k (group_of k (concat_sides df))).
    split; [|split; [reflexivity|]].
    + apply details_rows. exists k. split; [|reflexivity].
      apply concat_sides_ids. exists e. auto.
    + unfold concat_sides. rewrite Hrows at 2.
      destruct (group_side2_first k (rows df) before after e
                  Hall Hbefore He) as [rest ->].
      reflexivity.
Qed.

(** Provider A is on side 2 of the first record (influence 9) and on
    side 1 of the second (influence 5): its influence is 5. *)
Lemma influence_side1_before_side2_example :
  rows (mkDF true [edge_ba; edge_ab]) = [edge_ba] ++ edge_ab :: [] /\
  exists row, In row (get_all_hcps_details (mkDF true [edge_ba; edge_ab])) /\
              NPI row = 1 /\ influence row = 5%Q.
Proof.
  split; [reflexivity|].
  apply (proj1 (influence_side1_before_side2
                  (mkDF true [edge_ba; edge_ab]) [edge_ba] [] edge_ab 1 eq_refl)).
  - intros r [<-|[]]. discriminate.
  - reflexivity.
Defined.

Lemma insert_key_not_nil (k : Z) (ks : list Z) : insert_key k ks <> [].
Proof.
  destruct ks as [|k' r]; simpl; [discriminate|].
  destruct (k <? k'); [discriminate|]. destruct (k =? k'); discriminate.
Qed.

(** X3.  The node table is empty exactly when the edge store has no
    record; a store with at least one record always yields at least one
    provider and at most two per record. *)
Theorem aggregation_empty_iff (df : DataFrame) :
  (get_all_hcps_details df = [] <-> rows df = []) /\
  (List.length (get_all_hcps_details df) <= 2 * List.length (rows df))%nat.
Proof.
  split.
  - unfold get_all_hcps_details, concat_sides. cbv zeta.
    destruct (rows df) as [|e l]; [split; reflexivity|].
    split; [|discriminate]. intros H. apply map_eq_nil in H.
    simpl in H. now apply insert_key_not_nil in H.
  - unfold get_all_hcps_details. cbv zeta. rewrite length_map.
    assert (Hk : forall obs, (List.length (group_keys obs) <= List.length obs)%nat).
    { induction obs as [|o r IH]; simpl; [lia|].
      assert (Hi : forall k ks, (List.length (insert_key k ks) <= S (List.length ks))%nat).
      { intros k ks. induction ks as [|k' r' IH']; simpl; [lia|].
        destruct (k <? k'); simpl; [lia|].
        destruct (k =? k'); simpl; lia. }
      specialize (Hi (sv_NPI o) (group_keys r)). lia. }
    specialize (Hk (concat_sides df)).
    assert (Hlen : List.length (concat_sides df) = (2 * List.length (rows df))%nat)
      by (unfold concat_sides; rewrite length_app, !length_map; lia).
    lia.
Qed.

(** ** Node filter: which rows are kept *)

Lemma sorted_app_cross {A : Type} (R : A -> A -> Prop) (l1 l2 : list A) :
  StronglySorted R (l1 ++ l2) ->
  StronglySorted R l1 /\ forall a b, In a l1 -> In b l2 -> R a b.
Proof.
  induction l1 as [|x l1 IH]; simpl; intros Hs.
  - split; [constructor | contradiction].
  - inversion Hs as [|? ? Hs' Hall]; subst.
    destruct (IH Hs') as [Hs1 Hcross].
    rewrite Forall_forall in Hall. split.
    + constructor; [assumption|].
      apply Forall_forall. intros y Hy. apply Hall, in_or_app. now left.
    + intros a b [<-|Ha] Hb; [apply Hall, in_or_app; now right | auto].
Qed.

(** X4.  The node filter returns the surviving rows with the largest sort
    keys, largest first: the result is in descending order of the sort
    column, and together with the surviving rows that are left out it
    makes up the surviving rows, none of the rows left out having a
    larger sort key than a returned row. *)
Theorem get_filtered_nodes_keeps_the_largest
    (nodes : list HcpDetails) (top_n : nat)
    (selected_states selected_cities : option (list string))
    (min_connections : Z) (min_influence : Q)
    (min_papers min_panels min_trials : Z) (sort_by : SortKey) :
  let result :=
    get_filtered_nodes nodes top_n selected_states selected_cities
      min_connections min_influence min_papers min_panels min_trials sort_by in
  let surviving :=
    surviving_rows nodes selected_states selected_cities
      min_connections min_influence min_papers min_panels min_trials in
  StronglySorted
    (fun a b => (sort_column sort_by b <= sort_column sort_by a)%Q) result /\
  exists left_out,
    Permutation surviving (result ++ left_out) /\
    forall a b, In a result -> In b left_out ->
                (sort_column sort_by b <= sort_column sort_by a)%Q.
Proof.
  intros result surviving. subst result.
  unfold get_filtered_nodes. fold surviving.
  destruct surviving as [|x l] eqn:Hs.
  - split; [constructor|]. exists []. split; [constructor | contradiction].
  - rewrite <- Hs. unfold nlargest.
    set (sorted := sort_desc (sort_column sort_by) surviving).
    set (m := Nat.min top_n (List.length surviving)).
    pose proof (sort_desc_sorted (sort_column sort_by) surviving) as Hsorted.
    fold sorted in Hsorted. unfold descending in Hsorted.
    rewrite <- (firstn_skipn m sorted) in Hsorted.
    destruct (sorted_app_cross _ _ _ Hsorted) as [Hfirst Hcross].
    split; [exact Hfirst|].
    exists (skipn m sorted). split; [|exact Hcross].
    rewrite firstn_skipn. apply Permutation_sym, sort_desc_perm.
Qed.

Lemma filter_all {A : Type} (p : A -> bool) (l : list A) :
  (forall x, In x l -> p x = true) -> filter p l = l.
Proof.
  induction l as [|x l IH]; simpl; intros H; [reflexivity|].
  rewrite (H x) by now left. f_equal. apply IH. intros y Hy. apply H. now right.
Qed.

Lemma surviving_rows_all nodes ss sc mc mi mp mpa mt :
  (forall r, In r nodes -> meets_criteria ss sc mc mi mp mpa mt r) ->
  surviving_rows nodes ss sc mc mi mp mpa mt = nodes.
Proof.
  intros Hall. unfold surviving_rows.
  assert (Hs : (if truthy ss
                then filter (fun r => isin_str (state r) (values_of ss)) nodes
                else nodes) = nodes).
  { destruct (truthy ss) eqn:Ht; [|reflexivity].
    apply filter_all. intros r Hr. apply isin_str_In.
    destruct (Hall r Hr) as [H _]. auto. }
  rewrite Hs.
  assert (Hc : (if truthy sc
                then filter (fun r => isin_str (city r) (values_of sc)) nodes
                else nodes) = nodes).
  { destruct (truthy sc) eqn:Ht; [|reflexivity].
    apply filter_all. intros r Hr. apply isin_str_In.
    destruct (Hall r Hr) as [_ [H _]]. auto. }
  rewrite Hc.
  apply filter_all. intros r Hr. apply thresholds_mask_iff.
  destruct (Hall r Hr) as [_ [_ H]]. exact H.
Qed.

(** X5.  When every row of the table meets the criteria and [top_n] is
    at least the number of rows, the node filter returns the whole table
    reordered: the same rows, in descending order of the sort column. *)
Theorem get_filtered_nodes_whole_table
    (nodes : list HcpDetails) (top_n : nat)
    (selected_states selected_cities : option (list string))
    (min_connections : Z) (min_influence : Q)
    (min_papers min_panels min_trials : Z) (sort_by : SortKey)
    (Hall : forall r, In r nodes ->
              meets_criteria selected_states selected_cities min_connections
                min_influence min_papers min_panels min_trials r)
    (Htop : (List.length nodes <= top_n)%nat) :
  let result :=
    get_filtered_nodes nodes top_n selected_states selected_cities
      min_connections min_influence min_papers min_panels min_trials sort_by in
  Permutation result nodes /\
  StronglySorted
    (fun a b => (sort_column sort_by b <= sort_column sort_by a)%Q) result.
Proof.
  intros result. subst result. unfold get_filtered_nodes.
  rewrite (surviving_rows_all _ _ _ _ _ _ _ _ Hall).
  destruct nodes as [|x l] eqn:Hn; [split; constructor|].
  rewrite <- Hn in *. unfold nlargest.
  rewrite Nat.min_r by assumption.
  rewrite <- (sort_desc_length (sort_column sort_by) nodes), firstn_all.
  split; [apply sort_desc_perm | apply (sort_desc_sorted (sort_column sort_by))].
Qed.

(** With no selection, all lower bounds at 0 and room for three rows,
    the example table comes back reordered. *)
Lemma get_filtered_nodes_whole_table_example :
  ((forall r, In r scenario_nodes -> meets_criteria None None 0 0 0 0 0 r) /\
   (List.length scenario_nodes <= 3)%nat) /\
  Permutation (get_filtered_nodes scenario_nodes 3 None None 0 0 0 0 0 by_influence)
              scenario_nodes.
Proof.
  assert (H1 : forall r, In r scenario_nodes -> meets_criteria None None 0 0 0 0 0 r).
  { intros r [<-|[<-|[<-|[]]]]; unfold meets_criteria; simpl;
      repeat split; try discriminate; try lia. }
  assert (H2 : (List.length scenario_nodes <= 3)%nat) by (simpl; lia).
  split; [split; assumption|].
  exact (proj1 (get_filtered_nodes_whole_table scenario_nodes 3 None None
                  0 0 0 0 0 by_influence H1 H2)).
Defined.

(** ** Edge selector and the displayed network *)

(** X6.  Widening the identifier list or the strength range never removes
    an edge from the selection. *)
Theorem get_filtered_edges_for_display_monotone
    (df : DataFrame) (npis npis' : list Z) (lo hi lo' hi' : Q)
    (Hnpis : incl npis npis') (Hlo : (lo' <= lo)%Q) (Hhi : (hi <= hi')%Q) :
  incl (get_filtered_edges_for_display df npis lo hi)
       (get_filtered_edges_for_display df npis' lo' hi').
Proof.
  intros e He. unfold get_filtered_edges_for_display in *.
  destruct npis as [|k ks]; [contradiction|].
  apply filter_In in He. destruct He as [Hin Hmask].
  apply edge_mask_iff in Hmask. destruct Hmask as (H1 & H2 & H3 & H4).
  destruct npis' as [|k' ks'] eqn:Hn'.
  - exfalso. apply (Hnpis k). now left.
  - apply filter_In. split; [assumption|]. apply edge_mask_iff.
    repeat split; try (apply Hnpis; assumption).
    + now apply Qle_trans with lo.
    + now apply Qle_trans with hi.
Qed.

Lemma get_filtered_edges_for_display_monotone_example :
  (incl [1; 2] [1; 2; 3] /\ (0 <= 5 # 10)%Q /\ (1 <= 2)%Q) /\
  incl (get_filtered_edges_for_display scenario_df [1; 2] (5 # 10) 1)
       (get_filtered_edges_for_display scenario_df [1; 2; 3] 0 2).
Proof.
  assert (H1 : incl [1; 2] [1; 2; 3]) by (intros x [<-|[<-|[]]]; simpl; auto).
  assert (H2 : (0 <= 5 # 10)%Q) by discriminate.
  assert (H3 : (1 <= 2)%Q) by discriminate.
  split; [auto|].
  exact (get_filtered_edges_for_display_monotone scenario_df _ _ _ _ _ _ H1 H2 H3).
Defined.

(** X7.  In the network that the main page hands to the renderer, every
    edge joins two displayed nodes (so no arrow points to a hidden
    provider), is a record of the edge store and has its strength in the
    selected range; every displayed node is a row of the node table that
    meets the filter criteria; and when no node is displayed no edge is. *)
Theorem displayed_network_is_closed
    (all_hcps_details : list HcpDetails) (df : DataFrame) (top_n : nat)
    (selected_states selected_cities : option (list string))
    (min_connections : Z) (min_influence : Q)
    (min_papers min_panels min_trials : Z) (sort_by : SortKey)
    (min_strength max_strength : Q) :
  let net :=
    displayed_network all_hcps_details df top_n selected_states selected_cities
      min_connections min_influence min_papers min_panels min_trials sort_by
      min_strength max_strength in
  (forall e, In e (snd net) ->
     (exists a, In a (fst net) /\ NPI a = NPI_1 e) /\
     (exists b, In b (fst net) /\ NPI b = NPI_2 e) /\
     In e (rows df) /\
     (min_strength <= Overall_Connection_Strength e <= max_strength)%Q) /\
  (forall r, In r (fst net) ->
     In r all_hcps_details /\
     meets_criteria selected_states selected_cities min_connections
       min_influence min_papers min_panels min_trials r) /\
  (List.length (fst net) <= top_n)%nat /\
  (fst net = [] -> snd net = []).
Proof.
  intros net. subst net. unfold displayed_network.
  set (shown := get_filtered_nodes all_hcps_details top_n selected_states
                  selected_cities min_connections min_influence min_papers
                  min_panels min_trials sort_by).
  assert (Hshown : forall r, In r shown ->
            In r all_hcps_details /\
            meets_criteria selected_states selected_cities min_connections
              min_influence min_papers min_panels min_trials r).
  { intros r Hr. apply surviving_rows_iff.
    unfold shown, get_filtered_nodes in Hr.
    destruct (surviving_rows all_hcps_details selected_states selected_cities
                min_connections min_influence min_papers min_panels min_trials)
      as [|x l] eqn:Hs; [contradiction|].
    unfold nlargest in Hr. apply firstn_In_inv in Hr.
    now apply sort_desc_In in Hr. }
  assert (Hlen : (List.length shown <= top_n)%nat).
  { unfold shown, get_filtered_nodes.
    destruct (surviving_rows all_hcps_details selected_states selected_cities
                min_connections min_influence min_papers min_panels min_trials)
      as [|x l]; [simpl; lia|].
    unfold nlargest. rewrite length_firstn. lia. }
  destruct shown as [|x l] eqn:Hs.
  - cbn [fst snd]. repeat split; try contradiction; auto.
  - rewrite <- Hs in *. cbn [fst snd].
    split; [|split; [exact Hshown | split; [exact Hlen | rewrite Hs; discriminate]]].
    intros e He. unfold get_filtered_edges_for_display in He.
    destruct (map NPI shown) as [|k ks] eqn:Hk; [contradiction|].
    rewrite <- Hk in He. apply filter_In in He. destruct He as [Hin Hmask].
    apply edge_mask_iff in Hmask. destruct Hmask as (H1 & H2 & H3 & H4).
    apply in_map_iff in H1. apply in_map_iff in H2.
    destruct H1 as [a [Ha Hina]]. destruct H2 as [b [Hb Hinb]].
    repeat split; eauto.
Qed.

(** ** The most frequent labels *)

Lemma occurrences_absent (m : string) (l : list string) :
  ~ In m l -> occurrences m l = 0%nat.
Proof.
  unfold occurrences. intros Hn. rewrite filter_none; [reflexivity|].
  intros x Hx. apply String.eqb_neq. intros ->. contradiction.
Qed.

Lemma value_counts_nil (l : list string) : value_counts l = [] -> l = [].
Proof.
  destruct l as [|v l]; [reflexivity|]. intros H.
  now apply value_counts_nonempty in H.
Qed.

(** The first entry of the table of counts is a most frequent label and
    the second one is a most frequent label among the others. *)
Lemma value_counts_head (labels : list string) (m : string) (c : nat)
    (rest : list (string * nat)) :
  value_counts labels = (m, c) :: rest ->
  In m labels /\ c = occurrences m labels /\
  (forall m', (occurrences m' labels <= c)%nat) /\
  (forall m2 c2 rest', rest = (m2, c2) :: rest' ->
     In m2 labels /\ c2 = occurrences m2 labels /\ m2 <> m /\
     forall m', m' <> m -> (occurrences m' labels <= c2)%nat) /\
  (rest = [] -> forall m', In m' labels -> m' = m).
Proof.
  intros Hvc.
  pose proof (value_counts_In labels) as Hin.
  pose proof (value_counts_keys labels) as Hkeys.
  assert (Hsorted : descending (fun kc : string * nat => Q_of_nat (snd kc))
                               (value_counts labels))
    by apply sort_desc_sorted.
  assert (Hnd : NoDup (map fst (value_counts labels))).
  { apply (Permutation_NoDup (Permutation_sym Hkeys)), unique_NoDup. }
  rewrite Hvc in *. unfold descending in Hsorted.
  inversion Hsorted as [|? ? Hs1 Hall0]; subst.
  rewrite Forall_forall in Hall0.
  inversion Hnd as [|? ? Hnot0 Hnd1]; subst.
  destruct (proj1 (Hin m c) (or_introl eq_refl)) as [Hm Hc].
  assert (Hmax : forall m', (occurrences m' labels <= c)%nat).
  { intros m'. destruct (in_dec string_dec m' labels) as [Hm'|Hm'].
    - destruct (proj2 (Hin m' _) (conj Hm' eq_refl)) as [Heq|Hr].
      + inversion Heq; subst. lia.
      + apply Q_of_nat_le. apply (Hall0 _ Hr).
    - rewrite occurrences_absent by assumption. lia. }
  split; [assumption|]. split; [assumption|]. split; [assumption|]. split.
  - intros m2 c2 rest' ->.
    destruct (proj1 (Hin m2 c2) (or_intror (or_introl eq_refl))) as [Hm2 Hc2].
    inversion Hs1 as [|? ? Hs2 Hall1]; subst.
    rewrite Forall_forall in Hall1.
    split; [assumption|]. split; [reflexivity|]. split.
    + intros ->. apply Hnot0. now left.
    + intros m' Hne. destruct (in_dec string_dec m' labels) as [Hm'|Hm'].
      * destruct (proj2 (Hin m' _) (conj Hm' eq_refl)) as [Heq|[Heq|Hr]].
        -- inversion Heq; subst. contradiction.
        -- inversion Heq; subst. lia.
        -- apply Q_of_nat_le. apply (Hall1 _ Hr).
      * rewrite occurrences_absent by assumption. lia.
  - intros -> m' Hm'.
    destruct (proj2 (Hin m' _) (conj Hm' eq_refl)) as [Heq|[]].
    now inversion Heq.
Qed.

(** X8.  The dominant-metrics text of a summary names the most frequent
    metric labels of the direct connections: with no label it is the
    no-dominant-metric sentence; with a single distinct label it is that
    label; otherwise it is [m1 and m2], where no label occurs more often
    than [m1] and no label other than [m1] occurs more often than [m2]. *)
Theorem dominant_metrics_text_names_most_frequent
    (pre post : list HcpDetails) (row : HcpDetails) (df : DataFrame)
    (Hfirst : ~ In (NPI row) (map NPI pre)) :
  let nodes := pre ++ row :: post in
  let labels := all_direct_metrics df (direct_connections (NPI row) df) in
  exists s,
    generate_hcp_summary_data (Some (NPI row)) nodes df = Some s /\
    (labels = [] ->
       s_dominant_metrics_text s = "no specific dominant metric identified") /\
    (labels <> [] ->
       exists m1,
         In m1 labels /\
         (forall m, (occurrences m labels <= occurrences m1 labels)%nat) /\
         (((forall m, In m labels -> m = m1) /\ s_dominant_metrics_text s = m1)
          \/
          (exists m2,
             In m2 labels /\ m2 <> m1 /\
             (forall m, m <> m1 ->
                        (occurrences m labels <= occurrences m2 labels)%nat) /\
             s_dominant_metrics_text s = (m1 ++ " and " ++ m2)%string))).
Proof.
  intros nodes labels. exists (summary_of (NPI row) row nodes df).
  split; [now apply generate_present|].
  cbn [s_dominant_metrics_text summary_of]. fold labels.
  unfold dominant_text, dominant_metrics.
  split.
  - intros ->. reflexivity.
  - intros Hne.
    destruct (value_counts labels) as [|[m1 c1] rest] eqn:Hvc;
      [apply value_counts_nil in Hvc; contradiction|].
    destruct (value_counts_head labels m1 c1 rest Hvc)
      as (Hm1 & -> & Hmax & Hsecond & Hsingle).
    exists m1. split; [assumption|]. split; [assumption|].
    destruct rest as [|[m2 c2] rest'].
    + left. split; [now apply Hsingle | reflexivity].
    + right. destruct (Hsecond m2 c2 rest' eq_refl) as (Hm2 & -> & Hne2 & Hmax2).
      exists m2. repeat split; auto.
Qed.

Lemma dominant_metrics_text_example :
  ~ In (NPI node_a) (map NPI []) /\
  exists s,
    generate_hcp_summary_data (Some 1) scenario_nodes scenario_df = Some s /\
    s_dominant_metrics_text s = "Publishers and Panels".
Proof.
  split; [apply not_in_nil|].
  destruct (dominant_metrics_text_names_most_frequent
              [] [node_b; node_c] node_a scenario_df (not_in_nil _))
    as [s [Hs _]].
  exists s. split; [exact Hs|].
  cbv in Hs. injection Hs as <-. reflexivity.
Defined.

(** X9.  The most common connection metric of the network summary is N/A
    when the input has no Metrics column or no displayed edge carries a
    label; otherwise it names a label that no other label outnumbers,
    followed by the number of displayed edges that carry it. *)
Theorem most_common_metric_is_most_frequent
    (df : DataFrame) (edges : list EdgeRecord) :
  let labels := dropna (map Metrics edges) in
  (has_Metrics_column df = false \/ labels = [] ->
     most_common_metric df edges = "N/A") /\
  (has_Metrics_column df = true -> labels <> [] ->
     exists m,
       In (Some m) (map Metrics edges) /\
       (forall m',
          (List.length (filter (fun e => metric_is (Metrics e) m') edges) <=
           List.length (filter (fun e => metric_is (Metrics e) m) edges))%nat) /\
       most_common_metric df edges =
       (m ++ " (" ++
        str_of_int (Z.of_nat
          (List.length (filter (fun e => metric_is (Metrics e) m) edges)))
        ++ " connections)")%string).
Proof.
  intros labels. unfold most_common_metric. fold labels. split.
  - intros [->| ->]; [reflexivity|]. now destruct (has_Metrics_column df).
  - intros -> Hne.
    destruct labels as [|v l] eqn:Hl; [congruence|]. rewrite <- Hl in *.
    unfold most_common.
    destruct (value_counts labels) as [|[m c] rest] eqn:Hvc;
      [apply value_counts_nil in Hvc; contradiction|].
    destruct (value_counts_head labels m c rest Hvc) as (Hm & -> & Hmax & _).
    exists m. split; [|split].
    + unfold labels in Hm. clear -Hm.
      induction (map Metrics edges) as [|[x|] r IH]; simpl in *;
        [contradiction | | auto].
      destruct Hm as [->|Hm]; auto.
    + intros m'. specialize (Hmax m'). unfold labels in Hmax.
      now rewrite !occurrences_of_metrics in Hmax.
    + unfold labels. now rewrite occurrences_of_metrics.
Qed.

(** ** Provider summary: bounds and edge cases *)

Lemma Q_of_nat_le_iff (a b : nat) : (Q_of_nat a <= Q_of_nat b)%Q <-> (a <= b)%nat.
Proof. unfold Q_of_nat. rewrite <- Zle_Qle. lia. Qed.

Lemma ratio_percent_bounds (c d : nat) :
  (c <= d)%nat -> (0 < d)%nat ->
  (0 <= Q_of_nat c / Q_of_nat d * 100 <= 100)%Q.
Proof.
  intros Hcd Hd.
  assert (Hc0 : (0 <= Q_of_nat c)%Q).
  { change 0%Q with (Q_of_nat 0). apply Q_of_nat_le_iff. lia. }
  assert (Hd0 : (0 < Q_of_nat d)%Q).
  { unfold Q_of_nat. change 0%Q with (inject_Z 0). rewrite <- Zlt_Qlt. lia. }
  assert (Hle : (Q_of_nat c <= Q_of_nat d)%Q) by now apply Q_of_nat_le_iff.
  assert (H0 : (0 <= Q_of_nat c / Q_of_nat d)%Q).
  { apply Qle_shift_div_l; [assumption|]. now rewrite Qmult_0_l. }
  assert (H1 : (Q_of_nat c / Q_of_nat d <= 1)%Q).
  { apply Qle_shift_div_r; [assumption|]. now rewrite Qmult_1_l. }
  split; lra.
Qed.

Lemma count_lower_le (score : Q) (col : list Q) :
  (count_lower score col <= List.length col)%nat.
Proof. unfold count_lower. apply filter_length_le. Qed.

(** X10.  The influence percentile of a provider of the node table is
    always between 0 and 100. *)
Theorem influence_percentile_bounds
    (pre post : list HcpDetails) (row : HcpDetails) (df : DataFrame)
    (Hfirst : ~ In (NPI row) (map NPI pre)) :
  exists s,
    generate_hcp_summary_data (Some (NPI row)) (pre ++ row :: post) df = Some s /\
    (0 <= s_influence_percentile s <= 100)%Q.
Proof.
  exists (summary_of (NPI row) row (pre ++ row :: post) df).
  split; [now apply generate_present|].
  cbn [s_influence_percentile summary_of]. unfold influence_rank.
  destruct (1 <? List.length (pre ++ row :: post))%nat eqn:Hn; cbn [fst];
    [|split; discriminate].
  apply Nat.ltb_lt in Hn.
  destruct (negb (Qeq_bool (influence row)
                    (col_min (map influence (pre ++ row :: post)))));
    [|split; discriminate].
  apply ratio_percent_bounds; [|lia].
  rewrite count_lower_others.
  pose proof (count_lower_le (influence row) (map influence (pre ++ post))) as H.
  rewrite length_map in H. rewrite !length_app in *. simpl in *. lia.
Qed.

Lemma influence_percentile_bounds_example :
  ~ In (NPI node_b) (map NPI [node_a]) /\
  exists s,
    generate_hcp_summary_data (Some 2) scenario_nodes scenario_df = Some s /\
    (0 <= s_influence_percentile s <= 100)%Q.
Proof.
  assert (H : ~ In (NPI node_b) (map NPI [node_a]))
    by (intros [H|[]]; discriminate H).
  split; [exact H|].
  exact (influence_percentile_bounds [node_a] [node_c] node_b scenario_df H).
Defined.

Lemma max_at_or_above_p90 {A : Type} (f : A -> Q) (l : list A) (x : A) :
  In x l -> (forall r, In r l -> (f r <= f x)%Q) ->
  at_or_above_p90 (map f l) (f x).
Proof.
  intros Hx Hmax.
  assert (Hne : map f l <> []) by (destruct l; [contradiction | discriminate]).
  destruct (quantile_between (9 # 10) (map f l)) as (t & a & b & Hq & _ & Hb & _ & Htb);
    [discriminate | discriminate | assumption |].
  exists t. split; [assumption|].
  apply in_map_iff in Hb. destruct Hb as [r [<- Hr]].
  apply Qle_trans with (f r); auto.
Qed.

(** X11.  A provider whose influence, connections and combined activity
    are each the largest of the node table is always a Key Opinion
    Leader; in particular the provider of a one-row table is. *)
Theorem top_provider_is_kol
    (pre post : list HcpDetails) (row : HcpDetails) (df : DataFrame)
    (Hfirst : ~ In (NPI row) (map NPI pre))
    (Htop : forall r, In r (pre ++ row :: post) ->
              (influence r <= influence row)%Q /\
              connections r <= connections row /\
              papers r + panels r + trials r <=
              papers row + panels row + trials row) :
  exists s,
    generate_hcp_summary_data (Some (NPI row)) (pre ++ row :: post) df = Some s /\
    s_kol_status s = "Key Opinion Leader".
Proof.
  exists (summary_of (NPI row) row (pre ++ row :: post) df).
  split; [now apply generate_present|].
  cbn [s_kol_status summary_of].
  assert (Hin : In row (pre ++ row :: post)) by (apply in_or_app; right; now left).
  assert (Hk : is_kol row (pre ++ row :: post) = true).
  { apply is_kol_iff. split; [|split].
    - apply (max_at_or_above_p90 influence); [assumption|].
      intros r Hr. apply (Htop r Hr).
    - apply (max_at_or_above_p90 (fun r => inject_Z (connections r)));
        [assumption|].
      intros r Hr. rewrite <- Zle_Qle. apply (Htop r Hr).
    - apply (max_at_or_above_p90 (fun r => inject_Z (activity r)));
        [assumption|].
      intros r Hr. rewrite <- Zle_Qle. unfold activity. apply (Htop r Hr). }
  now rewrite Hk.
Qed.

(** Alone in the table, provider C of the example is a Key Opinion Leader. *)
Lemma top_provider_is_kol_example :
  (~ In (NPI node_c) (map NPI []) /\
   forall r, In r ([] ++ node_c :: []) ->
     (influence r <= influence node_c)%Q /\
     connections r <= connections node_c /\
     papers r + panels r + trials r <=
     papers node_c + panels node_c + trials node_c) /\
  exists s,
    generate_hcp_summary_data (Some 3) [node_c] scenario_df = Some s /\
    s_kol_status s = "Key Opinion Leader".
Proof.
  assert (H : forall r, In r ([] ++ node_c :: []) ->
     (influence r <= influence node_c)%Q /\
     connections r <= connections node_c /\
     papers r + panels r + trials r <=
     papers node_c + panels node_c + trials node_c).
  { intros r [<-|[]]. split; [apply Qle_refl | lia]. }
  split; [split; [apply not_in_nil | exact H]|].
  exact (top_provider_is_kol [] [] node_c scenario_df (not_in_nil _) H).
Defined.

(** X12.  The summary of a provider of the node table that is on neither
    side of any record of the edge store: average strength 0, no
    connected state or city, the no-dominant-metric sentence, a diversity
    score of 0, an empty top-connections list, the single no-metrics line
    and an empty interpretation. *)
Theorem summary_without_direct_connections
    (pre post : list HcpDetails) (row : HcpDetails) (df : DataFrame)
    (Hfirst : ~ In (NPI row) (map NPI pre))
    (Hnone : forall e, In e (rows df) ->
               NPI_1 e <> NPI row /\ NPI_2 e <> NPI row) :
  exists s,
    generate_hcp_summary_data (Some (NPI row)) (pre ++ row :: post) df = Some s /\
    s_avg_connection_strength s = 0%Q /\
    s_unique_states_connected s = 0%nat /\
    s_unique_cities_connected s = 0%nat /\
    s_dominant_metrics_text s = "no specific dominant metric identified" /\
    s_collaboration_diversity_score s = 0%R /\
    s_top_connections_list s = [] /\
    s_metrics_breakdown s = [no_metrics_line] /\
    s_metrics_interpretation s = EmptyString.
Proof.
  exists (summary_of (NPI row) row (pre ++ row :: post) df).
  split; [now apply generate_present|].
  assert (Hd : direct_connections (NPI row) df = []).
  { unfold direct_connections. apply filter_none. intros e He.
    destruct (Hnone e He) as [H1 H2].
    apply orb_false_iff. split; now apply Z.eqb_neq. }
  unfold summary_of. rewrite Hd.
  assert (Hl : all_direct_metrics df [] = [])
    by (unfold all_direct_metrics; now destruct (has_Metrics_column df)).
  rewrite Hl.
  cbn [s_avg_connection_strength s_unique_states_connected
       s_unique_cities_connected s_dominant_metrics_text
       s_collaboration_diversity_score s_top_connections_list
       s_metrics_breakdown s_metrics_interpretation].
  assert (Hrows : connected_hcps_details (NPI row) (pre ++ row :: post) [] = []).
  { unfold connected_hcps_details. apply filter_none. reflexivity. }
  unfold unique_states, unique_cities. rewrite Hrows.
  repeat split.
Qed.

Lemma summary_without_direct_connections_example :
  (~ In (NPI node_c) (map NPI [node_a]) /\
   forall e, In e (rows (mkDF true [edge_ab])) ->
     NPI_1 e <> NPI node_c /\ NPI_2 e <> NPI node_c) /\
  exists s,
    generate_hcp_summary_data (Some 3) [node_a; node_c] (mkDF true [edge_ab])
      = Some s /\
    s_top_connections_list s = [].
Proof.
  assert (H1 : ~ In (NPI node_c) (map NPI [node_a]))
    by (intros [H|[]]; discriminate H).
  assert (H2 : forall e, In e (rows (mkDF true [edge_ab])) ->
                 NPI_1 e <> NPI node_c /\ NPI_2 e <> NPI node_c)
    by (intros e [<-|[]]; split; discriminate).
  split; [split; assumption|].
  destruct (summary_without_direct_connections
              [node_a] [] node_c (mkDF true [edge_ab]) H1 H2)
    as [s [Hs [_ [_ [_ [_ [_ [Htop _]]]]]]]].
  exists s. auto.
Defined.

(** ** The summary over the aggregated node table *)

Lemma generate_absent (npi : Z) (nodes : list HcpDetails) (df : DataFrame) :
  ~ In npi (map NPI nodes) ->
  generate_hcp_summary_data (Some npi) nodes df = None.
Proof.
  intros Hn. unfold generate_hcp_summary_data.
  destruct nodes; [reflexivity|]. now rewrite (filter_no_match _ _ Hn).
Qed.

(** X14.  Over the node table aggregated from the same edge store, every
    provider that is on a side of some record has a summary, the summary
    is about that provider, and no direct connection is skipped: the
    top-connections list has exactly one entry per direct connection, of
    which there is at least one.  A provider on no record has none. *)
Theorem summary_over_aggregated_table (df : DataFrame) (k : Z) :
  let nodes := get_all_hcps_details df in
  ((exists e, In e (rows df) /\ (NPI_1 e = k \/ NPI_2 e = k)) ->
     exists s,
       generate_hcp_summary_data (Some k) nodes df = Some s /\
       NPI (s_hcp_data s) = k /\
       List.length (s_top_connections_list s) =
         List.length (direct_connections k df) /\
       (1 <= List.length (direct_connections k df))%nat) /\
  (~ (exists e, In e (rows df) /\ (NPI_1 e = k \/ NPI_2 e = k)) ->
     generate_hcp_summary_data (Some k) nodes df = None).
Proof.
  intros nodes.
  assert (Hids : forall i, In i (map NPI nodes) <->
                   exists e, In e (rows df) /\ (NPI_1 e = i \/ NPI_2 e = i)).
  { intros i. unfold nodes. rewrite details_keys, group_keys_In.
    apply concat_sides_ids. }
  split.
  - intros Hk. pose proof (proj2 (Hids k) Hk) as Hin.
    destruct (filter_first_match _ _ Hin)
      as (pre & row & post & Hnodes & Hrow & Hpre & _).
    rewrite Hnodes in *. subst k.
    exists (summary_of (NPI row) row (pre ++ row :: post) df).
    split; [now apply generate_present|].
    split; [reflexivity|].
    cbn [s_top_connections_list summary_of]. unfold top_connections.
    rewrite sort_desc_length, entries_length. split.
    + f_equal. apply filter_all. intros r Hr.
      apply direct_connection_sides in Hr. destruct Hr as [Hr _].
      apply isin_Z_In, Hids. exists r. split; [assumption|].
      unfold connected_npi. destruct (NPI_1 r =? NPI row); auto.
    + destruct Hk as [e [He Hside]].
      assert (Hd : In e (direct_connections (NPI row) df))
        by (apply direct_connection_sides; auto).
      destruct (direct_connections (NPI row) df); [contradiction | simpl; lia].
  - intros Hnot. apply generate_absent.
    intros Hin. apply Hnot. now apply Hids.
Qed.

(** ** Network diversity *)

Lemma unique_length_le (l : list string) :
  (List.length (unique l) <= List.length l)%nat.
Proof.
  induction l as [|x l IH]; simpl; [lia|].
  pose proof (filter_length_le (fun y => negb (String.eqb x y)) (unique l)).
  lia.
Qed.

Lemma dropna_length_le {A : Type} (l : list (option A)) :
  (List.length (dropna l) <= List.length l)%nat.
Proof. induction l as [|[x|] l IH]; simpl; lia. Qed.

(** Dropping rows keeps the identifiers distinct. *)
Lemma filter_keeps_distinct_ids (keep : HcpDetails -> bool)
    (nodes : list HcpDetails) :
  NoDup (map NPI nodes) -> NoDup (map NPI (filter keep nodes)).
Proof.
  intros Hids. induction nodes as [|r rest IH]; simpl; [constructor|].
  inversion Hids as [|? ? Hr Hrest]; subst.
  destruct (keep r); simpl; [|auto].
  constructor; [|auto].
  intros Hin. apply Hr. apply in_map_iff in Hin.
  destruct Hin as [y [Hy Hin]]. apply filter_In in Hin.
  apply in_map_iff. exists y. tauto.
Qed.

(** At most one endpoint per direct connection is not the provider. *)
Lemma connected_npis_temp_length (npi : Z) (direct : list EdgeRecord) :
  (forall r, In r direct -> NPI_1 r = npi \/ NPI_2 r = npi) ->
  (List.length (connected_npis_temp npi direct) <= List.length direct)%nat.
Proof.
  unfold connected_npis_temp. rewrite filter_app, length_app.
  induction direct as [|r l IH]; intros H; simpl; [lia|].
  assert (IH' := IH (fun x Hx => H x (or_intror Hx))).
  destruct (H r (or_introl eq_refl)) as [H1|H2].
  - rewrite H1, Z.eqb_refl. simpl.
    destruct (negb (NPI_2 r =? npi)); simpl; lia.
  - rewrite H2, Z.eqb_refl. simpl.
    destruct (negb (NPI_1 r =? npi)); simpl; lia.
Qed.

(** X15.  In a node table with one row per identifier, the numbers of
    distinct connected states and of distinct connected cities of a
    summary never exceed the number of direct connections of the
    provider. *)
Theorem network_diversity_bounded
    (pre post : list HcpDetails) (row : HcpDetails) (df : DataFrame)
    (Hunique : NoDup (map NPI (pre ++ row :: post))) :
  exists s,
    generate_hcp_summary_data (Some (NPI row)) (pre ++ row :: post) df = Some s /\
    (s_unique_states_connected s <=
     List.length (direct_connections (NPI row) df))%nat /\
    (s_unique_cities_connected s <=
     List.length (direct_connections (NPI row) df))%nat.
Proof.
  assert (Hfirst : ~ In (NPI row) (map NPI pre)).
  { rewrite map_app in Hunique. simpl in Hunique.
    apply NoDup_remove_2 in Hunique. intros H. apply Hunique.
    apply in_or_app. now left. }
  exists (summary_of (NPI row) row (pre ++ row :: post) df).
  split; [now apply generate_present|].
  cbn [s_unique_states_connected s_unique_cities_connected summary_of].
  set (direct := direct_connections (NPI row) df).
  set (nodes := pre ++ row :: post) in *.
  assert (Hrows : (List.length (connected_hcps_details (NPI row) nodes direct)
                   <= List.length direct)%nat).
  { apply Nat.le_trans
      with (List.length (connected_npis_temp (NPI row) direct)).
    - rewrite <- (length_map NPI).
      apply NoDup_incl_length.
      + unfold connected_hcps_details. now apply filter_keeps_distinct_ids.
      + intros i Hi. apply in_map_iff in Hi. destruct Hi as [r [<- Hr]].
        unfold connected_hcps_details in Hr. apply filter_In in Hr.
        now apply isin_Z_In.
    - apply connected_npis_temp_length. intros r Hr.
      now apply direct_connection_sides in Hr. }
  unfold unique_states, unique_cities. split.
  - eapply Nat.le_trans; [apply unique_length_le|].
    eapply Nat.le_trans; [apply dropna_length_le|].
    now rewrite length_map.
  - eapply Nat.le_trans; [apply unique_length_le|].
    eapply Nat.le_trans; [apply dropna_length_le|].
    now rewrite length_map.
Qed.

Lemma network_diversity_bounded_example :
  NoDup (map NPI ([] ++ node_a :: [node_b; node_c])) /\
  exists s,
    generate_hcp_summary_data (Some 1) scenario_nodes scenario_df = Some s /\
    (s_unique_states_connected s <= 2)%nat.
Proof.
  assert (H : NoDup (map NPI ([] ++ node_a :: [node_b; node_c]))).
  { simpl. repeat constructor; simpl; intuition discriminate. }
  split; [exact H|].
  destruct (network_diversity_bounded [] [node_b; node_c] node_a scenario_df H)
    as [s [Hs [Hstates _]]].
  exists s. split; [exact Hs | exact Hstates].
Defined.

(** ** Rendering attributes *)

Lemma clamp01_bounds (x : Q) : (0 <= clamp01 x <= 1)%Q.
Proof.
  unfold clamp01. split.
  - apply Q.le_max_l.
  - apply Q.max_lub; [discriminate | apply Q.le_min_l].
Qed.

Lemma clamp01_monotone (x y : Q) : (x <= y)%Q -> (clamp01 x <= clamp01 y)%Q.
Proof.
  intros H. unfold clamp01.
  apply Q.max_le_compat_l. now apply Q.min_le_compat_l.
Qed.

Lemma norm_connections_bounds (c gmin gmax : Z) :
  (0 <= norm_connections c gmin gmax <= 1)%Q.
Proof.
  unfold norm_connections. destruct (gmax - gmin =? 0).
  - split; discriminate.
  - apply clamp01_bounds.
Qed.

(** X16.  The size of a drawn node is always between 15 and 70, whatever
    the connection count and the global range; it is 42.5 when the global
    range is a single value; and the mass of a node is at least 1. *)
Theorem node_size_and_mass_bounds (connections gmin gmax : Z) :
  (15 <= node_size connections gmin gmax <= 70)%Q /\
  (gmax = gmin -> node_size connections gmin gmax == 85 # 2)%Q /\
  (1 <= node_mass connections)%Q.
Proof.
  pose proof (norm_connections_bounds connections gmin gmax) as [H0 H1].
  unfold node_size. split; [split; lra|]. split.
  - intros ->. unfold norm_connections.
    rewrite Z.sub_diag. reflexivity.
  - unfold node_mass. apply Q.le_max_l.
Qed.

(** X17.  Over a proper global range, a node with more connections is
    never drawn smaller; a node at or below the global minimum has size
    15 and a node at or above the global maximum has size 70. *)
Theorem node_size_monotone (c c' gmin gmax : Z)
    (Hrange : gmin < gmax) (Hle : c <= c') :
  (node_size c gmin gmax <= node_size c' gmin gmax)%Q /\
  (c <= gmin -> (node_size c gmin gmax == 15)%Q) /\
  (gmax <= c -> (node_size c gmin gmax == 70)%Q).
Proof.
  unfold node_size, norm_connections.
  assert (Hne : (gmax - gmin =? 0) = false) by (apply Z.eqb_neq; lia).
  rewrite Hne.
  assert (Hd : (0 < inject_Z (gmax - gmin))%Q).
  { change 0%Q with (inject_Z 0). rewrite <- Zlt_Qlt. lia. }
  split; [|split].
  - assert (Hq : (inject_Z (c - gmin) / inject_Z (gmax - gmin) <=
                  inject_Z (c' - gmin) / inject_Z (gmax - gmin))%Q).
    { apply Qle_shift_div_l; [assumption|].
      unfold Qdiv. rewrite <- Qmult_assoc, (Qmult_comm (/ _)), Qmult_inv_r, Qmult_1_r
        by (apply Qnot_eq_sym, Qlt_not_eq; assumption).
      rewrite <- Zle_Qle. lia. }
    apply clamp01_monotone in Hq. lra.
  - intros Hc.
    assert (Hq : (inject_Z (c - gmin) / inject_Z (gmax - gmin) <= 0)%Q).
    { apply Qle_shift_div_r; [assumption|]. rewrite Qmult_0_l.
      change 0%Q with (inject_Z 0). rewrite <- Zle_Qle. lia. }
    assert (Hz : (clamp01 (inject_Z (c - gmin) / inject_Z (gmax - gmin)) == 0)%Q).
    { unfold clamp01. apply Q.max_l.
      eapply Qle_trans; [apply Q.le_min_r | exact Hq]. }
    rewrite Hz. reflexivity.
  - intros Hc.
    assert (Hq : (1 <= inject_Z (c - gmin) / inject_Z (gmax - gmin))%Q).
    { apply Qle_shift_div_l; [assumption|]. rewrite Qmult_1_l.
      rewrite <- Zle_Qle. lia. }
    assert (Hz : (clamp01 (inject_Z (c - gmin) / inject_Z (gmax - gmin)) == 1)%Q).
    { unfold clamp01. rewrite (Q.min_l _ _ Hq). apply Q.max_r. discriminate. }
    rewrite Hz. reflexivity.
Qed.

Lemma node_size_monotone_example :
  (0 < 15 /\ 3 <= 4) /\
  (node_size 3 0 15 <= node_size 4 0 15)%Q.
Proof.
  split; [lia|].
  exact (proj1 (node_size_monotone 3 4 0 15 eq_refl (Zle_bool_imp_le 3 4 eq_refl))).
Defined.

(** X18.  The width of a drawn edge is always between 1 and 10 and the
    opacity of its colour between 0.4 and 0.9, whatever the strength and
    the global range; over a single-valued range they are 5.5 and 0.65. *)
Theorem edge_width_and_opacity_bounds (weight gmin gmax : Q) :
  (1 <= edge_width weight gmin gmax <= 10)%Q /\
  ((4 # 10) <= edge_opacity weight gmin gmax <= (9 # 10))%Q /\
  ((gmax == gmin)%Q ->
     (edge_width weight gmin gmax == 55 # 10)%Q /\
     (edge_opacity weight gmin gmax == 65 # 100)%Q).
Proof.
  assert (Hb : (0 <= norm_weight weight gmin gmax <= 1)%Q).
  { unfold norm_weight. destruct (Qeq_bool (gmax - gmin) 0).
    - split; discriminate.
    - apply clamp01_bounds. }
  destruct Hb as [H0 H1].
  unfold edge_width, edge_opacity.
  split; [split; lra|]. split; [split; lra|].
  intros Heq.
  assert (Hz : Qeq_bool (gmax - gmin) 0 = true)
    by (apply Qeq_bool_iff; lra).
  unfold norm_weight. rewrite Hz. split; reflexivity.
Qed.

Lemma first_row_influence (k : Z) (nodes_df : list HcpDetails) (c : HcpDetails) :
  first_row_with_id k nodes_df c ->
  has_node nodes_df k = true /\ node_influence nodes_df k = influence c.
Proof.
  intros [before [after [-> [Hk Hn]]]]. split.
  - unfold has_node. apply isin_Z_In. rewrite map_app, in_app_iff.
    right. left. exact Hk.
  - unfold node_influence. rewrite filter_app, (filter_no_match k before Hn).
    cbn [app filter]. apply Z.eqb_eq in Hk. now rewrite Hk.
Qed.

(** X19.  An edge record both of whose endpoints have a row in the node
    table is drawn as an arrow that starts at the endpoint whose first
    row has the higher influence, and at side 1 on a tie; when an
    endpoint has no row in the node table the lookup of its node raises
    KeyError and nothing is drawn. *)
Theorem edge_arrow_from_higher_influence
    (nodes_df : list HcpDetails) (e : EdgeRecord) :
  (forall cu cv,
     first_row_with_id (NPI_1 e) nodes_df cu ->
     first_row_with_id (NPI_2 e) nodes_df cv ->
     ((influence cv <= influence cu)%Q ->
        draw_edge nodes_df e = arrow (NPI_1 e) (NPI_2 e)) /\
     ((influence cu < influence cv)%Q ->
        draw_edge nodes_df e = arrow (NPI_2 e) (NPI_1 e))) /\
  (~ In (NPI_1 e) (map NPI nodes_df) \/ ~ In (NPI_2 e) (map NPI nodes_df) ->
     draw_edge nodes_df e = KeyError).
Proof.
  split.
  - intros cu cv Hu Hv.
    destruct (first_row_influence _ _ _ Hu) as [Hnu Hiu].
    destruct (first_row_influence _ _ _ Hv) as [Hnv Hiv].
    unfold draw_edge. rewrite Hnu, Hnv, Hiu, Hiv. split; intros H.
    + apply Qle_bool_iff in H. now rewrite H.
    + destruct (Qle_bool (influence cv) (influence cu)) eqn:Hle; [|reflexivity].
      apply Qle_bool_iff in Hle. exfalso. now apply (Qlt_not_le _ _ H).
  - intros H. unfold draw_edge, has_node.
    destruct (isin_Z (NPI_1 e) (map NPI nodes_df)) eqn:Hu.
    + destruct (isin_Z (NPI_2 e) (map NPI nodes_df)) eqn:Hv; [|reflexivity].
      apply isin_Z_In in Hu. apply isin_Z_In in Hv. tauto.
    + reflexivity.
Qed.

(** In the example, B has the influence 7 and A the influence 5: the
    record that connects A to B is drawn as an arrow from B to A; beside
    the row of A alone, drawing it raises KeyError. *)
Lemma edge_arrow_example :
  draw_edge scenario_nodes edge_ab = arrow 2 1 /\
  draw_edge [node_a] edge_ab = KeyError.
Proof.
  split.
  - apply (proj1 (edge_arrow_from_higher_influence scenario_nodes edge_ab)
             node_a node_b).
    + exists [], [node_b; node_c]. split; [reflexivity|].
      split; [reflexivity | intros []].
    + exists [node_a], [node_c]. split; [reflexivity|].
      split; [reflexivity | intros [H|[]]; discriminate H].
    + reflexivity.
  - apply (proj2 (edge_arrow_from_higher_influence [node_a] edge_ab)).
    right. intros [H|[]]. discriminate H.
Defined.

(** ** Summary page and provider selection *)

(** X20.  The table of top connections of the summary page shows the
    first min(n, length) entries of the top-connections list, and these
    are the best ones: the entries that are not shown follow the shown
    ones in the list and none of them has a higher composite score
    0.6 * influence + 0.4 * strength than a shown entry. *)
Theorem top_connections_display_shows_the_best
    (pre post : list HcpDetails) (row : HcpDetails) (df : DataFrame)
    (top_n_connections : nat)
    (Hfirst : ~ In (NPI row) (map NPI pre)) :
  exists s,
    generate_hcp_summary_data (Some (NPI row)) (pre ++ row :: post) df = Some s /\
    let shown := top_connections_display top_n_connections
                   (s_top_connections_list s) in
    List.length shown =
      Nat.min top_n_connections (List.length (s_top_connections_list s)) /\
    exists hidden,
      s_top_connections_list s = shown ++ hidden /\
      forall a b, In a shown -> In b hidden ->
        ((6 # 10) * tc_influence b + (4 # 10) * tc_strength b <=
         (6 # 10) * tc_influence a + (4 # 10) * tc_strength a)%Q.
Proof.
  exists (summary_of (NPI row) row (pre ++ row :: post) df).
  split; [now apply generate_present|].
  cbv zeta. cbn [s_top_connections_list summary_of].
  set (l := top_connections (NPI row) (pre ++ row :: post) df
              (direct_connections (NPI row) df)).
  unfold top_connections_display.
  set (m := Nat.min top_n_connections (List.length l)).
  split; [rewrite length_firstn; lia|].
  exists (skipn m l). split; [symmetry; apply firstn_skipn|].
  assert (Hsorted : descending composite_score l)
    by apply sort_desc_sorted.
  unfold descending in Hsorted. rewrite <- (firstn_skipn m l) in Hsorted.
  destruct (sorted_app_cross _ _ _ Hsorted) as [_ Hcross].
  exact Hcross.
Qed.

Lemma top_connections_display_example :
  ~ In (NPI node_a) (map NPI []) /\
  exists s,
    generate_hcp_summary_data (Some 1) scenario_nodes scenario_df = Some s /\
    List.length (top_connections_display 1 (s_top_connections_list s)) =
      Nat.min 1 (List.length (s_top_connections_list s)).
Proof.
  split; [apply not_in_nil|].
  destruct (top_connections_display_shows_the_best
              [] [node_b; node_c] node_a scenario_df 1 (not_in_nil _))
    as [s [Hs [Hlen _]]].
  exists s. split; [exact Hs | exact Hlen].
Defined.

Lemma filter_name_first (name : string) (nodes : list HcpDetails)
    (r : HcpDetails) (rest : list HcpDetails) :
  filter (fun x => String.eqb (hcp_name x) name) nodes = r :: rest ->
  In r nodes /\ hcp_name r = name.
Proof.
  intros H.
  assert (Hin : In r (filter (fun x => String.eqb (hcp_name x) name) nodes))
    by (rewrite H; now left).
  apply filter_In in Hin. destruct Hin as [Hin Heq].
  apply String.eqb_eq in Heq. auto.
Qed.

(** X21.  Choosing a name in the selector of the main page leaves the
    session with either both the identifier and the summary, or neither:
    neither for the placeholder entry and for a name that no row has;
    otherwise the identifier is that of a row with the chosen name and
    the summary is present and is about that identifier. *)
Theorem select_hcp_id_and_summary_together
    (name : string) (nodes : list HcpDetails) (df : DataFrame) :
  let selected_hcp_npi := fst (select_hcp name nodes df) in
  let summary_data := snd (select_hcp name nodes df) in
  (selected_hcp_npi = None <-> summary_data = None) /\
  (selected_hcp_npi = None <->
     name = placeholder_name \/ forall r, In r nodes -> hcp_name r <> name) /\
  (forall k, selected_hcp_npi = Some k ->
     exists r s,
       In r nodes /\ hcp_name r = name /\ NPI r = k /\
       summary_data = Some s /\ NPI (s_hcp_data s) = k).
Proof.
  cbv zeta. unfold select_hcp.
  destruct (String.eqb_spec name placeholder_name) as [Hp|Hp]; cbn [negb fst snd].
  - split; [tauto|]. split; [tauto | discriminate].
  - destruct (filter (fun r => String.eqb (hcp_name r) name) nodes)
      as [|r rest] eqn:Hf; cbn [fst snd].
    + split; [tauto|]. split; [|discriminate].
      split; [|reflexivity]. intros _. right. intros r Hr Hname.
      assert (Hin : In r (filter (fun x => String.eqb (hcp_name x) name) nodes))
        by (apply filter_In; split; [assumption | now apply String.eqb_eq]).
      rewrite Hf in Hin. contradiction.
    + destruct (filter_name_first name nodes r rest Hf) as [Hin Hname].
      assert (Hid : In (NPI r) (map NPI nodes)) by now apply in_map.
      destruct (filter_first_match _ _ Hid)
        as (pre & row & post & -> & Hrow & Hpre & _).
      rewrite <- Hrow in *. rewrite (generate_present pre post row df Hpre).
      split; [split; discriminate|]. split.
      * split; [discriminate|]. intros [H|H]; [contradiction|].
        exfalso. apply (H r Hin Hname).
      * intros k [= <-]. exists r, (summary_of (NPI row) row (pre ++ row :: post) df).
        repeat split; auto.
Qed.

(** ** Metrics breakdown: the lines add up *)

Lemma bucket_line_count (m : string) (c T : nat) :
  fold_right Nat.add 0%nat (map line_count (bucket_line m c T)) = c.
Proof. unfold bucket_line. destruct c; simpl; lia. Qed.

Lemma bucket_lines_count (D : list string) (f : string -> nat) (T : nat) :
  fold_right Nat.add 0%nat
    (map line_count (flat_map (fun m => bucket_line m (f m) T) D)) =
  fold_right Nat.add 0%nat (map f D).
Proof.
  induction D as [|m D IH]; cbn [flat_map map fold_right]; [reflexivity|].
  rewrite map_app, fold_right_app.
  assert (Hacc : forall (l : list nat) (a : nat),
             fold_right Nat.add a l = (fold_right Nat.add 0 l + a)%nat).
  { induction l as [|x l IHl]; intros a; simpl; [lia | rewrite IHl; lia]. }
  rewrite Hacc, bucket_line_count, IH. lia.
Qed.

Lemma bucket_line_positive (m : string) (c T : nat) (l : BreakdownLine) :
  In l (bucket_line m c T) -> (0 < line_count l)%nat.
Proof.
  unfold bucket_line. destruct c; simpl; [contradiction|].
  intros [<-|[]]. simpl. lia.
Qed.

(** X22.  When the direct connections of a provider carry at least one
    metric label, the lines of the metrics breakdown account for every
    label exactly once: each line reports a positive count and the counts
    add up to the number of labels. *)
Theorem metrics_breakdown_counts_add_up
    (pre post : list HcpDetails) (row : HcpDetails) (df : DataFrame)
    (Hfirst : ~ In (NPI row) (map NPI pre))
    (Hlabels : all_direct_metrics df (direct_connections (NPI row) df) <> []) :
  let labels := all_direct_metrics df (direct_connections (NPI row) df) in
  exists s,
    generate_hcp_summary_data (Some (NPI row)) (pre ++ row :: post) df = Some s /\
    (forall l, In l (s_metrics_breakdown s) -> (0 < line_count l)%nat) /\
    fold_right Nat.add 0%nat (map line_count (s_metrics_breakdown s)) =
      List.length labels.
Proof.
  intros labels.
  exists (summary_of (NPI row) row (pre ++ row :: post) df).
  split; [now apply generate_present|].
  cbn [s_metrics_breakdown summary_of]. fold labels.
  rewrite breakdown_lines_spec.
  pose proof (buckets_total labels) as Htotal.
  rewrite count_metrics_spec in Htotal. unfold total_metric_instances in Htotal.
  cbn [fst snd] in Htotal. rewrite map_map in Htotal. cbn [snd] in Htotal.
  destruct labels as [|v l] eqn:Hl; [contradiction|]. rewrite <- Hl in *.
  split.
  - intros x Hx. apply in_app_or in Hx. destruct Hx as [Hx|Hx].
    + apply in_flat_map in Hx. destruct Hx as [m [_ Hx]].
      now apply bucket_line_positive in Hx.
    + now apply bucket_line_positive in Hx.
  - rewrite map_app, fold_right_app, bucket_line_count.
    assert (Hacc : forall (l0 : list nat) (a : nat),
               fold_right Nat.add a l0 = (fold_right Nat.add 0 l0 + a)%nat).
    { induction l0 as [|x l0 IHl]; intros a; simpl; [lia | rewrite IHl; lia]. }
    rewrite Hacc, bucket_lines_count. exact Htotal.
Qed.

(** The two direct connections of provider A of the example carry one
    label each: the counts of the breakdown add up to 2. *)
Lemma metrics_breakdown_counts_example :
  (~ In (NPI node_a) (map NPI []) /\
   all_direct_metrics scenario_df (direct_connections (NPI node_a) scenario_df)
     <> []) /\
  exists s,
    generate_hcp_summary_data (Some 1) scenario_nodes scenario_df = Some s /\
    fold_right Nat.add 0%nat (map line_count (s_metrics_breakdown s)) = 2%nat.
Proof.
  assert (H : all_direct_metrics scenario_df
                (direct_connections (NPI node_a) scenario_df) <> [])
    by discriminate.
  split; [split; [apply not_in_nil | exact H]|].
  destruct (metrics_breakdown_counts_add_up
              [] [node_b; node_c] node_a scenario_df (not_in_nil _) H)
    as [s [Hs [_ Hsum]]].
  exists s. split; [exact Hs|]. rewrite Hsum. reflexivity.
Defined.
